(** * prometheus_notice: a shallow embedding of [main.py]

    The development follows the source file top to bottom:

    - the values the program computes with (Python floats, decoded JSON
      documents, exceptions);
    - the effects it performs (logging, HTTP queries, file reads and writes,
      an SMTP session), threaded through a small state-and-exception monad
      in which the state survives a raised exception, as it does in Python;
    - the three classes [EmailSender], [PrometheusMetrics] and
      [PrometheusNotice], method by method;
    - the properties of the collectors, the formatters, the notifier and the
      orchestrator.

    Numbers.  A Python [float] is an IEEE 754 double.  It is modelled by
    [pyfloat]: a finite value by the rational it stands for, besides
    [-0.0], the two infinities and NaN.  Every operation computes its exact
    result and rounds it to the nearest double, ties to even; a result of
    [2^1024] or more is an infinity, a result too small for the smallest
    double is a zero with the sign of the exact result.  The type [Q] holds
    more rationals than there are doubles: [is_double] tells the doubles,
    and every operation returns one.

    Text.  A Python [str] is modelled by the string of its code points,
    all of them below 256.

    Libraries.  What lies outside [main.py] (the HTTP backend, the mail
    server, the template engine, the spreadsheet writer, the clock) is a
    [world]: for each library call, a function from the arguments of the
    call to its outcome, a value or a raised exception.  A world answers
    the same call the same way throughout a run. *)

From Stdlib Require Import ZArith QArith Qpower Qabs Lqa List String Ascii Bool Lia.
From Stdlib Require Import Decimal DecimalString SpecFloat.
From Stdlib.Strings Require Byte.
Import ListNotations.
Local Open Scope string_scope.
Set Warnings "-register-all".

(* ================================================================== *)
(** ** Python floats *)
(* ================================================================== *)

Inductive pyfloat : Type :=
| Fin (q : Q)   (* a finite value other than -0.0 *)
| NZero         (* -0.0 *)
| PInf          (* float("inf") *)
| NInf          (* float("-inf") *)
| NaN.          (* float("nan") *)

Definition Qltb (x y : Q) : bool :=
  (Qnum x * QDen y <? Qnum y * QDen x)%Z.

Definition Qsign_neg (q : Q) : bool := Qltb q 0.
Definition Qis_zero (q : Q) : bool := Qeq_bool q 0.

(* ------------------------------------------------------------------ *)
(** *** Rounding to the nearest double *)

(** Nearest integer to a rational, ties to even. *)
Definition round_half_even (q : Q) : Z :=
  let n := Qnum q in
  let d := QDen q in
  let f := (n / d)%Z in
  let r := (n mod d)%Z in
  match (2 * r ?= d)%Z with
  | Lt => f
  | Gt => (f + 1)%Z
  | Eq => if Z.even f then f else (f + 1)%Z
  end.

(** The position of the leading bit of [q > 0]: the [k] with
    [2^k <= q < 2^(k+1)]. *)
Definition Qlog2 (q : Q) : Z :=
  let k := (Z.log2 (Qnum q) - Z.log2 (QDen q))%Z in
  if Qle_bool (2 ^ k) q then k else (k - 1)%Z.

(** The exponent of the unit in the last place of the doubles around
    [a > 0]: 53 significant bits, and no bit below [2^-1074]. *)
Definition last_place (a : Q) : Z := Z.max (Qlog2 a - 52) (-1074).

(** [a > 0] rounded to the nearest multiple of its unit in the last place,
    ties to the even multiple; the result is in lowest terms. *)
Definition nearest (a : Q) : Q :=
  let e := last_place a in
  Qred (inject_Z (round_half_even (a / 2 ^ e)) * 2 ^ e).

(** The float an operation returns when its exact result is [q]: the
    nearest double; an infinity when that is [2^1024] or more; a zero with
    the sign of [q] when it is zero. *)
Definition round64 (q : Q) : pyfloat :=
  if Qis_zero q then Fin 0
  else if Qsign_neg q then
    let v := nearest (- q) in
    if Qle_bool (2 ^ 1024) v then NInf
    else if Qis_zero v then NZero
    else Fin (- v)
  else
    let v := nearest q in
    if Qle_bool (2 ^ 1024) v then PInf else Fin v.

(** [a > 0] is a multiple of the unit in its last place. *)
Definition on_grid (a : Q) : bool := Qeq_bool (nearest a) a.

(** [x] is a double: every float of the program is one. *)
Definition is_double (x : pyfloat) : bool :=
  match x with
  | Fin q => Qis_zero q || (on_grid (Qabs q) && Qltb (Qabs q) (2 ^ 1024))
  | _ => true
  end.

(* ------------------------------------------------------------------ *)
(** *** Arithmetic and comparison *)

(** The number a finite float stands for. *)
Definition value (x : pyfloat) : option Q :=
  match x with
  | Fin q => Some q
  | NZero => Some 0
  | _ => None
  end.

Definition is_finite (x : pyfloat) : bool :=
  match value x with Some _ => true | None => false end.

Definition signbit (x : pyfloat) : bool :=
  match x with
  | Fin q => Qsign_neg q
  | NZero | NInf => true
  | PInf | NaN => false
  end.

(** An infinity, a zero, of the given sign. *)
Definition inf_of_sign (negative : bool) : pyfloat :=
  if negative then NInf else PInf.

Definition zero_of_sign (negative : bool) : pyfloat :=
  if negative then NZero else Fin 0.

(** [x - y].  An exact difference of zero is [0.0], except
    [-0.0 - 0.0]. *)
Definition fsub (x y : pyfloat) : pyfloat :=
  match x, y with
  | NaN, _ | _, NaN => NaN
  | PInf, PInf | NInf, NInf => NaN
  | PInf, _ | _, NInf => PInf
  | NInf, _ | _, PInf => NInf
  | NZero, NZero => Fin 0
  | NZero, Fin b => if Qis_zero b then NZero else round64 (- b)
  | Fin a, NZero => round64 a
  | Fin a, Fin b => round64 (a - b)
  end.

(** [x * y].  The sign of a zero or infinite product is the product of
    the signs. *)
Definition fmul (x y : pyfloat) : pyfloat :=
  let negative := xorb (signbit x) (signbit y) in
  match x, y with
  | NaN, _ | _, NaN => NaN
  | _, _ =>
      match value x, value y with
      | Some a, Some b =>
          if Qis_zero (a * b) then zero_of_sign negative else round64 (a * b)
      | Some a, None | None, Some a =>
          if Qis_zero a then NaN else inf_of_sign negative
      | None, None => inf_of_sign negative
      end
  end.

(** [x / y] for a divisor that is not zero.  Python raises
    [ZeroDivisionError] on a zero divisor; that case is [py_truediv]'s,
    below, and [fdiv] is only its quotient part. *)
Definition fdiv (x y : pyfloat) : pyfloat :=
  let negative := xorb (signbit x) (signbit y) in
  match x, y with
  | NaN, _ | _, NaN => NaN
  | _, _ =>
      match value x, value y with
      | Some a, Some b =>
          if Qis_zero a then zero_of_sign negative else round64 (a / b)
      | Some _, None => zero_of_sign negative
      | None, Some _ => inf_of_sign negative
      | None, None => NaN
      end
  end.

(** [x < y]; every comparison with NaN is false, and [-0.0] compares as
    [0.0]. *)
Definition flt (x y : pyfloat) : bool :=
  match x, y with
  | NaN, _ | _, NaN => false
  | NInf, NInf | PInf, PInf => false
  | NInf, _ | _, PInf => true
  | PInf, _ | _, NInf => false
  | _, _ =>
      match value x, value y with
      | Some a, Some b => Qltb a b
      | _, _ => false
      end
  end.

(** [x > y] *)
Definition fgt (x y : pyfloat) : bool := flt y x.

(** [x <= y], used in statements only. *)
Definition fle (x y : pyfloat) : Prop :=
  match x, y with
  | NaN, _ | _, NaN => False
  | NInf, _ | _, PInf => True
  | PInf, _ | _, NInf => False
  | _, _ =>
      match value x, value y with
      | Some a, Some b => a <= b
      | _, _ => False
      end
  end.

(** Equality of floats as stored (NaN is related to itself, [0.0] is not
    related to [-0.0]: the relation compares what is stored, it is not
    Python's [==]). *)
Definition feq (x y : pyfloat) : Prop :=
  match x, y with
  | Fin a, Fin b => a == b
  | NZero, NZero | PInf, PInf | NInf, NInf | NaN, NaN => True
  | _, _ => False
  end.

Definition is_zero (x : pyfloat) : bool :=
  match value x with Some q => Qis_zero q | None => false end.

(** Literals: the ints [0], [100], [1000] and [1024] as the floats they
    convert to when they meet a float. *)
Definition f0 : pyfloat := Fin 0.
Definition f100 : pyfloat := Fin 100.
Definition f1000 : pyfloat := Fin 1000.
Definition f1024 : pyfloat := Fin 1024.

(** The same float in the Standard Library's description of IEEE 754
    (binary64 is [prec = 53], [emax = 1024]), for comparison. *)
Definition to_spec (x : pyfloat) : spec_float :=
  match x with
  | NaN => S754_nan
  | PInf => S754_infinity false
  | NInf => S754_infinity true
  | NZero => S754_zero true
  | Fin q =>
      if Qis_zero q then S754_zero false
      else
        let a := Qabs q in
        let e := last_place a in
        match round_half_even (a / 2 ^ e) with
        | Zpos m => S754_finite (Qsign_neg q) m e
        | _ => S754_nan
        end
  end.

(* ------------------------------------------------------------------ *)
(** *** The format specification [.2f] *)

Definition string_of_Z (z : Z) : string :=
  NilZero.string_of_uint (N.to_uint (Z.to_N z)).

Definition two_digits (z : Z) : string :=
  let s := string_of_Z z in
  if (z <? 10)%Z then "0" ++ s else s.

(** [f"{q:.2f}"] for a finite [q >= 0]: the exact value rounded to the
    nearest hundredth, ties to even. *)
Definition format_2f_abs (q : Q) : string :=
  let c := round_half_even (q * 100) in
  string_of_Z (c / 100) ++ "." ++ two_digits (c mod 100).

(** [f"{x:.2f}"] *)
Definition format_2f (x : pyfloat) : string :=
  match x with
  | NaN => "nan"
  | PInf => "inf"
  | NInf => "-inf"
  | NZero => "-0.00"
  | Fin q => if Qsign_neg q then "-" ++ format_2f_abs (- q) else format_2f_abs q
  end.

(* ------------------------------------------------------------------ *)
(** *** [PrometheusMetrics._format_bytes] and
        [PrometheusMetrics._format_bits_per_second]

    Both are a [for] loop over a literal list of units with an early
    [return]; the loop variable [bytes_value] (resp. [bps]) is divided by
    the non-zero literal after each unit that did not fit, so [/] cannot
    raise here. *)

Fixpoint format_loop (base : pyfloat) (units : list string) (last : string)
    (value : pyfloat) : string :=
  match units with
  | [] => format_2f value ++ " " ++ last
  | unit :: rest =>
      if flt value base
      then format_2f value ++ " " ++ unit
      else format_loop base rest last (fdiv value base)
  end.

Definition _format_bytes (bytes_value : pyfloat) : string :=
  format_loop f1024 ["B"; "KB"; "MB"; "GB"; "TB"] "PB" bytes_value.

Definition _format_bits_per_second (bps : pyfloat) : string :=
  format_loop f1000 ["bps"; "Kbps"; "Mbps"; "Gbps"] "Tbps" bps.

(* ================================================================== *)
(** ** Exceptions and results *)
(* ================================================================== *)

(** The exceptions the program can meet.  All of them derive from
    [Exception], so every [except Exception] clause of the source catches
    every constructor below ([KeyboardInterrupt] and [SystemExit], which
    do not, are outside the model).  [OtherException] is an exception
    raised inside a library call (requests, smtplib, the file system,
    jinja2, pandas, email), identified by its class name. *)
Inductive exn : Type :=
| KeyError (key : string)       (* d["key"] *)
| KeyError_int (key : Z)        (* d[1] *)
| TypeError
| ValueError
| IndexError
| OverflowError
| ZeroDivisionError
| OtherException (class_name : string).

Inductive result (A : Type) : Type :=
| Ok (a : A)
| Raise (e : exn).

Arguments Ok {A} a.
Arguments Raise {A} e.

(* ================================================================== *)
(** ** Decoded JSON documents and the built-ins applied to them *)
(* ================================================================== *)

(** A Python number: an [int] or a [float]. *)
Inductive number : Type :=
| Int (z : Z)
| Float (x : pyfloat).

(** What [response.json()] returns.  A [JObj] lists the items of the
    decoded [dict] in insertion order, each key once. *)
Inductive json : Type :=
| JNull
| JBool (b : bool)
| JNum (n : number)
| JStr (s : string)
| JArr (items : list json)
| JObj (members : list (string * json)).

Fixpoint assoc {A : Type} (key : string) (l : list (string * A)) : option A :=
  match l with
  | [] => None
  | (k, v) :: rest => if String.eqb k key then Some v else assoc key rest
  end.

(** [j[key]] with a string key. *)
Definition getitem (j : json) (key : string) : result json :=
  match j with
  | JObj members =>
      match assoc key members with
      | Some v => Ok v
      | None => Raise (KeyError key)
      end
  | _ => Raise TypeError
  end.

Fixpoint chars (s : string) : list json :=
  match s with
  | EmptyString => []
  | String c rest => JStr (String c EmptyString) :: chars rest
  end.

(** [j[i]] with a non-negative integer literal. *)
Definition getitem_int (j : json) (i : nat) : result json :=
  match j with
  | JArr items =>
      match nth_error items i with
      | Some v => Ok v
      | None => Raise IndexError
      end
  | JStr s =>
      match nth_error (chars s) i with
      | Some v => Ok v
      | None => Raise IndexError
      end
  | JObj _ => Raise (KeyError_int (Z.of_nat i))
  | _ => Raise TypeError
  end.

(** [iter(j)], as [zip] and a comprehension call it: the elements of a
    list, the keys of a dict, the characters of a string. *)
Definition py_iter (j : json) : result (list json) :=
  match j with
  | JArr items => Ok items
  | JObj members => Ok (map (fun kv => JStr (fst kv)) members)
  | JStr s => Ok (chars s)
  | _ => Raise TypeError
  end.

(** [x / y] *)
Definition py_truediv (x y : pyfloat) : result pyfloat :=
  if is_zero y then Raise ZeroDivisionError else Ok (fdiv x y).

(* ------------------------------------------------------------------ *)
(** *** [float(s)] on a string

    Surrounding white space, an optional sign, then [inf], [infinity] or
    [nan] in any case, or a decimal literal with optional fraction and
    exponent, in which single underscores may separate digits.  The value
    of the literal is rounded to the nearest double.  Python also reads
    the decimal digits of other scripts and strips their spaces; all of
    those have code points of 256 or more, outside the strings modelled
    here. *)

(** The white space [float] strips: tab, line feed, vertical tab, form
    feed, carriage return and space, and the two other spaces below 256,
    U+0085 and U+00A0.  The separators U+001C to U+001F are not
    stripped. *)
Definition is_space (c : ascii) : bool :=
  let n := nat_of_ascii c in
  (n =? 32)%nat || ((9 <=? n)%nat && (n <=? 13)%nat)
  || (n =? 133)%nat || (n =? 160)%nat.

Definition digit_of (c : ascii) : option Z :=
  let n := nat_of_ascii c in
  if ((48 <=? n)%nat && (n <=? 57)%nat)%bool
  then Some (Z.of_nat (n - 48))
  else None.

Definition lower (c : ascii) : ascii :=
  let n := nat_of_ascii c in
  if ((65 <=? n)%nat && (n <=? 90)%nat)%bool
  then ascii_of_nat (n + 32)
  else c.

Fixpoint lstrip (l : list ascii) : list ascii :=
  match l with
  | c :: rest => if is_space c then lstrip rest else l
  | [] => []
  end.

Definition strip (l : list ascii) : list ascii :=
  List.rev (lstrip (List.rev (lstrip l))).

(** A run of digits in which single underscores may separate digits.
    [acc] is the value read so far, [n] the number of digits read so far
    in this run; the result also carries the unread rest. *)
Fixpoint digitpart (l : list ascii) (acc : Z) (n : nat)
  : Z * nat * list ascii :=
  match l with
  | c :: rest =>
      match digit_of c with
      | Some d => digitpart rest (acc * 10 + d)%Z (S n)
      | None =>
          if (Ascii.eqb c "_" && negb (n =? 0)%nat)%bool
          then match rest with
               | c' :: rest' =>
                   match digit_of c' with
                   | Some d => digitpart rest' (acc * 10 + d)%Z (S n)
                   | None => (acc, n, l)
                   end
               | [] => (acc, n, l)
               end
          else (acc, n, l)
      end
  | [] => (acc, n, l)
  end.

Definition sign_of (l : list ascii) : bool * list ascii :=
  match l with
  | c :: rest =>
      if Ascii.eqb c "-" then (true, rest)
      else if Ascii.eqb c "+" then (false, rest)
      else (false, l)
  | [] => (false, l)
  end.

(** The optional exponent of a decimal literal: [None] is a malformed
    exponent, [Some e] the exponent read (0 when there is none) once the
    whole input is consumed. *)
Definition exponent_of (l : list ascii) : option Z :=
  match l with
  | [] => Some 0%Z
  | c :: rest =>
      if Ascii.eqb (lower c) "e" then
        let '(neg, rest1) := sign_of rest in
        match digitpart rest1 0%Z 0 with
        | (e, S _, []) => Some (if neg then (- e)%Z else e)
        | _ => None
        end
      else None
  end.

(** [[digitpart] "." digitpart | digitpart ["."]] followed by an optional
    exponent: the exact value of the literal. *)
Definition decimal_of (l : list ascii) : option Q :=
  let '(ipart, n1, rest1) := digitpart l 0%Z 0 in
  let '(mant, n2, rest2) :=
    match rest1 with
    | c :: rest =>
        if Ascii.eqb c "." then digitpart rest ipart 0 else (ipart, 0%nat, rest1)
    | [] => (ipart, 0%nat, rest1)
    end in
  if ((n1 + n2 =? 0)%nat)%bool then None
  else
    match exponent_of rest2 with
    | Some e => Some (inject_Z mant * Qpower 10 (e - Z.of_nat n2))
    | None => None
    end.

Definition float_of_string (s : string) : result pyfloat :=
  let '(neg, body) := sign_of (strip (list_ascii_of_string s)) in
  let word := string_of_list_ascii (map lower body) in
  if (String.eqb word "inf" || String.eqb word "infinity")%bool
  then Ok (inf_of_sign neg)
  else if String.eqb word "nan" then Ok NaN
  else
    match decimal_of body with
    | Some q =>
        Ok (if Qis_zero q then zero_of_sign neg
            else round64 (if neg then - q else q))
    | None => Raise ValueError
    end.

(** [float(n)] on an [int]: the nearest double, or [OverflowError] when
    the int is too large for one. *)
Definition float_of_int (z : Z) : result pyfloat :=
  match round64 (inject_Z z) with
  | PInf | NInf => Raise OverflowError
  | x => Ok x
  end.

(** [float(j)] *)
Definition py_float (j : json) : result pyfloat :=
  match j with
  | JNum (Float x) => Ok x
  | JNum (Int z) => float_of_int z
  | JBool b => Ok (Fin (if b then 1 else 0))
  | JStr s => float_of_string s
  | _ => Raise TypeError
  end.

(** [str(j)] inside an f-string.  A [str] formats as itself; for any
    other object the text is the one Python's own [str] gives, supplied by
    [other] (the built-in is not part of the program). *)
Definition py_str (other : json -> string) (j : json) : string :=
  match j with
  | JStr s => s
  | _ => other j
  end.

(* ================================================================== *)
(** ** Paths, messages, records *)
(* ================================================================== *)

(** A [pathlib.Path], by its text [str(path)]. *)
Definition Path : Type := string.

Fixpoint has_slash (s : string) : bool :=
  match s with
  | EmptyString => false
  | String c rest => (Ascii.eqb c "/" || has_slash rest)%bool
  end.

Fixpoint after_last_slash (s : string) : string :=
  match s with
  | EmptyString => EmptyString
  | String c rest => if has_slash s then after_last_slash rest else s
  end.

(** [path.name]: the final component. *)
Definition path_name (p : Path) : string :=
  if String.eqb p "." then "" else after_last_slash p.

(** [@dataclass EmailConfig] *)
Record EmailConfig : Type := mkEmailConfig {
  smtp_server : string;
  smtp_port : Z;
  from_name : string;
  username : string;
  password : string;
  subject : string;
  recipients : list string
}.

(** The parts the program attaches to a message. *)
Inductive MIMEPart : Type :=
| MIMEText (text : string) (subtype : string)
    (* MIMEText(body, subtype) *)
| MIMEBase_octet_stream (payload : list Byte.byte) (content_disposition : string).
    (* MIMEBase("application", "octet-stream") after set_payload,
       encode_base64 and add_header("Content-Disposition", ...) *)

(** [MIMEMultipart]: headers in the order set, parts in the order
    attached. *)
Record MIMEMultipart : Type := mkMessage {
  headers : list (string * string);
  parts : list MIMEPart
}.

Definition set_header (m : MIMEMultipart) (name value : string) : MIMEMultipart :=
  {| headers := headers m ++ [(name, value)]; parts := parts m |}.

Definition attach (m : MIMEMultipart) (p : MIMEPart) : MIMEMultipart :=
  {| headers := headers m; parts := parts m ++ [p] |}.

(** The dictionaries appended to the four record lists. *)
Record DiskRecord : Type := mkDisk {
  disk_device : json;
  disk_usage_percent : number;
  disk_instance : json;
  disk_mount_point : json;
  disk_size : string;
  disk_free : string;
  disk_used : string
}.

Record CpuRecord : Type := mkCpu {
  cpu_instance : json;
  cpu_usage_percent : pyfloat;
  cpu_core_num : pyfloat
}.

Record MemRecord : Type := mkMem {
  mem_instance : json;
  mem_total : string;
  mem_used : string;
  mem_usage_percent : number
}.

Record NetRecord : Type := mkNet {
  net_instance : json;
  net_download : string;
  net_upload : string
}.

(** The fields of a [PrometheusMetrics] object ([jinja_env] is part of the
    world, below). *)
Record PrometheusMetrics : Type := mkMetrics {
  url : string;
  node_list : list json;
  disk_list : list DiskRecord;
  cpu_list : list CpuRecord;
  mem_list : list MemRecord;
  net_list : list NetRecord
}.

(** [PrometheusMetrics.__init__] *)
Definition PrometheusMetrics__init__ (url : string) : PrometheusMetrics :=
  {| url := url; node_list := []; disk_list := []; cpu_list := [];
     mem_list := []; net_list := [] |}.

(* ================================================================== *)
(** ** The world and the state *)
(* ================================================================== *)

(** What [requests.get] returns: an object on which [raise_for_status()]
    raises or not, and on which [json()] raises or returns a document. *)
Record Response : Type := mkResponse {
  raise_for_status : option exn;
  json_method : result json
}.

(** The arguments of [template.render]. *)
Record Bindings : Type := mkBindings {
  nodes : list json;
  disks : list DiskRecord;
  cpus : list CpuRecord;
  mems : list MemRecord;
  nets : list NetRecord;
  timestamp : string
}.

(** How one step of the SMTP session ends.  The step succeeds; or it
    raises after its command went out (the server refused it, or the
    connection broke); or it raises before anything was sent (smtplib
    refuses on its own: the server offered no STARTTLS or no AUTH, an
    argument is invalid, the connection is already closed). *)
Inductive smtp_answer : Type :=
| Accepted
| Refused (e : exn)
| NotSent (e : exn).

(** Everything outside the program: how each library call answers. *)
Record world : Type := mkWorld {
  (* requests.get(url, params={"query": query}, timeout=10) *)
  requests_get : string -> string -> result Response;
  (* str(x) of an object that is not a str *)
  str_other : json -> string;
  (* MIMEText(body, subtype): the exception it raises, if any *)
  MIMEText_raises : string -> string -> option exn;
  (* smtplib.SMTP(server, port); server.starttls(); server.login(user,
     password); server.sendmail(from, to, text); and leaving the [with]
     block, where __exit__ sends QUIT and raises what it does not swallow *)
  SMTP_connect : string -> Z -> smtp_answer;
  SMTP_starttls : smtp_answer;
  SMTP_login : string -> string -> smtp_answer;
  SMTP_sendmail : string -> list string -> MIMEMultipart -> smtp_answer;
  SMTP_quit : smtp_answer;
  (* datetime.now().strftime('%Y-%m-%d %H:%M:%S') *)
  strftime_now : string;
  (* jinja_env.get_template(name).render(...) *)
  jinja_render : string -> Bindings -> result string;
  (* pandas writing the four sheets: the bytes left in the file, if any,
     and the exception raised, if any *)
  pandas_to_excel : list DiskRecord -> list CpuRecord -> list MemRecord ->
                    list NetRecord -> option (list Byte.byte) * option exn
}.

Inductive fragment : Type :=
| Text (s : string)
| OfExn (e : exn)      (* {e} *)
| OfPath (p : Path).   (* {file_path} *)

Inductive log_level : Type := INFO | ERROR.

(** One call of [logger.info] or [logger.error] with its f-string. *)
Record log_record : Type := mkLog {
  level : log_level;
  message : list fragment
}.

Inductive smtp_command : Type :=
| CONNECT (server : string) (port : Z)
| STARTTLS
| LOGIN (user pass : string)
| SENDMAIL (sender : string) (rcpts : list string) (message : MIMEMultipart)
| QUIT.

Record state : Type := mkState {
  metrics : PrometheusMetrics;          (* self.prometheus_metrics *)
  log : list log_record;                (* what the logger received *)
  files : list (string * result (list Byte.byte));
      (* the file system: what opening and reading each existing path
         yields; a path not listed does not exist *)
  wire : list smtp_command;
      (* what the program's calls put on the connection to the mail
         server, in order; the greetings smtplib exchanges on its own
         (EHLO) are not listed *)
  outbox : list (string * list string * MIMEMultipart)
      (* the messages the server accepted *)
}.

Definition set_metrics (s : state) (m : PrometheusMetrics) : state :=
  {| metrics := m; log := log s; files := files s; wire := wire s;
     outbox := outbox s |}.

Definition add_log (s : state) (r : log_record) : state :=
  {| metrics := metrics s; log := log s ++ [r]; files := files s;
     wire := wire s; outbox := outbox s |}.

Definition set_file (s : state) (p : Path) (content : list Byte.byte) : state :=
  {| metrics := metrics s; log := log s; files := (p, Ok content) :: files s;
     wire := wire s; outbox := outbox s |}.

Definition add_wire (s : state) (c : smtp_command) : state :=
  {| metrics := metrics s; log := log s; files := files s;
     wire := wire s ++ [c]; outbox := outbox s |}.

Definition add_outbox (s : state)
    (m : string * list string * MIMEMultipart) : state :=
  {| metrics := metrics s; log := log s; files := files s;
     wire := wire s; outbox := outbox s ++ [m] |}.

(* ------------------------------------------------------------------ *)
(** *** The monad: state that survives an exception *)

Definition M (A : Type) : Type := state -> result A * state.

Definition ret {A : Type} (a : A) : M A := fun s => (Ok a, s).

Definition bind {A B : Type} (m : M A) (k : A -> M B) : M B :=
  fun s =>
    match m s with
    | (Ok a, s') => k a s'
    | (Raise e, s') => (Raise e, s')
    end.

Definition lift {A : Type} (r : result A) : M A := fun s => (r, s).

(** [try: body except Exception as e: handler] *)
Definition try_except {A : Type} (body : M A) (handler : exn -> M A) : M A :=
  fun s =>
    match body s with
    | (Ok a, s') => (Ok a, s')
    | (Raise e, s') => handler e s'
    end.

Definition modify (f : state -> state) : M unit := fun s => (Ok tt, f s).

Declare Scope monad_scope.
Delimit Scope monad_scope with monad.
Notation "x <- c ;; k" := (bind c (fun x => k))
  (at level 61, c at next level, right associativity) : monad_scope.
Notation "c ;; k" := (bind c (fun _ => k))
  (at level 61, right associativity) : monad_scope.
Notation "' pat <- c ;; k" := (bind c (fun x => match x with pat => k end))
  (at level 61, pat pattern, c at next level, right associativity) : monad_scope.
Local Open Scope monad_scope.

(** [for x in items: body] *)
Fixpoint for_each {X : Type} (items : list X) (body : X -> M unit) : M unit :=
  match items with
  | [] => ret tt
  | x :: rest => body x ;; for_each rest body
  end.

(** The same sequencing for computations without effects. *)
Definition rbind {A B : Type} (r : result A) (k : A -> result B) : result B :=
  match r with
  | Ok a => k a
  | Raise e => Raise e
  end.

(** [[f(x) for x in items]] *)
Fixpoint comprehension {X Y : Type} (f : X -> result Y) (items : list X)
  : result (list Y) :=
  match items with
  | [] => Ok []
  | x :: rest =>
      rbind (f x) (fun y =>
      rbind (comprehension f rest) (fun ys => Ok (y :: ys)))
  end.

Definition logger_error (msg : list fragment) : M unit :=
  modify (fun s => add_log s {| level := ERROR; message := msg |}).

Definition logger_info (msg : list fragment) : M unit :=
  modify (fun s => add_log s {| level := INFO; message := msg |}).

(* ================================================================== *)
(** ** The program *)
(* ================================================================== *)

Section Program.

Variable w : world.

(* ------------------------------------------------------------------ *)
(** *** [class EmailSender] *)

Section EmailSender.

Variable config : EmailConfig.   (* self.config *)

Definition _create_message (subject body : string) (html : bool)
  : M MIMEMultipart :=
  let message := {| headers := []; parts := [] |} in
  let message :=
    set_header message "From"
      (from_name config ++ " <" ++ username config ++ ">") in
  let message :=
    set_header message "To" (String.concat ", " (recipients config)) in
  let message := set_header message "Subject" subject in
  let content_type := if html then "html" else "plain" in
  match MIMEText_raises w body content_type with
  | Some e => lift (Raise e)
  | None => ret (attach message (MIMEText body content_type))
  end.

(** [open(file_path, "rb")] followed by [f.read()]. *)
Definition read_bytes (file_path : Path) : M (list Byte.byte) :=
  fun s =>
    match assoc file_path (files s) with
    | Some r => (r, s)
    | None => (Raise (OtherException "FileNotFoundError"), s)
    end.

(** The body of the loop of [_add_attachments]: one [try] per path.  The
    message is a mutable object in the source; here each step returns the
    message as it stands afterwards. *)
Definition attach_file (message : MIMEMultipart) (file_path : Path)
  : M MIMEMultipart :=
  try_except
    (payload <- read_bytes file_path ;;
     let part :=
       MIMEBase_octet_stream payload
         ("attachment; filename=" ++ path_name file_path) in
     ret (attach message part))
    (fun e =>
       logger_error [Text "Error attaching file "; OfPath file_path;
                     Text ": "; OfExn e] ;;
       ret message).

Fixpoint attach_files (message : MIMEMultipart) (attachments : list Path)
  : M MIMEMultipart :=
  match attachments with
  | [] => ret message
  | file_path :: rest =>
      message' <- attach_file message file_path ;;
      attach_files message' rest
  end.

Definition _add_attachments (message : MIMEMultipart)
    (attachments : option (list Path)) : M MIMEMultipart :=
  match attachments with
  | None | Some [] => ret message          (* if not attachments: return *)
  | Some l => attach_files message l
  end.

(** One step of the SMTP session: its command goes on the wire unless the
    library raises before sending it, and the step raises when the world
    says so. *)
Definition smtp (c : smtp_command) (answer : smtp_answer) : M unit :=
  fun s =>
    match answer with
    | Accepted => (Ok tt, add_wire s c)
    | Refused e => (Raise e, add_wire s c)
    | NotSent e => (Raise e, s)
    end.

(** [with smtplib.SMTP(server, port) as server: body].  The constructor
    connects; when it raises, nothing else runs.  Otherwise [__exit__]
    runs (it sends QUIT) whether the body raised or not, and an exception
    of [__exit__] replaces the body's. *)
Definition with_SMTP {A : Type} (server : string) (port : Z) (body : M A)
  : M A :=
  smtp (CONNECT server port) (SMTP_connect w server port) ;;
  fun s =>
    let '(r, s1) := body s in
    match smtp QUIT (SMTP_quit w) s1 with
    | (Ok _, s2) => (r, s2)
    | (Raise e, s2) => (Raise e, s2)
    end.

(** [server.sendmail(from, to, message.as_string())]; a message the server
    accepts is in the outbox. *)
Definition sendmail (sender : string) (rcpts : list string)
    (message : MIMEMultipart) : M unit :=
  smtp (SENDMAIL sender rcpts message) (SMTP_sendmail w sender rcpts message) ;;
  modify (fun s => add_outbox s (sender, rcpts, message)).

Definition _send_message (message : MIMEMultipart) : M bool :=
  try_except
    (with_SMTP (smtp_server config) (smtp_port config)
       (smtp STARTTLS (SMTP_starttls w) ;;
        smtp (LOGIN (username config) (password config))
             (SMTP_login w (username config) (password config)) ;;
        sendmail (username config) (recipients config) message) ;;
     logger_info [Text "Email sent successfully!"] ;;
     ret true)
    (fun e =>
       logger_error [Text "Error sending email: "; OfExn e] ;;
       ret false).

Definition send (subject body : string) (html : bool)
    (attachments : option (list Path)) : M bool :=
  try_except
    (message <- _create_message subject body html ;;
     message <- _add_attachments message attachments ;;
     _send_message message)
    (fun e =>
       logger_error [Text "Failed to send email: "; OfExn e] ;;
       ret false).

End EmailSender.

(* ------------------------------------------------------------------ *)
(** *** [class PrometheusMetrics] *)

(** The double quote of the PromQL literals. *)
Definition dq : string := String "034"%char EmptyString.
Definition quoted (s : string) : string := dq ++ s ++ dq.

Definition self_metrics : M PrometheusMetrics :=
  fun s => (Ok (metrics s), s).

Definition update_metrics (f : PrometheusMetrics -> PrometheusMetrics)
  : M unit :=
  modify (fun s => set_metrics s (f (metrics s))).

(** [{"data": {"result": []}}] *)
Definition empty_result : json :=
  JObj [("data", JObj [("result", JArr [])])].

Definition _query_prometheus (query : string) : M json :=
  try_except
    (self <- self_metrics ;;
     response <- lift (requests_get w (url self) query) ;;
     match raise_for_status response with
     | Some e => lift (Raise e)
     | None => lift (json_method response)
     end)
    (fun e =>
       logger_error [Text "Failed to query Prometheus: "; OfExn e] ;;
       ret empty_result).

(** [j["data"]["result"]] *)
Definition data_result (j : json) : result json :=
  rbind (getitem j "data") (fun d => getitem d "result").

(** [node["metric"][label]] *)
Definition metric_label (node : json) (label : string) : result json :=
  rbind (getitem node "metric") (fun m => getitem m label).

(** [float(sample["value"][1])] *)
Definition sample_value (sample : json) : result pyfloat :=
  rbind (getitem sample "value") (fun v =>
  rbind (getitem_int v 1) py_float).

(** [zip(a["data"]["result"], b["data"]["result"])]: both arguments are
    evaluated, then both are asked for an iterator, then the pairs are
    drawn from two lists that nothing modifies meanwhile. *)
Definition zip_results (a b : json) : result (list (json * json)) :=
  rbind (data_result a) (fun ra =>
  rbind (data_result b) (fun rb =>
  rbind (py_iter ra) (fun la =>
  rbind (py_iter rb) (fun lb =>
  Ok (combine la lb))))).

Definition node_query : string :=
  "node_uname_info{vendor=~" ++ quoted "" ++ ",account=~" ++ quoted ""
  ++ ",group=~" ++ quoted "()" ++ ",name=~" ++ quoted "()"
  ++ ",name=~" ++ quoted ".*.*" ++ "} - 0".

Definition get_node_metrics : M unit :=
  let query := node_query in
  result <- _query_prometheus query ;;
  new_list <- lift (rbind (data_result result) (fun r =>
                    rbind (py_iter r) (fun items =>
                    comprehension (fun node => metric_label node "instance")
                                  items))) ;;
  update_metrics (fun self =>
    {| url := url self; node_list := new_list; disk_list := disk_list self;
       cpu_list := cpu_list self; mem_list := mem_list self;
       net_list := net_list self |}).

Definition disk_list_append (r : DiskRecord) : M unit :=
  update_metrics (fun self =>
    {| url := url self; node_list := node_list self;
       disk_list := disk_list self ++ [r];
       cpu_list := cpu_list self; mem_list := mem_list self;
       net_list := net_list self |}).

Definition cpu_list_append (r : CpuRecord) : M unit :=
  update_metrics (fun self =>
    {| url := url self; node_list := node_list self;
       disk_list := disk_list self;
       cpu_list := cpu_list self ++ [r]; mem_list := mem_list self;
       net_list := net_list self |}).

Definition mem_list_append (r : MemRecord) : M unit :=
  update_metrics (fun self =>
    {| url := url self; node_list := node_list self;
       disk_list := disk_list self;
       cpu_list := cpu_list self; mem_list := mem_list self ++ [r];
       net_list := net_list self |}).

Definition net_list_append (r : NetRecord) : M unit :=
  update_metrics (fun self =>
    {| url := url self; node_list := node_list self;
       disk_list := disk_list self;
       cpu_list := cpu_list self; mem_list := mem_list self;
       net_list := net_list self ++ [r] |}).

(** [(used / total * 100) if total > 0 else 0]: a float, or the int
    [0]. *)
Definition percent_expr (used_value total_value : pyfloat) : result number :=
  if fgt total_value f0
  then rbind (py_truediv used_value total_value)
             (fun q => Ok (Float (fmul q f100)))
  else Ok (Int 0).

(** The dictionary built in the loop of [get_disk_metrics], its values
    evaluated in the order written. *)
Definition disk_record (instance size free : json) : result DiskRecord :=
  rbind (sample_value size) (fun size_value =>
  rbind (sample_value free) (fun free_value =>
  let used_value := fsub size_value free_value in
  rbind (percent_expr used_value size_value) (fun usage_percent =>
  rbind (metric_label size "device") (fun device =>
  rbind (metric_label size "mountpoint") (fun mountpoint =>
  Ok {| disk_device := device;
        disk_usage_percent := usage_percent;
        disk_instance := instance;
        disk_mount_point := mountpoint;
        disk_size := _format_bytes size_value;
        disk_free := _format_bytes free_value;
        disk_used := _format_bytes used_value |}))))).

Definition disk_query (metric : string) (instance : json) : string :=
  metric ++ "{instance=~" ++ quoted (py_str (str_other w) instance)
  ++ ",fstype=~" ++ quoted "ext.*|xfs|nfs"
  ++ ",mountpoint !~" ++ quoted ".*pod.*" ++ "}".

Definition get_disk_metrics (instance : json) : M unit :=
  let query_size := disk_query "node_filesystem_size_bytes" instance in
  let query_free := disk_query "node_filesystem_free_bytes" instance in
  result_size <- _query_prometheus query_size ;;
  result_free <- _query_prometheus query_free ;;
  pairs <- lift (zip_results result_size result_free) ;;
  for_each pairs (fun '(size, free) =>
    r <- lift (disk_record instance size free) ;;
    disk_list_append r).

Definition cpu_record (instance usage_percent core_num : json)
  : result CpuRecord :=
  rbind (sample_value usage_percent) (fun usage_value =>
  rbind (sample_value core_num) (fun core_num_value =>
  Ok {| cpu_instance := instance;
        cpu_usage_percent := usage_value;
        cpu_core_num := core_num_value |})).

Definition cpu_usage_query (instance : json) : string :=
  "(1 - avg(irate(node_cpu_seconds_total{instance=~"
  ++ quoted (py_str (str_other w) instance) ++ ",mode=~" ++ quoted "idle"
  ++ "}[3m])) by (instance)) * 100".

Definition cpu_core_query (instance : json) : string :=
  "count(node_cpu_seconds_total{instance=~"
  ++ quoted (py_str (str_other w) instance) ++ ",mode=" ++ quoted "system"
  ++ "}) by (instance)".

Definition get_cpu_metrics (instance : json) : M unit :=
  let query_usage_percent := cpu_usage_query instance in
  let query_core_num := cpu_core_query instance in
  result_usage_percent <- _query_prometheus query_usage_percent ;;
  result_core_num <- _query_prometheus query_core_num ;;
  pairs <- lift (zip_results result_usage_percent result_core_num) ;;
  for_each pairs (fun '(usage_percent, core_num) =>
    r <- lift (cpu_record instance usage_percent core_num) ;;
    cpu_list_append r).

Definition mem_record (instance total avail : json) : result MemRecord :=
  rbind (sample_value total) (fun total_value =>
  rbind (sample_value avail) (fun avail_value =>
  let used_value := fsub total_value avail_value in
  rbind (percent_expr used_value total_value) (fun usage_percent =>
  Ok {| mem_instance := instance;
        mem_total := _format_bytes total_value;
        mem_used := _format_bytes used_value;
        mem_usage_percent := usage_percent |}))).

Definition mem_query (metric : string) (instance : json) : string :=
  metric ++ "{instance=~" ++ quoted (py_str (str_other w) instance) ++ "}".

Definition get_mem_metrics (instance : json) : M unit :=
  let query_total := mem_query "node_memory_MemTotal_bytes" instance in
  let query_avail := mem_query "node_memory_MemAvailable_bytes" instance in
  result_total <- _query_prometheus query_total ;;
  result_avail <- _query_prometheus query_avail ;;
  pairs <- lift (zip_results result_total result_avail) ;;
  for_each pairs (fun '(total, avail) =>
    r <- lift (mem_record instance total avail) ;;
    mem_list_append r).

Definition net_record (instance rx tx : json) : result NetRecord :=
  rbind (sample_value rx) (fun rx_value =>
  rbind (sample_value tx) (fun tx_value =>
  Ok {| net_instance := instance;
        net_download := _format_bits_per_second rx_value;
        net_upload := _format_bits_per_second tx_value |})).

Definition net_query (metric : string) (instance : json) : string :=
  "max(irate(" ++ metric ++ "{instance=~"
  ++ quoted (py_str (str_other w) instance)
  ++ ",device=~" ++ quoted "eth.*|ens.*" ++ "}[3m])*8) by (instance)".

Definition get_net_metrics (instance : json) : M unit :=
  let query_rx := net_query "node_network_receive_bytes_total" instance in
  let query_tx := net_query "node_network_transmit_bytes_total" instance in
  result_rx <- _query_prometheus query_rx ;;
  result_tx <- _query_prometheus query_tx ;;
  pairs <- lift (zip_results result_rx result_tx) ;;
  for_each pairs (fun '(rx, tx) =>
    r <- lift (net_record instance rx tx) ;;
    net_list_append r).

Definition generate_html_report : M string :=
  self <- self_metrics ;;
  lift (jinja_render w "prometheus_report_zh.html"
          {| nodes := node_list self;
             disks := disk_list self;
             cpus := cpu_list self;
             mems := mem_list self;
             nets := net_list self;
             timestamp := strftime_now w |}).

Definition generate_excel_report (file_path : Path) : M unit :=
  self <- self_metrics ;;
  let '(written, raised) :=
    pandas_to_excel w (disk_list self) (cpu_list self) (mem_list self)
                    (net_list self) in
  match written with
  | Some content => modify (fun s => set_file s file_path content)
  | None => ret tt
  end ;;
  match raised with
  | Some e => lift (Raise e)
  | None =>
      logger_info [Text "Excel report generated successfully at ";
                   OfPath file_path]
  end.

(* ------------------------------------------------------------------ *)
(** *** [class PrometheusNotice] *)

(** The body of the loop of [run]. *)
Definition collect_node (node : json) : M unit :=
  get_disk_metrics node ;;
  get_cpu_metrics node ;;
  get_mem_metrics node ;;
  get_net_metrics node.

(** [self.email_sender.config] is [config]; [self.prometheus_metrics] is
    the [metrics] field of the state.  The loop runs over [node_list] as
    discovery left it: no collector assigns or mutates that list. *)
Definition run (config : EmailConfig) : M unit :=
  try_except
    (get_node_metrics ;;
     self <- self_metrics ;;
     for_each (node_list self) collect_node ;;
     let excel_report_path : Path := "report.xlsx" in
     generate_excel_report excel_report_path ;;
     html_report <- generate_html_report ;;
     _ <- send config (subject config) html_report true
            (Some [excel_report_path]) ;;
     ret tt)
    (fun e => logger_error [Text "Failed to run monitoring: "; OfExn e]).

End Program.

(* ================================================================== *)
(** ** Definitions used to state the properties *)
(* ================================================================== *)

Definition result_of (e : option exn) : result unit :=
  match e with
  | None => Ok tt
  | Some e => Raise e
  end.

(** The body of the [try] of [_query_prometheus]: what the three calls
    [requests.get], [raise_for_status] and [json] produce together. *)
Definition request_outcome (w : world) (u query : string) : result json :=
  rbind (requests_get w u query) (fun response =>
  match raise_for_status response with
  | Some e => Raise e
  | None => json_method response
  end).

Definition query_value (w : world) (u query : string) : json :=
  match request_outcome w u query with
  | Ok j => j
  | Raise _ => empty_result
  end.

Definition query_log (w : world) (u query : string) : list log_record :=
  match request_outcome w u query with
  | Ok _ => []
  | Raise e =>
      [{| level := ERROR;
          message := [Text "Failed to query Prometheus: "; OfExn e] |}]
  end.

Definition add_logs (s : state) (l : list log_record) : state :=
  {| metrics := metrics s; log := log s ++ l; files := files s;
     wire := wire s; outbox := outbox s |}.

(** The records a loop builds from the zipped pairs, up to the first pair
    on which the loop body raises, and that exception. *)
Fixpoint built {R : Type} (mk : json -> json -> result R)
    (pairs : list (json * json)) : list R * option exn :=
  match pairs with
  | [] => ([], None)
  | (a, b) :: rest =>
      match mk a b with
      | Raise e => ([], Some e)
      | Ok r => let '(rs, e) := built mk rest in (r :: rs, e)
      end
  end.

(** The records one collector call adds, and the exception it ends with. *)
Definition collected {R : Type} (w : world) (u q1 q2 : string)
    (mk : json -> json -> result R) : list R * option exn :=
  match zip_results (query_value w u q1) (query_value w u q2) with
  | Raise e => ([], Some e)
  | Ok pairs => built mk pairs
  end.

(** The shape the four collectors share: two queries, a zip, a loop that
    builds one record per pair and appends it. *)
Definition collect {R : Type} (w : world) (q1 q2 : string)
    (mk : json -> json -> result R) (append : R -> M unit) : M unit :=
  result1 <- _query_prometheus w q1 ;;
  result2 <- _query_prometheus w q2 ;;
  pairs <- lift (zip_results result1 result2) ;;
  for_each pairs (fun '(a, b) => r <- lift (mk a b) ;; append r).

Definition append_with {R : Type}
    (extend : PrometheusMetrics -> list R -> PrometheusMetrics) (r : R)
  : M unit :=
  update_metrics (fun self => extend self [r]).

Definition extend_disk (m : PrometheusMetrics) (l : list DiskRecord) :=
  {| url := url m; node_list := node_list m; disk_list := disk_list m ++ l;
     cpu_list := cpu_list m; mem_list := mem_list m; net_list := net_list m |}.

Definition extend_cpu (m : PrometheusMetrics) (l : list CpuRecord) :=
  {| url := url m; node_list := node_list m; disk_list := disk_list m;
     cpu_list := cpu_list m ++ l; mem_list := mem_list m;
     net_list := net_list m |}.

Definition extend_mem (m : PrometheusMetrics) (l : list MemRecord) :=
  {| url := url m; node_list := node_list m; disk_list := disk_list m;
     cpu_list := cpu_list m; mem_list := mem_list m ++ l;
     net_list := net_list m |}.

Definition extend_net (m : PrometheusMetrics) (l : list NetRecord) :=
  {| url := url m; node_list := node_list m; disk_list := disk_list m;
     cpu_list := cpu_list m; mem_list := mem_list m;
     net_list := net_list m ++ l |}.


Definition set_node_list (m : PrometheusMetrics) (l : list json) :=
  {| url := url m; node_list := l; disk_list := disk_list m;
     cpu_list := cpu_list m; mem_list := mem_list m; net_list := net_list m |}.

(** The instance labels node discovery extracts, in the order returned. *)
Definition discovered (w : world) (u : string) : result (list json) :=
  rbind (data_result (query_value w u node_query)) (fun r =>
  rbind (py_iter r) (fun items =>
  comprehension (fun node => metric_label node "instance") items)).

(** [l'] is [l] with entries added at the end: nothing removed, nothing
    overwritten. *)
Definition extends {A : Type} (l l' : list A) : Prop :=
  exists added, l' = (l ++ added)%list.

(** The four record lists only grew. *)
Definition grows (s s' : state) : Prop :=
  extends (disk_list (metrics s)) (disk_list (metrics s')) /\
  extends (cpu_list (metrics s)) (cpu_list (metrics s')) /\
  extends (mem_list (metrics s)) (mem_list (metrics s')) /\
  extends (net_list (metrics s)) (net_list (metrics s')).

(** Nothing went to the mail server and no message was accepted. *)
Definition no_smtp (s s' : state) : Prop :=
  wire s' = wire s /\ outbox s' = outbox s.

(** A computation whose final state is always related to its initial
    state, whether it returns or raises. *)
Definition keeps (P : state -> state -> Prop) {A : Type} (m : M A) : Prop :=
  forall s, P s (snd (m s)).

(** The four answers of the backend for one node. *)
Definition node_disk (w : world) (u : string) (node : json) :=
  collected w u (disk_query w "node_filesystem_size_bytes" node)
            (disk_query w "node_filesystem_free_bytes" node)
            (disk_record node).
Definition node_cpu (w : world) (u : string) (node : json) :=
  collected w u (cpu_usage_query w node) (cpu_core_query w node)
            (cpu_record node).
Definition node_mem (w : world) (u : string) (node : json) :=
  collected w u (mem_query w "node_memory_MemTotal_bytes" node)
            (mem_query w "node_memory_MemAvailable_bytes" node)
            (mem_record node).
Definition node_net (w : world) (u : string) (node : json) :=
  collected w u (net_query w "node_network_receive_bytes_total" node)
            (net_query w "node_network_transmit_bytes_total" node)
            (net_record node).


(* ================================================================== *)
(** ** Concrete worlds for the examples *)
(* ================================================================== *)

(** A sample as the backend returns it: a label set and
    [[timestamp, "value"]]. *)
Definition sample (labels : list (string * string)) (value : string) : json :=
  JObj [("metric", JObj (map (fun kv => (fst kv, JStr (snd kv))) labels));
        ("value", JArr [JNum (Float (Fin 1700000000)); JStr value])].

(** A conforming body around a list of samples. *)
Definition body_of (samples : list json) : json :=
  JObj [("status", JStr "success");
        ("data", JObj [("resultType", JStr "vector");
                       ("result", JArr samples)])].

(** A response with a success status whose body decodes to [j]. *)
Definition responds (j : json) : result Response :=
  Ok {| raise_for_status := None; json_method := Ok j |}.

(** A world given by a table from query text to answer; a query not in
    the table gets a conforming body without samples.  Every other library
    call succeeds. *)
Definition world_of (table : list (string * result Response)) : world :=
  {| requests_get := fun _ query =>
       match assoc query table with
       | Some r => r
       | None => responds (body_of [])
       end;
     str_other := fun _ => "<object>";
     MIMEText_raises := fun _ _ => None;
     SMTP_connect := fun _ _ => Accepted;
     SMTP_starttls := Accepted;
     SMTP_login := fun _ _ => Accepted;
     SMTP_sendmail := fun _ _ _ => Accepted;
     SMTP_quit := Accepted;
     strftime_now := "2024-11-11 12:31:00";
     jinja_render := fun _ _ => Ok "<html></html>";
     pandas_to_excel := fun _ _ _ _ => (Some [], None) |}.

Definition quiet_world : world := world_of [].

Definition node_a : json := JStr "node-a".

Definition demo_table : list (string * result Response) :=
  [ (node_query, responds (body_of [sample [("instance", "node-a")] "1"]));
    (disk_query quiet_world "node_filesystem_size_bytes" node_a,
     responds (body_of
       [sample [("device", "/dev/sda1"); ("mountpoint", "/")] "107374182400";
        sample [("device", "/dev/sdb1"); ("mountpoint", "/data")] "0"]));
    (disk_query quiet_world "node_filesystem_free_bytes" node_a,
     responds (body_of
       [sample [("device", "/dev/sda1"); ("mountpoint", "/")] "53687091200";
        sample [("device", "/dev/sdb1"); ("mountpoint", "/data")] "0";
        sample [("device", "/dev/sdc1"); ("mountpoint", "/extra")] "1"]));
    (cpu_usage_query quiet_world node_a,
     responds (body_of [sample [("instance", "node-a")] "12.5"]));
    (cpu_core_query quiet_world node_a,
     responds (body_of [sample [("instance", "node-a")] "8"]));
    (mem_query quiet_world "node_memory_MemTotal_bytes" node_a,
     responds (body_of [sample [("instance", "node-a")] "8589934592"]));
    (mem_query quiet_world "node_memory_MemAvailable_bytes" node_a,
     responds (body_of [sample [("instance", "node-a")] "2147483648"]));
    (net_query quiet_world "node_network_receive_bytes_total" node_a,
     responds (body_of [sample [("instance", "node-a")] "1500000"]));
    (net_query quiet_world "node_network_transmit_bytes_total" node_a,
     responds (body_of [sample [("instance", "node-a")] "999"])) ].

Definition demo_world : world := world_of demo_table.

Definition demo_url : string := "http://prometheus:9090/api/v1/query".

(** The state right after the objects are constructed. *)
Definition initial_state (fs : list (string * result (list Byte.byte)))
  : state :=
  {| metrics := PrometheusMetrics__init__ demo_url; log := [];
     files := fs; wire := []; outbox := [] |}.

Definition demo_config : EmailConfig :=
  {| smtp_server := "smtp.example.org"; smtp_port := 587;
     from_name := "Monitor"; username := "monitor@example.org";
     password := "secret"; subject := "Daily report";
     recipients := ["ops@example.org"; "dev@example.org"] |}.

(* ------------------------------------------------------------------ *)
(** *** Failed requests and conforming bodies *)

(** The request fails with [e]: [requests.get] raises (connection error,
    timeout), or [raise_for_status] raises (error status), or [json()]
    raises (the body does not decode). *)
Inductive request_fails (w : world) (u query : string) : exn -> Prop :=
| get_raises e :
    requests_get w u query = Raise e ->
    request_fails w u query e
| status_raises r e :
    requests_get w u query = Ok r ->
    raise_for_status r = Some e ->
    request_fails w u query e
| json_raises r e :
    requests_get w u query = Ok r ->
    raise_for_status r = None ->
    json_method r = Raise e ->
    request_fails w u query e.

(** One of the two requests of a collector fails. *)
Definition either_fails (w : world) (u q1 q2 : string) : Prop :=
  (exists e, request_fails w u q1 e) \/ (exists e, request_fails w u q2 e).

(** The request succeeds with the decoded body [j]. *)
Definition request_returns (w : world) (u query : string) (j : json) : Prop :=
  exists r,
    requests_get w u query = Ok r /\
    raise_for_status r = None /\
    json_method r = Ok j.

(** The body shape the collectors index into:
    [{"data": {"result": [{"metric": {...}, "value": [t, "v"]}, ...]}}]. *)
Definition is_sample (j : json) : bool :=
  match getitem j "metric", getitem j "value" with
  | Ok (JObj _), Ok (JArr [_; JStr _]) => true
  | _, _ => false
  end.

Definition conforming (j : json) : bool :=
  match data_result j with
  | Ok (JArr items) => forallb is_sample items
  | _ => false
  end.

(** The body of another endpoint of the same backend (label names): it
    decodes, with a success status, and is not a query result. *)
Definition labels_body : json :=
  JObj [("status", JStr "success");
        ("data", JArr [JStr "__name__"; JStr "instance"; JStr "job"])].

Definition labels_world : world :=
  world_of [(node_query, responds labels_body)].

(** A backend that refuses the connection for the size query of node-a
    and answers every other query as [demo_world] does. *)
Definition refusing_world : world :=
  world_of
    ((disk_query quiet_world "node_filesystem_size_bytes" node_a,
      Raise (OtherException "ConnectionError")) :: demo_table).

Definition query_error (e : exn) : log_record :=
  {| level := ERROR;
     message := [Text "Failed to query Prometheus: "; OfExn e] |}.

(* ------------------------------------------------------------------ *)
(** *** Usage percent *)

(** The value the conditional expression of the disk and memory
    collectors denotes for a capacity [total] and a free amount [free]. *)
Definition percent_of (total free : pyfloat) : number :=
  if fgt total f0
  then Float (fmul (fdiv (fsub total free) total) f100)
  else Int 0.

(** [n] lies in the interval [[0, 100]]. *)
Definition in_0_100 (n : number) : Prop :=
  match n with
  | Int z => (0 <= z <= 100)%Z
  | Float x => fle f0 x /\ fle x f100
  end.

(** A pair of samples from which the loop of [get_disk_metrics] can build
    a record: both values convert to floats, and the size sample carries
    the two labels. *)
Definition disk_pair_ok (size free : json) : Prop :=
  (exists v, sample_value size = Ok v) /\
  (exists v, sample_value free = Ok v) /\
  (exists d, metric_label size "device" = Ok d) /\
  (exists m, metric_label size "mountpoint" = Ok m).


(** A backend that returns the free-space samples in another order than
    the size samples, and one more of them. *)
Definition shuffled_sizes : list json :=
  [sample [("device", "/dev/sda1"); ("mountpoint", "/")] "100";
   sample [("device", "/dev/sdb1"); ("mountpoint", "/data")] "200"].

Definition shuffled_frees : list json :=
  [sample [("device", "/dev/sdb1"); ("mountpoint", "/data")] "150";
   sample [("device", "/dev/sda1"); ("mountpoint", "/")] "50";
   sample [("device", "/dev/sdc1"); ("mountpoint", "/extra")] "1"].

Definition shuffled_world : world :=
  world_of
    [ (disk_query quiet_world "node_filesystem_size_bytes" node_a,
       responds (body_of shuffled_sizes));
      (disk_query quiet_world "node_filesystem_free_bytes" node_a,
       responds (body_of shuffled_frees)) ].

(** Pairs of samples from which the loops of the CPU, memory and network
    collectors can build a record: both values convert to floats. *)
Definition value_pair_ok (a b : json) : Prop :=
  (exists v, sample_value a = Ok v) /\ (exists v, sample_value b = Ok v).

(** The body of the query decodes to [body], whose [data.result] is the
    list [samples]. *)
Definition returns_samples (w : world) (u query : string)
    (samples : list json) : Prop :=
  exists body,
    request_returns w u query body /\ data_result body = Ok (JArr samples).

(** A backend that reports a file system and a memory of infinite
    size. *)
Definition infinite_world : world :=
  world_of
    [ (disk_query quiet_world "node_filesystem_size_bytes" node_a,
       responds (body_of
         [sample [("device", "/dev/sda1"); ("mountpoint", "/")] "+Inf"]));
      (disk_query quiet_world "node_filesystem_free_bytes" node_a,
       responds (body_of
         [sample [("device", "/dev/sda1"); ("mountpoint", "/")] "5"]));
      (mem_query quiet_world "node_memory_MemTotal_bytes" node_a,
       responds (body_of [sample [("instance", "node-a")] "+Inf"]));
      (mem_query quiet_world "node_memory_MemAvailable_bytes" node_a,
       responds (body_of [sample [("instance", "node-a")] "5"])) ].

(** A backend whose second size sample lacks the [value] field. *)
Definition half_broken_sizes : list json :=
  [sample [("device", "/dev/sda1"); ("mountpoint", "/")] "100";
   JObj [("metric", JObj [("device", JStr "/dev/sdb1");
                          ("mountpoint", JStr "/data")])];
   sample [("device", "/dev/sdc1"); ("mountpoint", "/x")] "300"].

Definition half_broken_frees : list json :=
  [sample [("device", "/dev/sda1"); ("mountpoint", "/")] "40";
   sample [("device", "/dev/sdb1"); ("mountpoint", "/data")] "50";
   sample [("device", "/dev/sdc1"); ("mountpoint", "/x")] "60"].

Definition half_broken_table : list (string * result Response) :=
  [ (disk_query quiet_world "node_filesystem_size_bytes" node_a,
     responds (body_of half_broken_sizes));
    (disk_query quiet_world "node_filesystem_free_bytes" node_a,
     responds (body_of half_broken_frees)) ].

Definition half_broken_world : world := world_of half_broken_table.

(** A backend whose answers for node-a differ in length and in labels
    between the two queries of each collector. *)
Definition uneven_totals : list json :=
  [sample [("instance", "node-a"); ("numa", "0")] "3";
   sample [("instance", "node-a"); ("numa", "1")] "8589934592"].

Definition uneven_avails : list json :=
  [sample [("instance", "node-a"); ("numa", "1")] "1";
   sample [("instance", "node-a"); ("numa", "0")] "2147483648";
   sample [("instance", "node-a"); ("numa", "2")] "7"].

Definition uneven_usages : list json :=
  [sample [("instance", "node-a"); ("cpu", "0")] "12.5";
   sample [("instance", "node-a"); ("cpu", "1")] "150";
   sample [("instance", "node-a"); ("cpu", "2")] "0.1"].

Definition uneven_cores : list json :=
  [sample [("instance", "node-a"); ("cpu", "1")] "8";
   sample [("instance", "node-a"); ("cpu", "0")] "4"].

Definition uneven_rxs : list json :=
  [sample [("instance", "node-a"); ("device", "eth0")] "1015";
   sample [("instance", "node-a"); ("device", "eth1")] "1500000";
   sample [("instance", "node-a"); ("device", "ens3")] "0"].

Definition uneven_txs : list json :=
  [sample [("instance", "node-a"); ("device", "eth1")] "999";
   sample [("instance", "node-a"); ("device", "eth0")] "2675"].

Definition uneven_world : world :=
  world_of
    [ (disk_query quiet_world "node_filesystem_size_bytes" node_a,
       responds (body_of shuffled_sizes));
      (disk_query quiet_world "node_filesystem_free_bytes" node_a,
       responds (body_of shuffled_frees));
      (cpu_usage_query quiet_world node_a, responds (body_of uneven_usages));
      (cpu_core_query quiet_world node_a, responds (body_of uneven_cores));
      (mem_query quiet_world "node_memory_MemTotal_bytes" node_a,
       responds (body_of uneven_totals));
      (mem_query quiet_world "node_memory_MemAvailable_bytes" node_a,
       responds (body_of uneven_avails));
      (net_query quiet_world "node_network_receive_bytes_total" node_a,
       responds (body_of uneven_rxs));
      (net_query quiet_world "node_network_transmit_bytes_total" node_a,
       responds (body_of uneven_txs)) ].


(* ------------------------------------------------------------------ *)
(** *** Formatting *)

Definition byte_units : list string := ["B"; "KB"; "MB"; "GB"; "TB"].
Definition bit_units : list string := ["bps"; "Kbps"; "Mbps"; "Gbps"].

(** The loop variable after [k] divisions by [base]. *)
Fixpoint scaled (base : pyfloat) (k : nat) (x : pyfloat) : pyfloat :=
  match k with
  | O => x
  | S k' => scaled base k' (fdiv x base)
  end.

(** [base] to the power [k]. *)
Fixpoint threshold (base : Q) (k : nat) : Q :=
  match k with
  | O => 1
  | S k' => base * threshold base k'
  end.

(* ------------------------------------------------------------------ *)
(** *** Messages and sessions *)

Definition content_type_of (html : bool) : string :=
  if html then "html" else "plain".

(** The message [_create_message] returns when [MIMEText] does not
    raise. *)
Definition text_message (config : EmailConfig) (subject body : string)
    (html : bool) : MIMEMultipart :=
  {| headers :=
       [("From", from_name config ++ " <" ++ username config ++ ">");
        ("To", String.concat ", " (recipients config));
        ("Subject", subject)];
     parts := [MIMEText body (content_type_of html)] |}.

Definition paths_of (attachments : option (list Path)) : list Path :=
  match attachments with
  | None => []
  | Some l => l
  end.

(** What opening and reading [p] yields in the file system [fs]. *)
Definition read_result (fs : list (string * result (list Byte.byte)))
    (p : Path) : result (list Byte.byte) :=
  match assoc p fs with
  | Some r => r
  | None => Raise (OtherException "FileNotFoundError")
  end.

Definition attachment_part (p : Path) (payload : list Byte.byte) : MIMEPart :=
  MIMEBase_octet_stream payload ("attachment; filename=" ++ path_name p).

Definition attachment_error (p : Path) (e : exn) : log_record :=
  {| level := ERROR;
     message := [Text "Error attaching file "; OfPath p; Text ": "; OfExn e] |}.

(** The parts of the paths that can be read, in order. *)
Fixpoint readable_parts (fs : list (string * result (list Byte.byte)))
    (paths : list Path) : list MIMEPart :=
  match paths with
  | [] => []
  | p :: rest =>
      match read_result fs p with
      | Ok payload => attachment_part p payload :: readable_parts fs rest
      | Raise _ => readable_parts fs rest
      end
  end.

(** One error record per path that cannot be read, in order. *)
Fixpoint attachment_errors (fs : list (string * result (list Byte.byte)))
    (paths : list Path) : list log_record :=
  match paths with
  | [] => []
  | p :: rest =>
      match read_result fs p with
      | Ok _ => attachment_errors fs rest
      | Raise e => attachment_error p e :: attachment_errors fs rest
      end
  end.

Definition add_parts (m : MIMEMultipart) (l : list MIMEPart) : MIMEMultipart :=
  {| headers := headers m; parts := parts m ++ l |}.

(** The message handed to [_send_message]. *)
Definition composed_message (config : EmailConfig) (subject body : string)
    (html : bool) (fs : list (string * result (list Byte.byte)))
    (attachments : option (list Path)) : MIMEMultipart :=
  add_parts (text_message config subject body html)
            (readable_parts fs (paths_of attachments)).

(** Every step of the SMTP session succeeds for [message]. *)
Definition smtp_accepts (w : world) (config : EmailConfig)
    (message : MIMEMultipart) : Prop :=
  SMTP_connect w (smtp_server config) (smtp_port config) = Accepted /\
  SMTP_starttls w = Accepted /\
  SMTP_login w (username config) (password config) = Accepted /\
  SMTP_sendmail w (username config) (recipients config) message = Accepted /\
  SMTP_quit w = Accepted.

(** The commands of a complete session. *)
Definition session (config : EmailConfig) (message : MIMEMultipart)
  : list smtp_command :=
  [CONNECT (smtp_server config) (smtp_port config);
   STARTTLS;
   LOGIN (username config) (password config);
   SENDMAIL (username config) (recipients config) message;
   QUIT].

Definition sent_info : log_record :=
  {| level := INFO; message := [Text "Email sent successfully!"] |}.

Definition send_error (prefix : string) (e : exn) : log_record :=
  {| level := ERROR; message := [Text prefix; OfExn e] |}.

(** The state after a complete, successful session. *)
Definition delivered (s : state) (config : EmailConfig)
    (message : MIMEMultipart) : state :=
  {| metrics := metrics s;
     log := log s ++ [sent_info];
     files := files s;
     wire := wire s ++ session config message;
     outbox := outbox s ++ [(username config, recipients config, message)] |}.

(** A mail server that rejects the login. *)
Definition rejecting_world : world :=
  {| requests_get := requests_get demo_world;
     str_other := str_other demo_world;
     MIMEText_raises := fun _ _ => None;
     SMTP_connect := fun _ _ => Accepted;
     SMTP_starttls := Accepted;
     SMTP_login := fun _ _ => Refused (OtherException "SMTPAuthenticationError");
     SMTP_sendmail := fun _ _ _ => Accepted;
     SMTP_quit := Accepted;
     strftime_now := strftime_now demo_world;
     jinja_render := jinja_render demo_world;
     pandas_to_excel := pandas_to_excel demo_world |}.

(** A file system with one readable file. *)
Definition one_file : list (string * result (list Byte.byte)) :=
  [("report.xlsx", Ok [Byte.x50; Byte.x4b])].

(* ------------------------------------------------------------------ *)
(** *** The run *)

(** The steps of [run] that precede the call of [send]: discovery, the
    collection loop, the spreadsheet and the HTML report. *)
Definition collect_and_render (w : world) : M string :=
  get_node_metrics w ;;
  self <- self_metrics ;;
  for_each (node_list self) (collect_node w) ;;
  generate_excel_report w "report.xlsx" ;;
  generate_html_report w.

(** One of those steps raises [e]: node discovery, a collector in the
    loop, the spreadsheet, or the HTML report. *)
Inductive raises_before_send (w : world) (s : state) (e : exn) : Prop :=
| discovery_raises :
    fst (get_node_metrics w s) = Raise e ->
    raises_before_send w s e
| collector_raises s1 :
    get_node_metrics w s = (Ok tt, s1) ->
    fst (for_each (node_list (metrics s1)) (collect_node w) s1) = Raise e ->
    raises_before_send w s e
| spreadsheet_raises s1 s2 :
    get_node_metrics w s = (Ok tt, s1) ->
    for_each (node_list (metrics s1)) (collect_node w) s1 = (Ok tt, s2) ->
    fst (generate_excel_report w "report.xlsx" s2) = Raise e ->
    raises_before_send w s e
| report_raises s1 s2 s3 :
    get_node_metrics w s = (Ok tt, s1) ->
    for_each (node_list (metrics s1)) (collect_node w) s1 = (Ok tt, s2) ->
    generate_excel_report w "report.xlsx" s2 = (Ok tt, s3) ->
    fst (generate_html_report w s3) = Raise e ->
    raises_before_send w s e.

Definition run_error (e : exn) : log_record :=
  {| level := ERROR; message := [Text "Failed to run monitoring: "; OfExn e] |}.

(** Worlds in which one step before [send] raises. *)
Definition excel_failing_world : world :=
  {| requests_get := requests_get demo_world;
     str_other := str_other demo_world;
     MIMEText_raises := fun _ _ => None;
     SMTP_connect := fun _ _ => Accepted;
     SMTP_starttls := Accepted;
     SMTP_login := fun _ _ => Accepted;
     SMTP_sendmail := fun _ _ _ => Accepted;
     SMTP_quit := Accepted;
     strftime_now := strftime_now demo_world;
     jinja_render := jinja_render demo_world;
     pandas_to_excel := fun _ _ _ _ =>
       (None, Some (OtherException "PermissionError")) |}.

Definition template_failing_world : world :=
  {| requests_get := requests_get demo_world;
     str_other := str_other demo_world;
     MIMEText_raises := fun _ _ => None;
     SMTP_connect := fun _ _ => Accepted;
     SMTP_starttls := Accepted;
     SMTP_login := fun _ _ => Accepted;
     SMTP_sendmail := fun _ _ _ => Accepted;
     SMTP_quit := Accepted;
     strftime_now := strftime_now demo_world;
     jinja_render := fun _ _ => Raise (OtherException "TemplateNotFound");
     pandas_to_excel := pandas_to_excel demo_world |}.

(** A backend whose size samples lack the [value] field (the shape of a
    range query). *)
Definition range_world : world :=
  world_of
    [ (node_query, responds (body_of [sample [("instance", "node-a")] "1"]));
      (disk_query quiet_world "node_filesystem_size_bytes" node_a,
       responds (body_of
         [JObj [("metric", JObj [("device", JStr "/dev/sda1");
                                 ("mountpoint", JStr "/")]);
                ("values",
                 JArr [JArr [JNum (Float (Fin 1700000000)); JStr "1"]])]]));
      (disk_query quiet_world "node_filesystem_free_bytes" node_a,
       responds (body_of
         [sample [("device", "/dev/sda1"); ("mountpoint", "/")] "1"])) ].

(** A backend whose discovery query lists node-a twice. *)
Definition twice_world : world :=
  world_of
    ((node_query,
      responds (body_of [sample [("instance", "node-a")] "1";
                         sample [("instance", "node-a")] "1"]))
     :: demo_table).

(* ================================================================== *)
(** ** Further definitions: the other collectors, the loop, the reports *)
(* ================================================================== *)

(** The same backend, discovering node-a and then node-b. *)
Definition failing_node_world : world :=
  world_of
    ((node_query,
      responds (body_of [sample [("instance", "node-a")] "1";
                         sample [("instance", "node-b")] "1"]))
     :: half_broken_table).

(** The error records of the two queries of a collector, in the order the
    queries are made. *)
Definition query_errors (w : world) (u q1 q2 : string) : list log_record :=
  (query_log w u q1 ++ query_log w u q2)%list.

(** A backend whose second discovery sample has no [instance] label. *)
Definition unlabelled_world : world :=
  world_of
    [ (node_query,
       responds (body_of
         [sample [("instance", "node-a")] "1";
          sample [("job", "node")] "1";
          sample [("instance", "node-c")] "1"])) ].

(** A backend that lists node-b, node-a and node-b again. *)
Definition three_nodes_world : world :=
  world_of
    [ (node_query,
       responds (body_of
         [sample [("instance", "node-b")] "1";
          sample [("instance", "node-a")] "1";
          sample [("instance", "node-b")] "1"])) ].

(** The record [generate_excel_report] logs on success. *)
Definition excel_info (p : Path) : log_record :=
  {| level := INFO;
     message := [Text "Excel report generated successfully at "; OfPath p] |}.

(** What the spreadsheet writer answers for the lists of [m]. *)
Definition excel_outcome (w : world) (m : PrometheusMetrics)
  : option (list Byte.byte) * option exn :=
  pandas_to_excel w (disk_list m) (cpu_list m) (mem_list m) (net_list m).

(** The arguments [generate_html_report] passes to the template. *)
Definition bindings_of (w : world) (m : PrometheusMetrics) : Bindings :=
  {| nodes := node_list m; disks := disk_list m; cpus := cpu_list m;
     mems := mem_list m; nets := net_list m; timestamp := strftime_now w |}.

(** The message [run] submits: the report as HTML text and the
    spreadsheet. *)
Definition report_message (config : EmailConfig) (html_report : string)
    (content : list Byte.byte) : MIMEMultipart :=
  add_parts (text_message config (subject config) html_report true)
            [attachment_part "report.xlsx" content].

(** A file system that already holds an older report and another file. *)
Definition old_files : list (string * result (list Byte.byte)) :=
  [("report.xlsx", Ok [Byte.x01]); ("notes.txt", Ok [Byte.x02])].

(** A world whose spreadsheet writer leaves two bytes in the file. *)
Definition writing_world : world :=
  {| requests_get := requests_get demo_world;
     str_other := str_other demo_world;
     MIMEText_raises := fun _ _ => None;
     SMTP_connect := fun _ _ => Accepted;
     SMTP_starttls := Accepted;
     SMTP_login := fun _ _ => Accepted;
     SMTP_sendmail := fun _ _ _ => Accepted;
     SMTP_quit := Accepted;
     strftime_now := strftime_now demo_world;
     jinja_render := jinja_render demo_world;
     pandas_to_excel := fun _ _ _ _ => (Some [Byte.x50; Byte.x4b], None) |}.

(** A backend that refuses every connection. *)
Definition down_world : world :=
  {| requests_get := fun _ _ => Raise (OtherException "ConnectionError");
     str_other := str_other demo_world;
     MIMEText_raises := fun _ _ => None;
     SMTP_connect := fun _ _ => Accepted;
     SMTP_starttls := Accepted;
     SMTP_login := fun _ _ => Accepted;
     SMTP_sendmail := fun _ _ _ => Accepted;
     SMTP_quit := Accepted;
     strftime_now := strftime_now demo_world;
     jinja_render := jinja_render demo_world;
     pandas_to_excel := fun _ _ _ _ => (Some [Byte.x50; Byte.x4b], None) |}.

(** Discovery yields no node: its request fails, or it returns no
    sample. *)
Definition no_node_found (w : world) (u : string) : Prop :=
  (exists e, request_fails w u node_query e) \/
  returns_samples w u node_query [].

(** Opening and reading [p] succeeds in the file system [fs]. *)
Definition readable (fs : list (string * result (list Byte.byte)))
    (p : Path) : bool :=
  match read_result fs p with
  | Ok _ => true
  | Raise _ => false
  end.

(** A file system in which one of three paths cannot be read. *)
Definition mixed_files : list (string * result (list Byte.byte)) :=
  [("/srv/b.csv", Ok [Byte.x62]);
   ("/srv/locked.bin", Raise (OtherException "PermissionError"));
   ("a.txt", Ok [Byte.x61])].

(** A world in which the body cannot be encoded as text. *)
Definition unencodable_world : world :=
  {| requests_get := requests_get demo_world;
     str_other := str_other demo_world;
     MIMEText_raises := fun _ _ => Some (OtherException "UnicodeEncodeError");
     SMTP_connect := fun _ _ => Accepted;
     SMTP_starttls := Accepted;
     SMTP_login := fun _ _ => Accepted;
     SMTP_sendmail := fun _ _ _ => Accepted;
     SMTP_quit := Accepted;
     strftime_now := strftime_now demo_world;
     jinja_render := jinja_render demo_world;
     pandas_to_excel := pandas_to_excel demo_world |}.

(** What one step of the session leaves on the wire: its command, unless
    the library raised before sending it. *)
Definition issued (c : smtp_command) (a : smtp_answer) : list smtp_command :=
  match a with
  | NotSent _ => []
  | _ => [c]
  end.

Definition accepted (a : smtp_answer) : bool :=
  match a with
  | Accepted => true
  | _ => false
  end.

(** The steps inside the [with] block: STARTTLS, then the login if
    STARTTLS succeeded, then the submission if the login succeeded. *)
Definition block_steps (w : world) (config : EmailConfig)
    (message : MIMEMultipart) : list smtp_command :=
  issued STARTTLS (SMTP_starttls w) ++
  if accepted (SMTP_starttls w) then
    issued (LOGIN (username config) (password config))
           (SMTP_login w (username config) (password config)) ++
    if accepted (SMTP_login w (username config) (password config)) then
      issued (SENDMAIL (username config) (recipients config) message)
             (SMTP_sendmail w (username config) (recipients config) message)
    else []
  else [].

(** The whole session: the connection, then, if it succeeded, the steps
    of the block followed by the closing QUIT. *)
Definition session_steps (w : world) (config : EmailConfig)
    (message : MIMEMultipart) : list smtp_command :=
  issued (CONNECT (smtp_server config) (smtp_port config))
         (SMTP_connect w (smtp_server config) (smtp_port config)) ++
  if accepted (SMTP_connect w (smtp_server config) (smtp_port config)) then
    block_steps w config message ++ issued QUIT (SMTP_quit w)
  else [].

(** The server took the message: connection, STARTTLS, login and
    submission succeeded. *)
Definition submitted (w : world) (config : EmailConfig)
    (message : MIMEMultipart) : bool :=
  accepted (SMTP_connect w (smtp_server config) (smtp_port config)) &&
  accepted (SMTP_starttls w) &&
  accepted (SMTP_login w (username config) (password config)) &&
  accepted (SMTP_sendmail w (username config) (recipients config) message).

(** A mail server that offers no STARTTLS: smtplib raises without sending
    the command. *)
Definition plain_server_world : world :=
  {| requests_get := requests_get demo_world;
     str_other := str_other demo_world;
     MIMEText_raises := fun _ _ => None;
     SMTP_connect := fun _ _ => Accepted;
     SMTP_starttls := NotSent (OtherException "SMTPNotSupportedError");
     SMTP_login := fun _ _ => Accepted;
     SMTP_sendmail := fun _ _ _ => Accepted;
     SMTP_quit := Accepted;
     strftime_now := strftime_now demo_world;
     jinja_render := jinja_render demo_world;
     pandas_to_excel := pandas_to_excel demo_world |}.

(** A mail server that takes the message and then drops the connection
    before answering QUIT. *)
Definition dropping_world : world :=
  {| requests_get := requests_get demo_world;
     str_other := str_other demo_world;
     MIMEText_raises := fun _ _ => None;
     SMTP_connect := fun _ _ => Accepted;
     SMTP_starttls := Accepted;
     SMTP_login := fun _ _ => Accepted;
     SMTP_sendmail := fun _ _ _ => Accepted;
     SMTP_quit := Refused (OtherException "SMTPResponseException");
     strftime_now := strftime_now demo_world;
     jinja_render := jinja_render demo_world;
     pandas_to_excel := pandas_to_excel demo_world |}.
Local Open Scope list_scope.

(* ================================================================== *)
(** ** Basic facts: rounding to the nearest double *)
(* ================================================================== *)

Lemma Qltb_lt (x y : Q) : Qltb x y = true <-> x < y.
Proof. unfold Qltb, Qlt. apply Z.ltb_lt. Qed.

Lemma Qltb_ge (x y : Q) : Qltb x y = false <-> y <= x.
Proof. unfold Qltb, Qle. apply Z.ltb_ge. Qed.

Lemma Qis_zero_true (q : Q) : Qis_zero q = true <-> q == 0.
Proof. unfold Qis_zero. apply Qeq_bool_iff. Qed.

Lemma Qis_zero_false (q : Q) : Qis_zero q = false <-> ~ q == 0.
Proof.
  unfold Qis_zero. split.
  - intros H E. apply Qeq_bool_iff in E. congruence.
  - intros H. destruct (Qeq_bool q 0) eqn:E; [| reflexivity].
    apply Qeq_bool_iff in E. contradiction.
Qed.

Lemma round_half_even_near (q : Q) :
  q - (1 # 2) <= inject_Z (round_half_even q) /\
  inject_Z (round_half_even q) <= q + (1 # 2).
Proof.
  destruct q as [n d]. unfold round_half_even. simpl Qnum. simpl Qden.
  pose proof (Z.div_mod n (Zpos d) ltac:(lia)) as Hdm.
  pose proof (Z.mod_pos_bound n (Zpos d) ltac:(lia)) as Hr.
  set (f := (n / Zpos d)%Z) in *. set (r := (n mod Zpos d)%Z) in *.
  assert (Hcases :
    forall c : Z, (2 * Z.abs (c * Zpos d - n) <= Zpos d)%Z ->
      (n # d) - (1 # 2) <= inject_Z c /\ inject_Z c <= (n # d) + (1 # 2)).
  { intros c Hc. unfold Qle, Qminus, Qplus, Qopp, inject_Z. simpl.
    split; lia. }
  apply Hcases. clearbody f r.
  destruct (Z.compare_spec (2 * r) (Zpos d)) as [E | E | E].
  - destruct (Z.even f); lia.
  - lia.
  - lia.
Qed.

Lemma round_half_even_compat (q q' : Q) :
  q == q' -> round_half_even q = round_half_even q'.
Proof.
  destruct q as [n d], q' as [n' d']. unfold Qeq, round_half_even.
  cbn [Qnum Qden]. intros H.
  pose proof (Z.div_mod n (Zpos d) ltac:(lia)) as Hdm.
  pose proof (Z.mod_pos_bound n (Zpos d) ltac:(lia)) as Hr.
  pose proof (Z.div_mod n' (Zpos d') ltac:(lia)) as Hdm'.
  pose proof (Z.mod_pos_bound n' (Zpos d') ltac:(lia)) as Hr'.
  assert (Hf : (n / Zpos d = n' / Zpos d')%Z).
  { apply Z.div_unique with (r := (n' mod Zpos d')%Z) in Hdm' as Hx; [| lia].
    symmetry.
    apply (Z.div_unique_pos n (Zpos d) (n' / Zpos d')%Z
             (n - Zpos d * (n' / Zpos d'))%Z); [| lia].
    set (f' := (n' / Zpos d')%Z) in *. set (r' := (n' mod Zpos d')%Z) in *.
    clearbody f' r'. nia. }
  rewrite <- Hf.
  set (f := (n / Zpos d)%Z) in *.
  set (r := (n mod Zpos d)%Z) in *. set (r' := (n' mod Zpos d')%Z) in *.
  clearbody f r r'.
  assert (Hcmp : (2 * r ?= Zpos d)%Z = (2 * r' ?= Zpos d')%Z).
  { destruct (Z.compare_spec (2 * r) (Zpos d));
      destruct (Z.compare_spec (2 * r') (Zpos d')); try reflexivity; nia. }
  rewrite Hcmp. reflexivity.
Qed.

(** An integer rounds to itself. *)
Lemma round_half_even_Z (m : Z) : round_half_even (inject_Z m) = m.
Proof.
  unfold round_half_even, inject_Z. cbn [Qnum Qden].
  rewrite Z.div_1_r, Z.mod_1_r. reflexivity.
Qed.

Lemma inject_Z_le_half (m n : Z) :
  inject_Z m <= inject_Z n + (1 # 2) -> (m <= n)%Z.
Proof. unfold Qle, Qplus, inject_Z. simpl. lia. Qed.

Lemma inject_Z_ge_half (m n : Z) :
  inject_Z n - (1 # 2) <= inject_Z m -> (n <= m)%Z.
Proof. unfold Qle, Qminus, Qplus, Qopp, inject_Z. simpl. lia. Qed.

(** Rounding does not cross an integer. *)
Lemma round_half_even_le (q : Q) (m : Z) :
  q <= inject_Z m -> (round_half_even q <= m)%Z.
Proof.
  intros H. apply inject_Z_le_half.
  destruct (round_half_even_near q) as [_ Hu]. lra.
Qed.

Lemma round_half_even_ge (q : Q) (m : Z) :
  inject_Z m <= q -> (m <= round_half_even q)%Z.
Proof.
  intros H. apply inject_Z_ge_half.
  destruct (round_half_even_near q) as [Hl _]. lra.
Qed.

(* ------------------------------------------------------------------ *)
(** Powers of two *)

Lemma two_nonzero : ~ 2 == 0.
Proof. intros H; discriminate H. Qed.

Lemma pow2_pos (e : Z) : 0 < 2 ^ e.
Proof. apply Qpower_0_lt. reflexivity. Qed.

Lemma pow2_le (n m : Z) : (n <= m)%Z -> 2 ^ n <= 2 ^ m.
Proof. intros H. apply Qpower_le_compat_l; [exact H | discriminate]. Qed.

Lemma pow2_lt (n m : Z) : (n < m)%Z -> 2 ^ n < 2 ^ m.
Proof. intros H. apply Qpower_lt_compat_l; [exact H | reflexivity]. Qed.

Lemma pow2_lt_inv (n m : Z) : 2 ^ n < 2 ^ m -> (n < m)%Z.
Proof. intros H. apply (Qpower_lt_compat_l_inv 2); [exact H | reflexivity]. Qed.

Lemma pow2_inject (n : Z) : (0 <= n)%Z -> inject_Z (2 ^ n) == 2 ^ n.
Proof. intros H. rewrite Zpower_Qpower by exact H. reflexivity. Qed.

Lemma pow2_plus (n m : Z) : 2 ^ (n + m) == 2 ^ n * 2 ^ m.
Proof. apply Qpower_plus, two_nonzero. Qed.

Lemma pow2_minus (n m : Z) : 2 ^ (n - m) == 2 ^ n / 2 ^ m.
Proof. apply Qpower_minus, two_nonzero. Qed.


Lemma ratio_lt (n d pa pb : Q) :
  0 < n -> 0 < d -> 0 < pb -> n < pa -> pb <= d -> n / d < pa / pb.
Proof.
  intros Hn Hd Hpb H1 H2.
  apply Qlt_shift_div_r; [exact Hd |].
  setoid_replace (pa / pb * d) with (pa * d / pb) by (field; lra).
  apply Qlt_shift_div_l; [exact Hpb |]. nra.
Qed.

Lemma ratio_le (n d pa pb : Q) :
  0 < d -> 0 < pb -> 0 < pa -> pa <= n -> d <= pb -> pa / pb <= n / d.
Proof.
  intros Hd Hpb Hpa H1 H2.
  apply Qle_shift_div_l; [exact Hd |].
  setoid_replace (pa / pb * d) with (pa * d / pb) by (field; lra).
  apply Qle_shift_div_r; [exact Hpb |]. nra.
Qed.

(** The leading bit. *)
Lemma Qlog2_spec (q : Q) :
  0 < q -> 2 ^ Qlog2 q <= q /\ q < 2 ^ (Qlog2 q + 1).
Proof.
  intros Hq. unfold Qlog2.
  destruct q as [n d]. cbn [Qnum Qden].
  assert (Hn : (0 < n)%Z) by (unfold Qlt in Hq; simpl in Hq; lia).
  pose proof (Z.log2_spec n Hn) as [Ha1 Ha2].
  pose proof (Z.log2_spec (Zpos d) ltac:(lia)) as [Hb1 Hb2].
  pose proof (Z.log2_nonneg n) as Ha0.
  pose proof (Z.log2_nonneg (Zpos d)) as Hb0.
  set (a := Z.log2 n) in *. set (b := Z.log2 (Zpos d)) in *.
  assert (Hq' : n # d == inject_Z n / inject_Z (Zpos d)) by apply Qmake_Qdiv.
  assert (Hd : 0 < inject_Z (Zpos d)) by (unfold Qlt; simpl; lia).
  assert (Hn' : 0 < inject_Z n) by (unfold Qlt; simpl; lia).
  assert (A1 : 2 ^ a <= inject_Z n).
  { rewrite <- pow2_inject by lia. rewrite <- Zle_Qle. exact Ha1. }
  assert (A2 : inject_Z n < 2 ^ (a + 1)).
  { rewrite <- pow2_inject by lia. rewrite <- Zlt_Qlt.
    replace (a + 1)%Z with (Z.succ a) by lia. exact Ha2. }
  assert (B1 : 2 ^ b <= inject_Z (Zpos d)).
  { rewrite <- pow2_inject by lia. rewrite <- Zle_Qle. exact Hb1. }
  assert (B2 : inject_Z (Zpos d) < 2 ^ (b + 1)).
  { rewrite <- pow2_inject by lia. rewrite <- Zlt_Qlt.
    replace (b + 1)%Z with (Z.succ b) by lia. exact Hb2. }
  destruct (Qle_bool (2 ^ (a - b)) (n # d)) eqn:E.
  - apply Qle_bool_iff in E. split; [exact E |].
    rewrite Hq'.
    replace (a - b + 1)%Z with ((a + 1) - b)%Z by lia.
    rewrite pow2_minus.
    apply ratio_lt; auto using pow2_pos.
  - assert (E' : n # d < 2 ^ (a - b)).
    { apply Qnot_le_lt. intros H. apply Qle_bool_iff in H. congruence. }
    replace (a - b - 1 + 1)%Z with (a - b)%Z by lia.
    split; [| exact E'].
    rewrite Hq'.
    replace (a - b - 1)%Z with (a - (b + 1))%Z by lia.
    rewrite pow2_minus.
    apply ratio_le; auto using pow2_pos. apply Qlt_le_weak; exact B2.
Qed.

Lemma Qlog2_unique (q : Q) (k : Z) :
  2 ^ k <= q -> q < 2 ^ (k + 1) -> Qlog2 q = k.
Proof.
  intros H1 H2.
  assert (Hq : 0 < q) by (eapply Qlt_le_trans; [apply (pow2_pos k) | exact H1]).
  destruct (Qlog2_spec q Hq) as [L1 L2].
  assert (k < Qlog2 q + 1)%Z
    by (apply pow2_lt_inv; eapply Qle_lt_trans; eassumption).
  assert (Qlog2 q < k + 1)%Z
    by (apply pow2_lt_inv; eapply Qle_lt_trans; eassumption).
  lia.
Qed.

Lemma Qlog2_le (x y : Q) : 0 < x -> x <= y -> (Qlog2 x <= Qlog2 y)%Z.
Proof.
  intros Hx Hxy.
  assert (Hy : 0 < y) by (eapply Qlt_le_trans; eassumption).
  destruct (Qlog2_spec x Hx) as [X1 _].
  destruct (Qlog2_spec y Hy) as [_ Y2].
  assert (Qlog2 x < Qlog2 y + 1)%Z.
  { apply pow2_lt_inv. eapply Qle_lt_trans; [exact X1 |].
    eapply Qle_lt_trans; eassumption. }
  lia.
Qed.

Lemma Qlog2_compat (x y : Q) : 0 < x -> x == y -> Qlog2 x = Qlog2 y.
Proof.
  intros Hx E. destruct (Qlog2_spec x Hx) as [X1 X2].
  symmetry. apply Qlog2_unique; rewrite <- E; assumption.
Qed.

Lemma last_place_le (x y : Q) :
  0 < x -> x <= y -> (last_place x <= last_place y)%Z.
Proof.
  intros Hx Hxy. unfold last_place.
  pose proof (Qlog2_le x y Hx Hxy). lia.
Qed.

Lemma last_place_compat (x y : Q) :
  0 < x -> x == y -> last_place x = last_place y.
Proof. intros Hx E. unfold last_place. rewrite (Qlog2_compat x y Hx E). reflexivity. Qed.

(** The value of [nearest], without the reduction to lowest terms. *)
Lemma nearest_value (a : Q) :
  nearest a ==
  inject_Z (round_half_even (a / 2 ^ last_place a)) * 2 ^ last_place a.
Proof. unfold nearest. apply Qred_correct. Qed.

Lemma nearest_compat (a b : Q) : 0 < a -> a == b -> nearest a = nearest b.
Proof.
  intros Ha E. unfold nearest.
  rewrite (last_place_compat a b Ha E).
  rewrite (round_half_even_compat (a / 2 ^ last_place b) (b / 2 ^ last_place b))
    by (rewrite E; reflexivity).
  reflexivity.
Qed.

Lemma nearest_nonneg (a : Q) : 0 < a -> 0 <= nearest a.
Proof.
  intros Ha. rewrite nearest_value.
  pose proof (pow2_pos (last_place a)) as P.
  apply Qmult_le_0_compat; [| lra].
  assert (0 <= round_half_even (a / 2 ^ last_place a))%Z.
  { apply round_half_even_ge.
    apply Qle_shift_div_l; [exact P |].
    change (inject_Z 0) with 0. rewrite Qmult_0_l. lra. }
  unfold Qle; simpl; lia.
Qed.

(** A value on the grid is a whole number of units in its last place. *)
Lemma on_grid_units (b : Q) :
  on_grid b = true ->
  exists m : Z, b == inject_Z m * 2 ^ last_place b.
Proof.
  unfold on_grid. intros H. apply Qeq_bool_iff in H.
  exists (round_half_even (b / 2 ^ last_place b)).
  rewrite <- nearest_value. symmetry. exact H.
Qed.

Lemma units_on_grid (b : Q) (m : Z) :
  b == inject_Z m * 2 ^ last_place b -> on_grid b = true.
Proof.
  intros H. unfold on_grid. apply Qeq_bool_iff. rewrite nearest_value.
  pose proof (pow2_pos (last_place b)) as P.
  rewrite (round_half_even_compat (b / 2 ^ last_place b) (inject_Z m)).
  - rewrite round_half_even_Z. symmetry. exact H.
  - set (u := 2 ^ last_place b) in *. clearbody u. rewrite H. field. lra.
Qed.

(** Rounding is monotone against a value of the grid: below it ... *)
Lemma nearest_le (a b : Q) :
  0 < a -> a <= b -> on_grid b = true -> nearest a <= b.
Proof.
  intros Ha Hab Hb.
  assert (Hb0 : 0 < b) by lra.
  destruct (on_grid_units b Hb) as [m Hm].
  pose proof (last_place_le a b Ha Hab) as He.
  pose proof (pow2_pos (last_place a)) as Pa.
  pose proof (pow2_pos (last_place b)) as Pb.
  rewrite nearest_value.
  destruct (Z.eq_dec (last_place a) (last_place b)) as [E | E].
  - rewrite E in *. set (u := 2 ^ last_place b) in *. clearbody u.
    assert (round_half_even (a / u) <= m)%Z.
    { apply round_half_even_le. apply Qle_shift_div_r; [exact Pb | lra]. }
    rewrite Hm. apply Qmult_le_compat_r; [| lra].
    rewrite <- Zle_Qle. assumption.
  - destruct (Qlog2_spec a Ha) as [_ A2].
    destruct (Qlog2_spec b Hb0) as [B1 _].
    assert (Ea : (Qlog2 a + 1 <= last_place a + 53)%Z) by (unfold last_place; lia).
    assert (Eb : last_place b = (Qlog2 b - 52)%Z) by (unfold last_place in *; lia).
    assert (R : (round_half_even (a / 2 ^ last_place a) <= 2 ^ 53)%Z).
    { apply round_half_even_le. rewrite pow2_inject by lia.
      apply Qle_shift_div_r; [exact Pa |].
      rewrite <- pow2_plus. apply Qlt_le_weak.
      eapply Qlt_le_trans; [exact A2 |]. apply pow2_le. lia. }
    rewrite Zle_Qle in R. rewrite pow2_inject in R by lia.
    eapply Qle_trans; [apply Qmult_le_compat_r; [exact R | lra] |].
    rewrite <- pow2_plus.
    eapply Qle_trans; [| exact B1]. apply pow2_le. lia.
Qed.

(** ... and above it. *)
Lemma nearest_ge (a b : Q) :
  0 < b -> b <= a -> on_grid b = true -> b <= nearest a.
Proof.
  intros Hb0 Hba Hb.
  assert (Ha : 0 < a) by lra.
  destruct (on_grid_units b Hb) as [m Hm].
  pose proof (last_place_le b a Hb0 Hba) as He.
  pose proof (pow2_pos (last_place a)) as Pa.
  pose proof (pow2_pos (last_place b)) as Pb.
  rewrite nearest_value.
  destruct (Z.eq_dec (last_place a) (last_place b)) as [E | E].
  - rewrite E in *. set (u := 2 ^ last_place b) in *. clearbody u.
    assert (m <= round_half_even (a / u))%Z.
    { apply round_half_even_ge. apply Qle_shift_div_l; [exact Pb | lra]. }
    rewrite Hm. apply Qmult_le_compat_r; [| lra].
    rewrite <- Zle_Qle. assumption.
  - destruct (Qlog2_spec a Ha) as [A1 _].
    destruct (Qlog2_spec b Hb0) as [_ B2].
    assert (Eb : (Qlog2 b + 1 <= last_place b + 53)%Z) by (unfold last_place; lia).
    assert (Ea : last_place a = (Qlog2 a - 52)%Z) by (unfold last_place in *; lia).
    assert (R : (2 ^ 52 <= round_half_even (a / 2 ^ last_place a))%Z).
    { apply round_half_even_ge. rewrite pow2_inject by lia.
      apply Qle_shift_div_l; [exact Pa |].
      rewrite <- pow2_plus.
      eapply Qle_trans; [| exact A1]. apply pow2_le. lia. }
    rewrite Zle_Qle in R. rewrite pow2_inject in R by lia.
    eapply Qle_trans; [| apply Qmult_le_compat_r; [exact R | lra]].
    rewrite <- pow2_plus. apply Qlt_le_weak.
    eapply Qlt_le_trans; [exact B2 |]. apply pow2_le. lia.
Qed.

(** A value of the grid rounds to itself. *)
Lemma nearest_on_grid (b : Q) : on_grid b = true -> nearest b == b.
Proof. unfold on_grid. apply Qeq_bool_iff. Qed.

Lemma on_grid_compat (a b : Q) : 0 < a -> a == b -> on_grid a = on_grid b.
Proof.
  intros Ha E. unfold on_grid. rewrite (nearest_compat a b Ha E).
  destruct (Qeq_bool (nearest b) b) eqn:H.
  - apply Qeq_bool_iff. apply Qeq_bool_iff in H. rewrite E. exact H.
  - destruct (Qeq_bool (nearest b) a) eqn:H'; [| reflexivity].
    apply Qeq_bool_iff in H'. rewrite E in H'. apply Qeq_bool_iff in H'.
    congruence.
Qed.

(** A positive double is on the grid and below [2^1024]. *)
Lemma is_double_pos (q : Q) :
  is_double (Fin q) = true -> 0 < q -> on_grid q = true /\ q < 2 ^ 1024.
Proof.
  unfold is_double. intros H Hq.
  assert (Hz : Qis_zero q = false) by (apply Qis_zero_false; lra).
  rewrite Hz in H. simpl in H. apply andb_true_iff in H. destruct H as [G B].
  assert (E : Qabs q == q) by (apply Qabs_pos; lra).
  split.
  - rewrite <- (on_grid_compat (Qabs q) q); [exact G | rewrite E; exact Hq | exact E].
  - apply Qltb_lt in B. rewrite E in B. exact B.
Qed.

(** The integer [nearest] multiplies the unit by lies within 53 bits. *)
Lemma nearest_units_bound (a : Q) :
  0 < a ->
  (0 <= round_half_even (a / 2 ^ last_place a) <= 2 ^ 53)%Z.
Proof.
  intros Ha. pose proof (pow2_pos (last_place a)) as P.
  destruct (Qlog2_spec a Ha) as [_ A2].
  split.
  - apply round_half_even_ge. apply Qle_shift_div_l; [exact P |].
    change (inject_Z 0) with 0. rewrite Qmult_0_l. lra.
  - apply round_half_even_le. rewrite pow2_inject by lia.
    apply Qle_shift_div_r; [exact P |].
    rewrite <- pow2_plus. apply Qlt_le_weak.
    eapply Qlt_le_trans; [exact A2 |]. apply pow2_le.
    unfold last_place. lia.
Qed.

Lemma Qlog2_units (m e : Z) :
  (0 < m)%Z -> Qlog2 (inject_Z m * 2 ^ e) = (Z.log2 m + e)%Z.
Proof.
  intros Hm. destruct (Z.log2_spec m Hm) as [L1 L2].
  pose proof (Z.log2_nonneg m) as L0.
  pose proof (pow2_pos e) as P.
  apply Qlog2_unique.
  - rewrite pow2_plus. apply Qmult_le_compat_r; [| lra].
    rewrite <- pow2_inject by lia. rewrite <- Zle_Qle. exact L1.
  - replace (Z.log2 m + e + 1)%Z with ((Z.log2 m + 1) + e)%Z by lia.
    rewrite pow2_plus. apply Qmult_lt_compat_r; [exact P |].
    rewrite <- pow2_inject by lia. rewrite <- Zlt_Qlt.
    replace (Z.log2 m + 1)%Z with (Z.succ (Z.log2 m)) by lia. exact L2.
Qed.

(** What [nearest] returns is zero or on the grid: rounding twice is
    rounding once. *)
Lemma nearest_grid (a : Q) :
  0 < a -> nearest a == 0 \/ (0 < nearest a /\ on_grid (nearest a) = true).
Proof.
  intros Ha.
  pose proof (nearest_units_bound a Ha) as [M0 M53].
  pose proof (nearest_value a) as V.
  set (e := last_place a) in *. set (m := round_half_even (a / 2 ^ e)) in *.
  assert (He : (-1074 <= e)%Z) by (unfold e, last_place; lia).
  pose proof (pow2_pos e) as P.
  destruct (Z.eq_dec m 0) as [Z0 | Z0].
  - left. rewrite V, Z0. change (inject_Z 0) with 0. apply Qmult_0_l.
  - right. assert (Hm : (0 < m)%Z) by lia.
    assert (Vpos : 0 < nearest a).
    { rewrite V. apply Qmult_lt_0_compat; [| exact P].
      change 0 with (inject_Z 0). rewrite <- Zlt_Qlt. exact Hm. }
    split; [exact Vpos |].
    assert (LV : Qlog2 (nearest a) = (Z.log2 m + e)%Z).
    { rewrite <- (Qlog2_units m e Hm).
      apply Qlog2_compat; [exact Vpos | exact V]. }
    pose proof (Z.log2_nonneg m) as L0.
    destruct (Z.eq_dec m (2 ^ 53)) as [E53 | N53].
    + assert (L : Z.log2 m = 53%Z) by (rewrite E53; apply Z.log2_pow2; lia).
      apply (units_on_grid _ (2 ^ 52)).
      unfold last_place. rewrite LV, L.
      replace (Z.max (53 + e - 52) (-1074)) with (e + 1)%Z by lia.
      rewrite V, E53, !pow2_inject by lia.
      rewrite <- !pow2_plus. apply Qpower_comp; [reflexivity | lia].
    + assert (L : (Z.log2 m <= 52)%Z).
      { assert (Z.log2 m < 53)%Z; [| lia].
        apply Z.log2_lt_pow2; lia. }
      set (e' := Z.max (Z.log2 m + e - 52) (-1074)).
      assert (He' : (e' <= e)%Z) by (unfold e'; lia).
      apply (units_on_grid _ (m * 2 ^ (e - e'))).
      unfold last_place. rewrite LV. fold e'.
      rewrite V, inject_Z_mult, pow2_inject by lia.
      rewrite <- Qmult_assoc, <- pow2_plus.
      replace (e - e' + e')%Z with e by lia. reflexivity.
Qed.

(** Every rounded result is a double. *)
Lemma round64_is_double (q : Q) : is_double (round64 q) = true.
Proof.
  unfold round64.
  destruct (Qis_zero q) eqn:Z0; [reflexivity |].
  apply Qis_zero_false in Z0.
  destruct (Qsign_neg q) eqn:S.
  - apply Qltb_lt in S. cbv zeta.
    destruct (Qle_bool (2 ^ 1024) (nearest (- q))) eqn:O; [reflexivity |].
    destruct (Qis_zero (nearest (- q))) eqn:Zv; [reflexivity |].
    apply Qis_zero_false in Zv.
    destruct (nearest_grid (- q) ltac:(lra)) as [H | [Hp Hg]]; [contradiction |].
    assert (B : nearest (- q) < 2 ^ 1024).
    { apply Qnot_le_lt. intros H. apply Qle_bool_iff in H. congruence. }
    unfold is_double. apply orb_true_iff. right.
    assert (E : Qabs (- nearest (- q)) == nearest (- q))
      by (rewrite Qabs_opp; apply Qabs_pos; lra).
    apply andb_true_iff. split.
    + rewrite (on_grid_compat _ (nearest (- q))); [exact Hg | | exact E].
      rewrite E. exact Hp.
    + apply Qltb_lt. rewrite E. exact B.
  - apply Qltb_ge in S. cbv zeta.
    destruct (Qle_bool (2 ^ 1024) (nearest q)) eqn:O; [reflexivity |].
    assert (B : nearest q < 2 ^ 1024).
    { apply Qnot_le_lt. intros H. apply Qle_bool_iff in H. congruence. }
    assert (Hq : 0 < q).
    { destruct (Qlt_le_dec 0 q) as [H | H]; [exact H |].
      exfalso. apply Z0. lra. }
    unfold is_double. apply orb_true_iff.
    destruct (nearest_grid q Hq) as [H | [Hp Hg]].
    + left. apply Qis_zero_true. exact H.
    + right.
      assert (E : Qabs (nearest q) == nearest q) by (apply Qabs_pos; lra).
      apply andb_true_iff. split.
      * rewrite (on_grid_compat _ (nearest q)); [exact Hg | | exact E].
        rewrite E. exact Hp.
      * apply Qltb_lt. rewrite E. exact B.
Qed.

(** The exact result lies between zero and a double [b]: so does the
    rounded one. *)
Lemma round64_between (x b : Q) :
  0 <= x -> x <= b -> on_grid b = true -> b < 2 ^ 1024 ->
  exists d, round64 x = Fin d /\ 0 <= d /\ d <= b.
Proof.
  intros H0 Hb G B. unfold round64.
  destruct (Qis_zero x) eqn:Z0.
  - exists 0. split; [reflexivity |]. split; lra.
  - apply Qis_zero_false in Z0.
    assert (Hx : 0 < x).
    { destruct (Qlt_le_dec 0 x) as [H | H]; [exact H |].
      exfalso. apply Z0. lra. }
    assert (S : Qsign_neg x = false) by (apply Qltb_ge; lra).
    rewrite S. cbv zeta.
    pose proof (nearest_le x b Hx Hb G) as Hle.
    pose proof (nearest_nonneg x Hx) as Hge.
    assert (O : Qle_bool (2 ^ 1024) (nearest x) = false).
    { destruct (Qle_bool (2 ^ 1024) (nearest x)) eqn:E; [| reflexivity].
      apply Qle_bool_iff in E. lra. }
    rewrite O. exists (nearest x). repeat split; assumption.
Qed.

(** The exact result is at least a positive double [b]: so is the rounded
    one, which may be infinite. *)
Lemma round64_above (x b : Q) :
  0 < b -> b <= x -> on_grid b = true ->
  round64 x = PInf \/ exists d, round64 x = Fin d /\ b <= d.
Proof.
  intros H0 Hb G. unfold round64.
  assert (Hx : 0 < x) by lra.
  assert (Z0 : Qis_zero x = false) by (apply Qis_zero_false; lra).
  assert (S : Qsign_neg x = false) by (apply Qltb_ge; lra).
  rewrite Z0, S. cbv zeta.
  destruct (Qle_bool (2 ^ 1024) (nearest x)); [left; reflexivity |].
  right. exists (nearest x). split; [reflexivity |].
  apply nearest_ge; assumption.
Qed.

Lemma on_grid_1 : on_grid 1 = true.
Proof. vm_compute. reflexivity. Qed.

Lemma on_grid_100 : on_grid 100 = true.
Proof. vm_compute. reflexivity. Qed.

Lemma below_overflow_100 : 100 < 2 ^ 1024.
Proof. vm_compute. reflexivity. Qed.

Lemma below_overflow_1 : 1 < 2 ^ 1024.
Proof. vm_compute. reflexivity. Qed.

Lemma Qsign_neg_nonneg (q : Q) : 0 <= q -> Qsign_neg q = false.
Proof. intros H. apply Qltb_ge. exact H. Qed.

(** Subtraction, division by the capacity and multiplication by 100 keep
    a value within its bounds. *)
Lemma fsub_between (c f : pyfloat) (qc : Q) :
  c = Fin qc -> 0 < qc -> on_grid qc = true -> qc < 2 ^ 1024 ->
  fle f0 f -> fle f c ->
  exists d, fsub c f = Fin d /\ 0 <= d /\ d <= qc.
Proof.
  intros -> Hc G B H0 Hf.
  destruct f as [qf | | | |]; simpl in H0, Hf; try contradiction.
  - simpl. apply round64_between; try assumption; lra.
  - simpl. apply round64_between; try assumption; lra.
Qed.

Lemma fdiv_between (d qc : Q) :
  0 <= d -> d <= qc -> 0 < qc ->
  exists r, fdiv (Fin d) (Fin qc) = Fin r /\ 0 <= r /\ r <= 1.
Proof.
  intros H0 Hd Hc. unfold fdiv. cbn [value signbit].
  rewrite (Qsign_neg_nonneg d H0), (Qsign_neg_nonneg qc) by lra. simpl xorb.
  destruct (Qis_zero d) eqn:Z0.
  - exists 0. split; [reflexivity |]. split; lra.
  - apply round64_between.
    + apply Qle_shift_div_l; [exact Hc | lra].
    + apply Qle_shift_div_r; [exact Hc | lra].
    + exact on_grid_1.
    + exact below_overflow_1.
Qed.

Lemma fmul_100_between (r : Q) :
  0 <= r -> r <= 1 ->
  exists p, fmul (Fin r) f100 = Fin p /\ 0 <= p /\ p <= 100.
Proof.
  intros H0 H1. unfold fmul, f100. cbn [value signbit].
  rewrite (Qsign_neg_nonneg r H0), (Qsign_neg_nonneg 100) by lra. simpl xorb.
  destruct (Qis_zero (r * 100)) eqn:Z0.
  - exists 0. split; [reflexivity |]. split; lra.
  - apply round64_between.
    + lra.
    + lra.
    + exact on_grid_100.
    + exact below_overflow_100.
Qed.

(** For a finite capacity and [0 <= free <= capacity] the usage percent
    lies in [[0, 100]]: no rounding step leaves the interval. *)
Lemma percent_in_range (c f : pyfloat) :
  is_double c = true -> is_finite c = true -> fle f0 f -> fle f c ->
  in_0_100 (percent_of c f).
Proof.
  intros Hd Hfin H0 Hf. unfold percent_of.
  destruct c as [qc | | | |]; try discriminate Hfin.
  - unfold fgt, flt, f0. cbn [value].
    destruct (Qltb 0 qc) eqn:Hpos; [| simpl; lia].
    apply Qltb_lt in Hpos.
    destruct (is_double_pos qc Hd Hpos) as [G B].
    destruct (fsub_between (Fin qc) f qc eq_refl Hpos G B H0 Hf)
      as (d & -> & D0 & D1).
    destruct (fdiv_between d qc D0 D1 Hpos) as (r & -> & R0 & R1).
    destruct (fmul_100_between r R0 R1) as (p & -> & P0 & P1).
    simpl. split; assumption.
  - simpl. lia.
Qed.

(* ------------------------------------------------------------------ *)

Lemma fdiv_above (b t : Q) (x : pyfloat) :
  0 < b -> 0 < t -> on_grid t = true ->
  fle (Fin (b * t)) x -> fle (Fin t) (fdiv x (Fin b)).
Proof.
  intros Hb Ht G Hx.
  assert (Hbt : 0 < b * t) by (apply Qmult_lt_0_compat; assumption).
  destruct x as [q | | | |]; simpl in Hx; try contradiction.
  - unfold fdiv. cbn [value signbit].
    rewrite (Qsign_neg_nonneg q), (Qsign_neg_nonneg b) by lra. simpl xorb.
    assert (Z0 : Qis_zero q = false) by (apply Qis_zero_false; lra).
    rewrite Z0.
    destruct (round64_above (q / b) t Ht) as [-> | (d & -> & Hd)];
      [| exact G | exact I | exact Hd].
    apply Qle_shift_div_l; [exact Hb |]. lra.
  - lra.
  - unfold fdiv. cbn [value signbit].
    rewrite (Qsign_neg_nonneg b) by lra. exact I.
Qed.

Lemma flt_above (b t : Q) (x : pyfloat) :
  0 < b -> 1 <= t -> fle (Fin (b * t)) x -> flt x (Fin b) = false.
Proof.
  intros Hb Ht Hx.
  destruct x as [q | | | |]; simpl in Hx; try contradiction.
  - simpl. apply Qltb_ge. nra.
  - nra.
  - reflexivity.
Qed.

(* ================================================================== *)
(** ** Basic facts: the conditional expression *)
(* ================================================================== *)

Lemma fgt_zero_not_zero (x : pyfloat) : fgt x f0 = true -> is_zero x = false.
Proof.
  destruct x as [q | | | |]; try reflexivity.
  - unfold fgt, flt, f0, is_zero. cbn [value]. intros H. apply Qltb_lt in H.
    apply Qis_zero_false. intros E. rewrite E in H. revert H. apply Qlt_irrefl.
  - intros H. discriminate H.
Qed.

(** The conditional expression never divides by zero. *)
Lemma percent_expr_value (used total : pyfloat) :
  percent_expr used total =
  Ok (if fgt total f0 then Float (fmul (fdiv used total) f100) else Int 0).
Proof.
  unfold percent_expr. destruct (fgt total f0) eqn:E; [| reflexivity].
  unfold py_truediv. rewrite (fgt_zero_not_zero _ E). reflexivity.
Qed.

(* ================================================================== *)
(** ** Basic facts: queries and collectors *)
(* ================================================================== *)

Lemma extend_disk_nil m : extend_disk m [] = m.
Proof. destruct m; unfold extend_disk; simpl; rewrite app_nil_r; reflexivity. Qed.
Lemma extend_cpu_nil m : extend_cpu m [] = m.
Proof. destruct m; unfold extend_cpu; simpl; rewrite app_nil_r; reflexivity. Qed.
Lemma extend_mem_nil m : extend_mem m [] = m.
Proof. destruct m; unfold extend_mem; simpl; rewrite app_nil_r; reflexivity. Qed.
Lemma extend_net_nil m : extend_net m [] = m.
Proof. destruct m; unfold extend_net; simpl; rewrite app_nil_r; reflexivity. Qed.

Lemma extend_disk_app m l1 l2 :
  extend_disk (extend_disk m l1) l2 = extend_disk m (l1 ++ l2).
Proof. unfold extend_disk; simpl; rewrite app_assoc; reflexivity. Qed.
Lemma extend_cpu_app m l1 l2 :
  extend_cpu (extend_cpu m l1) l2 = extend_cpu m (l1 ++ l2).
Proof. unfold extend_cpu; simpl; rewrite app_assoc; reflexivity. Qed.
Lemma extend_mem_app m l1 l2 :
  extend_mem (extend_mem m l1) l2 = extend_mem m (l1 ++ l2).
Proof. unfold extend_mem; simpl; rewrite app_assoc; reflexivity. Qed.
Lemma extend_net_app m l1 l2 :
  extend_net (extend_net m l1) l2 = extend_net m (l1 ++ l2).
Proof. unfold extend_net; simpl; rewrite app_assoc; reflexivity. Qed.


Lemma set_metrics_same s : set_metrics s (metrics s) = s.
Proof. destruct s; reflexivity. Qed.

Lemma add_logs_nil s : add_logs s [] = s.
Proof. destruct s; unfold add_logs; simpl; rewrite app_nil_r; reflexivity. Qed.

Lemma add_logs_app s l1 l2 : add_logs (add_logs s l1) l2 = add_logs s (l1 ++ l2).
Proof. unfold add_logs; simpl; rewrite app_assoc; reflexivity. Qed.

Lemma add_log_logs s r : add_log s r = add_logs s [r].
Proof. reflexivity. Qed.

(** What one query does: it returns [query_value] and logs [query_log];
    nothing else of the state changes. *)
Lemma query_spec w q s :
  _query_prometheus w q s =
  (Ok (query_value w (url (metrics s)) q),
   add_logs s (query_log w (url (metrics s)) q)).
Proof.
  unfold _query_prometheus, try_except, bind, self_metrics, lift,
    query_value, query_log, request_outcome, rbind.
  destruct (requests_get w (url (metrics s)) q) as [resp | e]; simpl.
  - destruct (raise_for_status resp) as [e |]; simpl.
    + reflexivity.
    + destruct (json_method resp) as [j | e]; simpl.
      * rewrite add_logs_nil; reflexivity.
      * reflexivity.
  - reflexivity.
Qed.

Section Collect.

Variable w : world.
Variable R : Type.
Variable extend : PrometheusMetrics -> list R -> PrometheusMetrics.
Hypothesis extend_nil : forall m, extend m [] = m.
Hypothesis extend_app :
  forall m l1 l2, extend (extend m l1) l2 = extend m (l1 ++ l2).
Variable mk : json -> json -> result R.

Lemma loop_spec pairs s :
  for_each pairs (fun '(a, b) => r <- lift (mk a b) ;; append_with extend r)%monad s =
  (result_of (snd (built mk pairs)),
   set_metrics s (extend (metrics s) (fst (built mk pairs)))).
Proof.
  revert s. induction pairs as [| [a b] rest IH]; intros s; simpl.
  - unfold ret. rewrite extend_nil, set_metrics_same. reflexivity.
  - unfold bind at 1. unfold bind at 1. unfold lift at 1.
    destruct (mk a b) as [r | e]; simpl.
    + unfold append_with, update_metrics, modify.
      rewrite IH. simpl.
      destruct (built mk rest) as [rs e]; simpl.
      rewrite extend_app. reflexivity.
    + rewrite extend_nil, set_metrics_same. reflexivity.
Qed.

Lemma collect_spec q1 q2 s :
  collect w q1 q2 mk (append_with extend) s =
  (result_of (snd (collected w (url (metrics s)) q1 q2 mk)),
   set_metrics
     (add_logs s (query_log w (url (metrics s)) q1
                  ++ query_log w (url (metrics s)) q2))
     (extend (metrics s) (fst (collected w (url (metrics s)) q1 q2 mk)))).
Proof.
  unfold collect.
  unfold bind at 1. rewrite query_spec.
  unfold bind at 1. rewrite query_spec. simpl metrics.
  rewrite add_logs_app.
  unfold bind at 1. unfold lift at 1. unfold collected.
  destruct (zip_results _ _) as [pairs | e]; simpl.
  - rewrite loop_spec. reflexivity.
  - rewrite extend_nil. destruct s; reflexivity.
Qed.

End Collect.

(** Each collector is an instance of the shared shape. *)
Lemma get_disk_metrics_collect w instance :
  get_disk_metrics w instance =
  collect w (disk_query w "node_filesystem_size_bytes" instance)
            (disk_query w "node_filesystem_free_bytes" instance)
            (disk_record instance) (append_with extend_disk).
Proof. reflexivity. Qed.

Lemma get_cpu_metrics_collect w instance :
  get_cpu_metrics w instance =
  collect w (cpu_usage_query w instance) (cpu_core_query w instance)
            (cpu_record instance) (append_with extend_cpu).
Proof. reflexivity. Qed.

Lemma get_mem_metrics_collect w instance :
  get_mem_metrics w instance =
  collect w (mem_query w "node_memory_MemTotal_bytes" instance)
            (mem_query w "node_memory_MemAvailable_bytes" instance)
            (mem_record instance) (append_with extend_mem).
Proof. reflexivity. Qed.

Lemma get_net_metrics_collect w instance :
  get_net_metrics w instance =
  collect w (net_query w "node_network_receive_bytes_total" instance)
            (net_query w "node_network_transmit_bytes_total" instance)
            (net_record instance) (append_with extend_net).
Proof. reflexivity. Qed.

(** The state after each collector, in closed form. *)
Lemma get_disk_metrics_spec w instance s :
  get_disk_metrics w instance s =
  let u := url (metrics s) in
  let q1 := disk_query w "node_filesystem_size_bytes" instance in
  let q2 := disk_query w "node_filesystem_free_bytes" instance in
  let c := collected w u q1 q2 (disk_record instance) in
  (result_of (snd c),
   set_metrics (add_logs s (query_log w u q1 ++ query_log w u q2))
               (extend_disk (metrics s) (fst c))).
Proof.
  rewrite get_disk_metrics_collect.
  apply collect_spec; [apply extend_disk_nil | apply extend_disk_app].
Qed.

Lemma get_cpu_metrics_spec w instance s :
  get_cpu_metrics w instance s =
  let u := url (metrics s) in
  let q1 := cpu_usage_query w instance in
  let q2 := cpu_core_query w instance in
  let c := collected w u q1 q2 (cpu_record instance) in
  (result_of (snd c),
   set_metrics (add_logs s (query_log w u q1 ++ query_log w u q2))
               (extend_cpu (metrics s) (fst c))).
Proof.
  rewrite get_cpu_metrics_collect.
  apply collect_spec; [apply extend_cpu_nil | apply extend_cpu_app].
Qed.

Lemma get_mem_metrics_spec w instance s :
  get_mem_metrics w instance s =
  let u := url (metrics s) in
  let q1 := mem_query w "node_memory_MemTotal_bytes" instance in
  let q2 := mem_query w "node_memory_MemAvailable_bytes" instance in
  let c := collected w u q1 q2 (mem_record instance) in
  (result_of (snd c),
   set_metrics (add_logs s (query_log w u q1 ++ query_log w u q2))
               (extend_mem (metrics s) (fst c))).
Proof.
  rewrite get_mem_metrics_collect.
  apply collect_spec; [apply extend_mem_nil | apply extend_mem_app].
Qed.

Lemma get_net_metrics_spec w instance s :
  get_net_metrics w instance s =
  let u := url (metrics s) in
  let q1 := net_query w "node_network_receive_bytes_total" instance in
  let q2 := net_query w "node_network_transmit_bytes_total" instance in
  let c := collected w u q1 q2 (net_record instance) in
  (result_of (snd c),
   set_metrics (add_logs s (query_log w u q1 ++ query_log w u q2))
               (extend_net (metrics s) (fst c))).
Proof.
  rewrite get_net_metrics_collect.
  apply collect_spec; [apply extend_net_nil | apply extend_net_app].
Qed.

(* ================================================================== *)
(** ** Relations every step of a computation maintains *)
(* ================================================================== *)

Section Keeps.

Variable P : state -> state -> Prop.
Hypothesis P_refl : forall s, P s s.
Hypothesis P_trans : forall a b c, P a b -> P b c -> P a c.

Lemma keeps_ret {A} (a : A) : keeps P (ret a).
Proof. intros s; apply P_refl. Qed.

Lemma keeps_lift {A} (r : result A) : keeps P (lift r).
Proof. intros s; apply P_refl. Qed.

Lemma keeps_bind {A B} (m : M A) (k : A -> M B) :
  keeps P m -> (forall a, keeps P (k a)) -> keeps P (bind m k).
Proof.
  intros Hm Hk s. unfold bind. specialize (Hm s).
  destruct (m s) as [[a | e] s1]; simpl in *.
  - eapply P_trans; [exact Hm | apply Hk].
  - exact Hm.
Qed.

Lemma keeps_try_except {A} (m : M A) (h : exn -> M A) :
  keeps P m -> (forall e, keeps P (h e)) -> keeps P (try_except m h).
Proof.
  intros Hm Hh s. unfold try_except. specialize (Hm s).
  destruct (m s) as [[a | e] s1]; simpl in *.
  - exact Hm.
  - eapply P_trans; [exact Hm | apply Hh].
Qed.

Lemma keeps_for_each {X} (items : list X) (body : X -> M unit) :
  (forall x, keeps P (body x)) -> keeps P (for_each items body).
Proof.
  intros Hb. induction items as [| x rest IH]; simpl.
  - apply keeps_ret.
  - apply keeps_bind; [apply Hb | intros _; exact IH].
Qed.

Lemma keeps_modify (f : state -> state) :
  (forall s, P s (f s)) -> keeps P (modify f).
Proof. intros H s; apply H. Qed.

Lemma keeps_self_metrics : keeps P self_metrics.
Proof. intros s; apply P_refl. Qed.

Hypothesis P_log : forall s r, P s (add_log s r).

Lemma keeps_logger_error msg : keeps P (logger_error msg).
Proof. apply keeps_modify; intros; apply P_log. Qed.

Lemma keeps_logger_info msg : keeps P (logger_info msg).
Proof. apply keeps_modify; intros; apply P_log. Qed.

Lemma keeps_query w q : keeps P (_query_prometheus w q).
Proof.
  apply keeps_try_except.
  - apply keeps_bind; [apply keeps_self_metrics | intros self].
    apply keeps_bind; [apply keeps_lift | intros response].
    destruct (raise_for_status response); apply keeps_lift.
  - intros e. apply keeps_bind; [apply keeps_logger_error | intros _].
    apply keeps_ret.
Qed.

Hypothesis P_node_list :
  forall s l, P s (set_metrics s (set_node_list (metrics s) l)).
Hypothesis P_disk :
  forall s l, P s (set_metrics s (extend_disk (metrics s) l)).
Hypothesis P_cpu :
  forall s l, P s (set_metrics s (extend_cpu (metrics s) l)).
Hypothesis P_mem :
  forall s l, P s (set_metrics s (extend_mem (metrics s) l)).
Hypothesis P_net :
  forall s l, P s (set_metrics s (extend_net (metrics s) l)).
Hypothesis P_file : forall s p c, P s (set_file s p c).

Lemma keeps_get_node_metrics w : keeps P (get_node_metrics w).
Proof.
  apply keeps_bind; [apply keeps_query | intros result].
  apply keeps_bind; [apply keeps_lift | intros l].
  apply keeps_modify. intros s. apply (P_node_list s l).
Qed.

Lemma keeps_collect {R} w q1 q2 (mk : json -> json -> result R)
    (extend : PrometheusMetrics -> list R -> PrometheusMetrics) :
  (forall s l, P s (set_metrics s (extend (metrics s) l))) ->
  keeps P (collect w q1 q2 mk (append_with extend)).
Proof.
  intros H.
  apply keeps_bind; [apply keeps_query | intros r1].
  apply keeps_bind; [apply keeps_query | intros r2].
  apply keeps_bind; [apply keeps_lift | intros pairs].
  apply keeps_for_each. intros [a b].
  apply keeps_bind; [apply keeps_lift | intros r].
  apply keeps_modify. intros s. apply H.
Qed.

Lemma keeps_collect_node w node : keeps P (collect_node w node).
Proof.
  unfold collect_node.
  apply keeps_bind;
    [rewrite get_disk_metrics_collect; apply keeps_collect; exact P_disk
    | intros _].
  apply keeps_bind;
    [rewrite get_cpu_metrics_collect; apply keeps_collect; exact P_cpu
    | intros _].
  apply keeps_bind;
    [rewrite get_mem_metrics_collect; apply keeps_collect; exact P_mem
    | intros _].
  rewrite get_net_metrics_collect; apply keeps_collect; exact P_net.
Qed.

Lemma keeps_generate_html_report w : keeps P (generate_html_report w).
Proof.
  apply keeps_bind; [apply keeps_self_metrics | intros self].
  apply keeps_lift.
Qed.

Lemma keeps_generate_excel_report w p : keeps P (generate_excel_report w p).
Proof.
  apply keeps_bind; [apply keeps_self_metrics | intros self].
  destruct (pandas_to_excel w _ _ _ _) as [written raised].
  apply keeps_bind.
  - destruct written; [apply keeps_modify; intros; apply P_file | apply keeps_ret].
  - intros _. destruct raised; [apply keeps_lift | apply keeps_logger_info].
Qed.

Lemma keeps_collect_and_render w : keeps P (collect_and_render w).
Proof.
  unfold collect_and_render.
  apply keeps_bind; [apply keeps_get_node_metrics | intros _].
  apply keeps_bind; [apply keeps_self_metrics | intros self].
  apply keeps_bind;
    [apply keeps_for_each; intros node; apply keeps_collect_node | intros _].
  apply keeps_bind; [apply keeps_generate_excel_report | intros _].
  apply keeps_generate_html_report.
Qed.

End Keeps.

(* ================================================================== *)
(** ** Node discovery and the loop body, in closed form *)
(* ================================================================== *)

Lemma get_node_metrics_spec w s :
  get_node_metrics w s =
  let u := url (metrics s) in
  let s1 := add_logs s (query_log w u node_query) in
  match discovered w u with
  | Ok l => (Ok tt, set_metrics s1 (set_node_list (metrics s) l))
  | Raise e => (Raise e, s1)
  end.
Proof.
  unfold get_node_metrics. unfold bind at 1. rewrite query_spec.
  unfold bind, lift, discovered. simpl.
  destruct (rbind (data_result _) _) as [l | e]; reflexivity.
Qed.

Lemma collect_node_ok w node s :
  fst (collect_node w node s) = Ok tt ->
  let u := url (metrics s) in
  snd (node_disk w u node) = None /\
  snd (node_cpu w u node) = None /\
  snd (node_mem w u node) = None /\
  snd (node_net w u node) = None.
Proof.
  unfold collect_node, node_disk, node_cpu, node_mem, node_net.
  unfold bind at 1. rewrite get_disk_metrics_spec. cbv zeta.
  destruct (collected w _ _ _ (disk_record node)) as [d [e |]]; simpl;
    [discriminate |].
  unfold bind at 1. rewrite get_cpu_metrics_spec. cbv zeta. simpl url.
  destruct (collected w _ _ _ (cpu_record node)) as [c [e |]]; simpl;
    [discriminate |].
  unfold bind at 1. rewrite get_mem_metrics_spec. cbv zeta. simpl url.
  destruct (collected w _ _ _ (mem_record node)) as [m [e |]]; simpl;
    [discriminate |].
  rewrite get_net_metrics_spec. cbv zeta. simpl url.
  destruct (collected w _ _ _ (net_record node)) as [n [e |]]; simpl;
    [discriminate |].
  intros _. repeat split.
Qed.

Lemma collect_node_lists w node s :
  let u := url (metrics s) in
  snd (node_disk w u node) = None ->
  snd (node_cpu w u node) = None ->
  snd (node_mem w u node) = None ->
  snd (node_net w u node) = None ->
  exists s',
    collect_node w node s = (Ok tt, s') /\
    metrics s' =
      extend_net
        (extend_mem
           (extend_cpu
              (extend_disk (metrics s) (fst (node_disk w u node)))
              (fst (node_cpu w u node)))
           (fst (node_mem w u node)))
        (fst (node_net w u node)).
Proof.
  cbv zeta. unfold collect_node, node_disk, node_cpu, node_mem, node_net.
  intros Hd Hc Hm Hn.
  unfold bind at 1. rewrite get_disk_metrics_spec. cbv zeta.
  rewrite Hd. simpl result_of. cbv iota.
  unfold bind at 1. rewrite get_cpu_metrics_spec. cbv zeta. simpl url.
  rewrite Hc. simpl result_of. cbv iota.
  unfold bind at 1. rewrite get_mem_metrics_spec. cbv zeta. simpl url.
  rewrite Hm. simpl result_of. cbv iota.
  rewrite get_net_metrics_spec. cbv zeta. simpl url.
  rewrite Hn. simpl result_of.
  eexists; split; [reflexivity | reflexivity].
Qed.

(** What a failed or successful request leaves in a collector's hands. *)
Lemma request_fails_outcome w u q e :
  request_fails w u q e <-> request_outcome w u q = Raise e.
Proof.
  unfold request_outcome, rbind. split.
  - intros [e' H | r e' H1 H2 | r e' H1 H2 H3].
    + rewrite H; reflexivity.
    + rewrite H1, H2; reflexivity.
    + rewrite H1, H2; exact H3.
  - destruct (requests_get w u q) as [r | e'] eqn:G.
    + destruct (raise_for_status r) as [e' |] eqn:St.
      * intros H; inversion H; subst. eapply status_raises; eassumption.
      * intros H. eapply json_raises; eassumption.
    + intros H; inversion H; subst. apply get_raises; assumption.
Qed.

Lemma request_returns_outcome w u q j :
  request_returns w u q j <-> request_outcome w u q = Ok j.
Proof.
  unfold request_returns, request_outcome, rbind. split.
  - intros (r & H1 & H2 & H3). rewrite H1, H2; exact H3.
  - destruct (requests_get w u q) as [r | e'] eqn:G; [| discriminate].
    destruct (raise_for_status r) as [e' |] eqn:St; [discriminate |].
    intros H. exists r. repeat split; assumption.
Qed.

Lemma query_value_failed w u q e :
  request_fails w u q e -> query_value w u q = empty_result.
Proof.
  intros H. apply request_fails_outcome in H.
  unfold query_value. rewrite H. reflexivity.
Qed.

Lemma query_value_returns w u q j :
  request_returns w u q j -> query_value w u q = j.
Proof.
  intros H. apply request_returns_outcome in H.
  unfold query_value. rewrite H. reflexivity.
Qed.

Lemma query_log_returns w u q j :
  request_returns w u q j -> query_log w u q = [].
Proof.
  intros H. apply request_returns_outcome in H.
  unfold query_log. rewrite H. reflexivity.
Qed.

(* ================================================================== *)
(** ** What the loops build *)
(* ================================================================== *)

Lemma built_nil {R} (mk : json -> json -> result R) : built mk [] = ([], None).
Proof. reflexivity. Qed.


(** The record at index [i] is the one built from the pair at index
    [i]. *)
Lemma built_nth {R} (mk : json -> json -> result R) pairs : forall i r,
  nth_error (fst (built mk pairs)) i = Some r ->
  exists a b, nth_error pairs i = Some (a, b) /\ mk a b = Ok r.
Proof.
  induction pairs as [| [a b] rest IH]; intros i r; simpl.
  - destruct i; discriminate.
  - destruct (mk a b) as [r0 | e] eqn:E; simpl; [| destruct i; discriminate].
    destruct (built mk rest) as [rs e]. simpl in *.
    destruct i as [| i]; simpl.
    + intros H; inversion H; subst. exists a, b. split; [reflexivity | exact E].
    + apply IH.
Qed.

Lemma built_length_le {R} (mk : json -> json -> result R) pairs :
  (List.length (fst (built mk pairs)) <= List.length pairs)%nat.
Proof.
  induction pairs as [| [a b] rest IH]; simpl; [lia |].
  destruct (mk a b) as [r0 | e]; simpl; [| lia].
  destruct (built mk rest) as [rs e]. simpl in *. lia.
Qed.

(** When the body succeeds on every pair up to index [i], the loop
    reaches that pair and builds its record. *)
Lemma built_reaches {R} (mk : json -> json -> result R) pairs : forall i a b,
  Forall (fun p => exists r, mk (fst p) (snd p) = Ok r) (firstn (S i) pairs) ->
  nth_error pairs i = Some (a, b) ->
  exists r, nth_error (fst (built mk pairs)) i = Some r /\ mk a b = Ok r.
Proof.
  induction pairs as [| [x y] rest IH]; intros i a b Hall Hnth.
  - destruct i; discriminate.
  - simpl in Hall. inversion Hall as [| p l [r0 Hr0] Hrest]; subst.
    simpl in Hr0. simpl. rewrite Hr0.
    destruct (built mk rest) as [rs e] eqn:B. simpl.
    destruct i as [| i]; simpl in *.
    + inversion Hnth; subst. exists r0. split; [reflexivity | exact Hr0].
    + destruct (IH i a b Hrest Hnth) as (r & Hr & Hmk).
      try rewrite B in Hr. exists r. split; assumption.
Qed.

(** When the body succeeds on every pair, the loop builds one record per
    pair, in order. *)
Lemma built_all {R} (mk : json -> json -> result R) pairs :
  Forall (fun ab => exists r, mk (fst ab) (snd ab) = Ok r) pairs ->
  snd (built mk pairs) = None /\
  List.length (fst (built mk pairs)) = List.length pairs /\
  forall i a b,
    nth_error pairs i = Some (a, b) ->
    exists r, nth_error (fst (built mk pairs)) i = Some r /\ mk a b = Ok r.
Proof.
  induction 1 as [| [a b] rest [r Hr] _ IH]; simpl.
  - repeat split. intros [| i] a b; discriminate.
  - simpl in Hr. rewrite Hr.
    destruct (built mk rest) as [rs e]. simpl in *.
    destruct IH as (He & Hlen & Hnth).
    repeat split; [assumption | rewrite Hlen; reflexivity |].
    intros [| i] a' b'; simpl.
    + intros H; inversion H; subst. exists r. split; [reflexivity | assumption].
    + apply Hnth.
Qed.

(** At the first pair on which the body raises, the loop ends with that
    exception and the records of the pairs before it. *)
Lemma built_stops {R} (mk : json -> json -> result R) good a b rest e :
  Forall (fun p => exists r, mk (fst p) (snd p) = Ok r) good ->
  mk a b = Raise e ->
  snd (built mk (good ++ (a, b) :: rest)) = Some e /\
  Forall2 (fun p r => mk (fst p) (snd p) = Ok r) good
          (fst (built mk (good ++ (a, b) :: rest))).
Proof.
  intros Hgood Hbad. induction Hgood as [| [x y] good [r Hr] _ IH]; simpl.
  - rewrite Hbad. split; [reflexivity | constructor].
  - simpl in Hr. rewrite Hr.
    destruct (built mk (good ++ (a, b) :: rest)) as [rs e']. simpl in *.
    destruct IH as [He Hall]. split; [exact He |].
    constructor; assumption.
Qed.

Lemma nth_error_combine {A B} (l1 : list A) (l2 : list B) i a b :
  nth_error l1 i = Some a -> nth_error l2 i = Some b ->
  nth_error (combine l1 l2) i = Some (a, b).
Proof.
  revert l2 i. induction l1 as [| x l1 IH]; intros [| y l2] [| i]; simpl;
    try discriminate.
  - intros H1 H2; inversion H1; inversion H2; reflexivity.
  - apply IH.
Qed.

Lemma nth_error_combine_inv {A B} (l1 : list A) (l2 : list B) i a b :
  nth_error (combine l1 l2) i = Some (a, b) ->
  nth_error l1 i = Some a /\ nth_error l2 i = Some b.
Proof.
  revert l2 i. induction l1 as [| x l1 IH]; intros [| y l2] [| i]; simpl;
    try discriminate.
  - intros H; inversion H; split; reflexivity.
  - apply IH.
Qed.

Lemma nth_error_after {A} (l added : list A) i :
  nth_error (l ++ added) (List.length l + i) = nth_error added i.
Proof.
  rewrite nth_error_app2 by lia. f_equal. lia.
Qed.

(** What a collector gathers when both its queries return sample
    lists. *)
Lemma collected_samples {R} w u q1 q2 (mk : json -> json -> result R) l1 l2 :
  returns_samples w u q1 l1 ->
  returns_samples w u q2 l2 ->
  collected w u q1 q2 mk = built mk (combine l1 l2) /\
  query_log w u q1 = [] /\ query_log w u q2 = [].
Proof.
  intros (b1 & R1 & D1) (b2 & R2 & D2).
  unfold collected.
  rewrite (query_value_returns _ _ _ _ R1), (query_value_returns _ _ _ _ R2).
  unfold zip_results. rewrite D1, D2. cbn [rbind py_iter].
  rewrite (query_log_returns _ _ _ _ R1), (query_log_returns _ _ _ _ R2).
  repeat split.
Qed.


(** A collector whose first or second query failed zips with an empty
    list: its loop body never runs. *)
Lemma collected_failed {R} w u q1 q2 (mk : json -> json -> result R) :
  (exists e, request_fails w u q1 e) \/ (exists e, request_fails w u q2 e) ->
  fst (collected w u q1 q2 mk) = [].
Proof.
  unfold collected, zip_results, rbind.
  intros [[e H] | [e H]]; rewrite (query_value_failed _ _ _ _ H);
    change (data_result empty_result) with (@Ok json (JArr [])).
  - destruct (data_result (query_value w u q2)) as [rb | e2]; [| reflexivity].
    change (py_iter (JArr [])) with (@Ok (list json) []).
    destruct (py_iter rb) as [lb | e2]; reflexivity.
  - destruct (data_result (query_value w u q1)) as [ra | e1]; [| reflexivity].
    destruct (py_iter ra) as [la | e1]; [| reflexivity].
    change (py_iter (JArr [])) with (@Ok (list json) []).
    cbv iota beta. rewrite combine_nil. reflexivity.
Qed.

(* ================================================================== *)
(** ** The records *)
(* ================================================================== *)

Lemma percent_expr_percent_of (total free : pyfloat) :
  percent_expr (fsub total free) total = Ok (percent_of total free).
Proof. apply percent_expr_value. Qed.

Lemma percent_of_not_positive (total free : pyfloat) :
  fgt total f0 = false -> percent_of total free = Int 0.
Proof. unfold percent_of. intros ->. reflexivity. Qed.

Lemma percent_of_zero (total free : pyfloat) :
  is_zero total = true -> percent_of total free = Int 0.
Proof.
  intros Hz. apply percent_of_not_positive.
  destruct (fgt total f0) eqn:E; [| reflexivity].
  rewrite (fgt_zero_not_zero _ E) in Hz. discriminate.
Qed.

Lemma percent_of_positive (total free : pyfloat) :
  fgt total f0 = true ->
  percent_of total free = Float (fmul (fdiv (fsub total free) total) f100).
Proof. unfold percent_of. intros ->. reflexivity. Qed.


Lemma disk_record_inv instance size free r :
  disk_record instance size free = Ok r ->
  exists sv fv,
    sample_value size = Ok sv /\
    sample_value free = Ok fv /\
    metric_label size "device" = Ok (disk_device r) /\
    metric_label size "mountpoint" = Ok (disk_mount_point r) /\
    disk_instance r = instance /\
    disk_usage_percent r = percent_of sv fv /\
    disk_size r = _format_bytes sv /\
    disk_free r = _format_bytes fv /\
    disk_used r = _format_bytes (fsub sv fv).
Proof.
  unfold disk_record.
  destruct (sample_value size) as [sv | e]; [| discriminate].
  destruct (sample_value free) as [fv | e]; [| discriminate].
  cbn [rbind]. rewrite percent_expr_percent_of. cbn [rbind].
  destruct (metric_label size "device") as [d | e]; [| discriminate].
  destruct (metric_label size "mountpoint") as [m | e]; [| discriminate].
  cbn [rbind]. intros H; inversion H; subst; clear H. simpl.
  exists sv, fv. repeat split.
Qed.

Lemma disk_record_ok instance size free :
  disk_pair_ok size free -> exists r, disk_record instance size free = Ok r.
Proof.
  intros ([sv Hs] & [fv Hf] & [d Hd] & [m Hm]).
  unfold disk_record. rewrite Hs, Hf. cbn [rbind].
  rewrite percent_expr_percent_of. cbn [rbind]. rewrite Hd, Hm. cbn [rbind].
  eexists; reflexivity.
Qed.

Lemma mem_record_inv instance total avail r :
  mem_record instance total avail = Ok r ->
  exists tv av,
    sample_value total = Ok tv /\
    sample_value avail = Ok av /\
    mem_instance r = instance /\
    mem_usage_percent r = percent_of tv av /\
    mem_total r = _format_bytes tv /\
    mem_used r = _format_bytes (fsub tv av).
Proof.
  unfold mem_record.
  destruct (sample_value total) as [tv | e]; [| discriminate].
  destruct (sample_value avail) as [av | e]; [| discriminate].
  cbn [rbind]. rewrite percent_expr_percent_of. cbn [rbind].
  intros H; inversion H; subst; clear H. simpl.
  exists tv, av. repeat split.
Qed.

Lemma mem_record_ok instance a b :
  value_pair_ok a b -> exists r, mem_record instance a b = Ok r.
Proof.
  intros ([va Ha] & [vb Hb]). unfold mem_record. rewrite Ha, Hb.
  cbn [rbind]. rewrite percent_expr_percent_of. eexists; reflexivity.
Qed.

Lemma cpu_record_inv instance usage cores r :
  cpu_record instance usage cores = Ok r ->
  sample_value usage = Ok (cpu_usage_percent r) /\
  sample_value cores = Ok (cpu_core_num r) /\
  cpu_instance r = instance.
Proof.
  unfold cpu_record.
  destruct (sample_value usage) as [uv | e]; [| discriminate].
  destruct (sample_value cores) as [cv | e]; [| discriminate].
  cbn [rbind]. intros H; inversion H; subst; clear H. simpl.
  repeat split.
Qed.

Lemma cpu_record_ok instance a b :
  value_pair_ok a b -> exists r, cpu_record instance a b = Ok r.
Proof.
  intros ([va Ha] & [vb Hb]). unfold cpu_record. rewrite Ha, Hb.
  eexists; reflexivity.
Qed.

Lemma net_record_inv instance rx tx r :
  net_record instance rx tx = Ok r ->
  exists rv tv,
    sample_value rx = Ok rv /\
    sample_value tx = Ok tv /\
    net_instance r = instance /\
    net_download r = _format_bits_per_second rv /\
    net_upload r = _format_bits_per_second tv.
Proof.
  unfold net_record.
  destruct (sample_value rx) as [rv | e]; [| discriminate].
  destruct (sample_value tx) as [tv | e]; [| discriminate].
  cbn [rbind]. intros H; inversion H; subst; clear H. simpl.
  exists rv, tv. repeat split.
Qed.

Lemma net_record_ok instance a b :
  value_pair_ok a b -> exists r, net_record instance a b = Ok r.
Proof.
  intros ([va Ha] & [vb Hb]). unfold net_record. rewrite Ha, Hb.
  eexists; reflexivity.
Qed.

(** What each collector appends, in terms of the records it gathers. *)
Lemma disk_list_after w instance s :
  disk_list (metrics (snd (get_disk_metrics w instance s))) =
  disk_list (metrics s) ++ fst (node_disk w (url (metrics s)) instance).
Proof. rewrite get_disk_metrics_spec. reflexivity. Qed.

Lemma cpu_list_after w instance s :
  cpu_list (metrics (snd (get_cpu_metrics w instance s))) =
  cpu_list (metrics s) ++ fst (node_cpu w (url (metrics s)) instance).
Proof. rewrite get_cpu_metrics_spec. reflexivity. Qed.

Lemma mem_list_after w instance s :
  mem_list (metrics (snd (get_mem_metrics w instance s))) =
  mem_list (metrics s) ++ fst (node_mem w (url (metrics s)) instance).
Proof. rewrite get_mem_metrics_spec. reflexivity. Qed.

Lemma net_list_after w instance s :
  net_list (metrics (snd (get_net_metrics w instance s))) =
  net_list (metrics s) ++ fst (node_net w (url (metrics s)) instance).
Proof. rewrite get_net_metrics_spec. reflexivity. Qed.

Lemma collector_result w instance s :
  fst (get_disk_metrics w instance s) =
    result_of (snd (node_disk w (url (metrics s)) instance)) /\
  fst (get_cpu_metrics w instance s) =
    result_of (snd (node_cpu w (url (metrics s)) instance)) /\
  fst (get_mem_metrics w instance s) =
    result_of (snd (node_mem w (url (metrics s)) instance)) /\
  fst (get_net_metrics w instance s) =
    result_of (snd (node_net w (url (metrics s)) instance)).
Proof.
  rewrite get_disk_metrics_spec, get_cpu_metrics_spec, get_mem_metrics_spec,
    get_net_metrics_spec.
  repeat split.
Qed.

(* ================================================================== *)
(** ** The record lists *)
(* ================================================================== *)

Lemma extends_refl {A} (l : list A) : extends l l.
Proof. exists []. rewrite app_nil_r. reflexivity. Qed.

Lemma extends_trans {A} (l1 l2 l3 : list A) :
  extends l1 l2 -> extends l2 l3 -> extends l1 l3.
Proof.
  intros [a ->] [b ->]. exists (a ++ b)%list. rewrite app_assoc. reflexivity.
Qed.

Lemma extends_app {A} (l a : list A) : extends l (l ++ a).
Proof. exists a. reflexivity. Qed.

Lemma grows_refl s : grows s s.
Proof. repeat split; apply extends_refl. Qed.

Lemma grows_trans a b c : grows a b -> grows b c -> grows a c.
Proof.
  intros (H1 & H2 & H3 & H4) (K1 & K2 & K3 & K4).
  repeat split; eapply extends_trans; eassumption.
Qed.

Create HintDb lists.

#[local] Hint Resolve grows_refl extends_refl extends_app : lists.

Ltac grows_step := intros; repeat split; simpl; auto with lists.



Lemma keeps_grows_collect_node w node : keeps grows (collect_node w node).
Proof.
  apply keeps_collect_node;
    [exact grows_refl | exact grows_trans | grows_step ..].
Qed.



(** C9.  Each collector only appends to its own record list: whatever the
    instance, the backend and the state, and whether the call returns or
    raises, [get_disk_metrics] leaves the node list and the CPU, memory and
    network lists as they were and extends the disk list; and likewise
    [get_cpu_metrics], [get_mem_metrics] and [get_net_metrics] for their
    own lists. *)
Theorem collector_touches_own_list_only (w : world) (instance : json)
    (s : state) :
  (let m' := metrics (snd (get_disk_metrics w instance s)) in
   extends (disk_list (metrics s)) (disk_list m') /\
   node_list m' = node_list (metrics s) /\
   cpu_list m' = cpu_list (metrics s) /\
   mem_list m' = mem_list (metrics s) /\
   net_list m' = net_list (metrics s)) /\
  (let m' := metrics (snd (get_cpu_metrics w instance s)) in
   extends (cpu_list (metrics s)) (cpu_list m') /\
   node_list m' = node_list (metrics s) /\
   disk_list m' = disk_list (metrics s) /\
   mem_list m' = mem_list (metrics s) /\
   net_list m' = net_list (metrics s)) /\
  (let m' := metrics (snd (get_mem_metrics w instance s)) in
   extends (mem_list (metrics s)) (mem_list m') /\
   node_list m' = node_list (metrics s) /\
   disk_list m' = disk_list (metrics s) /\
   cpu_list m' = cpu_list (metrics s) /\
   net_list m' = net_list (metrics s)) /\
  (let m' := metrics (snd (get_net_metrics w instance s)) in
   extends (net_list (metrics s)) (net_list m') /\
   node_list m' = node_list (metrics s) /\
   disk_list m' = disk_list (metrics s) /\
   cpu_list m' = cpu_list (metrics s) /\
   mem_list m' = mem_list (metrics s)).
Proof.
  rewrite get_disk_metrics_spec, get_cpu_metrics_spec, get_mem_metrics_spec,
    get_net_metrics_spec.
  cbv zeta. simpl.
  repeat split; apply extends_app.
Qed.

Example demo_collect_node :
  let s := snd (collect_node demo_world node_a (initial_state [])) in
  map disk_device (disk_list (metrics s)) = [JStr "/dev/sda1"; JStr "/dev/sdb1"] /\
  map disk_size (disk_list (metrics s)) = ["100.00 GB"; "0.00 B"] /\
  map disk_used (disk_list (metrics s)) = ["50.00 GB"; "0.00 B"] /\
  map mem_used (mem_list (metrics s)) = ["6.00 GB"] /\
  map net_download (net_list (metrics s)) = ["1.50 Mbps"] /\
  map net_upload (net_list (metrics s)) = ["999.00 bps"] /\
  log s = [].
Proof. vm_compute. repeat split. Qed.





(* ================================================================== *)
(** ** Queries that fail *)
(* ================================================================== *)

(** C1 (amended).  A query never raises and never touches the metrics
    object.  When the request fails (the GET raises, the status check
    raises, or the body does not decode) it returns
    [{"data": {"result": []}}] and logs one error; a body that decodes is
    returned as it is, conforming or not.  After a failed request node
    discovery assigns the empty node list, and a collector one of whose two
    queries failed adds no record to any list. *)
Theorem query_failure_yields_empty_result (w : world) (query : string)
    (s : state) :
  (exists j, fst (_query_prometheus w query s) = Ok j) /\
  metrics (snd (_query_prometheus w query s)) = metrics s /\
  (forall e,
     request_fails w (url (metrics s)) query e ->
     _query_prometheus w query s =
       (Ok empty_result, add_log s (query_error e))) /\
  (forall j,
     request_returns w (url (metrics s)) query j ->
     _query_prometheus w query s = (Ok j, s)) /\
  (forall e,
     request_fails w (url (metrics s)) node_query e ->
     fst (get_node_metrics w s) = Ok tt /\
     node_list (metrics (snd (get_node_metrics w s))) = []) /\
  (forall instance,
     either_fails w (url (metrics s))
       (disk_query w "node_filesystem_size_bytes" instance)
       (disk_query w "node_filesystem_free_bytes" instance) ->
     metrics (snd (get_disk_metrics w instance s)) = metrics s) /\
  (forall instance,
     either_fails w (url (metrics s))
       (cpu_usage_query w instance) (cpu_core_query w instance) ->
     metrics (snd (get_cpu_metrics w instance s)) = metrics s) /\
  (forall instance,
     either_fails w (url (metrics s))
       (mem_query w "node_memory_MemTotal_bytes" instance)
       (mem_query w "node_memory_MemAvailable_bytes" instance) ->
     metrics (snd (get_mem_metrics w instance s)) = metrics s) /\
  (forall instance,
     either_fails w (url (metrics s))
       (net_query w "node_network_receive_bytes_total" instance)
       (net_query w "node_network_transmit_bytes_total" instance) ->
     metrics (snd (get_net_metrics w instance s)) = metrics s).
Proof.
  split; [rewrite query_spec; eexists; reflexivity |].
  split; [rewrite query_spec; reflexivity |].
  split.
  { intros e H. rewrite query_spec. apply request_fails_outcome in H.
    unfold query_value, query_log. rewrite H. reflexivity. }
  split.
  { intros j H. rewrite query_spec. apply request_returns_outcome in H.
    unfold query_value, query_log. rewrite H, add_logs_nil. reflexivity. }
  split.
  { intros e H. rewrite get_node_metrics_spec. cbv zeta.
    unfold discovered. rewrite (query_value_failed _ _ _ _ H).
    simpl. split; reflexivity. }
  repeat split; intros instance H.
  - rewrite get_disk_metrics_spec. cbv zeta.
    rewrite (collected_failed _ _ _ _ _ H). simpl. apply extend_disk_nil.
  - rewrite get_cpu_metrics_spec. cbv zeta.
    rewrite (collected_failed _ _ _ _ _ H). simpl. apply extend_cpu_nil.
  - rewrite get_mem_metrics_spec. cbv zeta.
    rewrite (collected_failed _ _ _ _ _ H). simpl. apply extend_mem_nil.
  - rewrite get_net_metrics_spec. cbv zeta.
    rewrite (collected_failed _ _ _ _ _ H). simpl. apply extend_net_nil.
Qed.

Lemma query_failure_yields_empty_result_witness :
  let s := initial_state [] in
  let q := disk_query refusing_world "node_filesystem_size_bytes" node_a in
  let e := OtherException "ConnectionError" in
  request_fails refusing_world demo_url q e /\
  _query_prometheus refusing_world q s =
    (Ok empty_result, add_log s (query_error e)) /\
  metrics (snd (get_disk_metrics refusing_world node_a s)) = metrics s.
Proof.
  cbv zeta.
  assert (F : request_fails refusing_world demo_url
                (disk_query refusing_world "node_filesystem_size_bytes" node_a)
                (OtherException "ConnectionError"))
    by (apply get_raises; vm_compute; reflexivity).
  split; [exact F |].
  split.
  - apply (proj1 (proj2 (proj2
             (query_failure_yields_empty_result refusing_world _
                (initial_state []))))).
    exact F.
  - apply (proj1 (proj2 (proj2 (proj2 (proj2 (proj2
             (query_failure_yields_empty_result refusing_world ""
                (initial_state [])))))))).
    left. eexists. exact F.
Defined.

(** C1, as stated, fails for a body that decodes but is not a query
    result: the query returns that body, not the empty shape, and node
    discovery raises on it. *)
Lemma nonconforming_body_is_not_emptied :
  let s := initial_state [] in
  request_returns labels_world demo_url node_query labels_body /\
  conforming labels_body = false /\
  fst (_query_prometheus labels_world node_query s) = Ok labels_body /\
  labels_body <> empty_result /\
  fst (get_node_metrics labels_world s) = Raise TypeError.
Proof.
  cbv zeta. split.
  - eexists. vm_compute. repeat split.
  - repeat split; try (vm_compute; reflexivity). discriminate.
Qed.

(* ================================================================== *)
(** ** Usage percent *)
(* ================================================================== *)

Lemma collected_reaches {R} w u q1 q2 (mk : json -> json -> result R)
    l1 l2 i a b :
  returns_samples w u q1 l1 ->
  returns_samples w u q2 l2 ->
  Forall (fun p => exists r, mk (fst p) (snd p) = Ok r)
         (firstn (S i) (combine l1 l2)) ->
  nth_error l1 i = Some a ->
  nth_error l2 i = Some b ->
  exists r, nth_error (fst (collected w u q1 q2 mk)) i = Some r /\ mk a b = Ok r.
Proof.
  intros H1 H2 Hall Ha Hb.
  destruct (collected_samples w u q1 q2 mk l1 l2 H1 H2) as (-> & _).
  apply built_reaches; [exact Hall |].
  apply nth_error_combine; assumption.
Qed.

(** C2 (amended).  Take the [i]-th capacity sample and the [i]-th free
    sample of a collector, with float values [c] and [f], where [c] is
    finite and [0 <= f <= c].  The usage percent is then the float
    [(c - f) / c * 100], each operation rounded to the nearest double,
    when [c > 0], and the int [0] when [c] is zero; it lies in
    [[0, 100]]; and when the loop reaches that pair, it is the
    [usage_percent] of the [i]-th record that [get_disk_metrics], and
    likewise [get_mem_metrics], appends. *)
Theorem usage_percent_valid_inputs (w : world) (instance : json) (s : state)
    (caps frees : list json) (i : nat) (cap free : json) (c f : pyfloat) :
  let u := url (metrics s) in
  let p := percent_of c f in
  nth_error caps i = Some cap ->
  nth_error frees i = Some free ->
  sample_value cap = Ok c ->
  sample_value free = Ok f ->
  is_double c = true -> is_finite c = true ->
  fle f0 f -> fle f c ->
  (fgt c f0 = true -> p = Float (fmul (fdiv (fsub c f) c) f100)) /\
  (is_zero c = true -> p = Int 0) /\
  in_0_100 p /\
  (returns_samples w u
     (disk_query w "node_filesystem_size_bytes" instance) caps ->
   returns_samples w u
     (disk_query w "node_filesystem_free_bytes" instance) frees ->
   Forall (fun pair => disk_pair_ok (fst pair) (snd pair))
          (firstn (S i) (combine caps frees)) ->
   exists r,
     nth_error (disk_list (metrics (snd (get_disk_metrics w instance s))))
               (List.length (disk_list (metrics s)) + i) = Some r /\
     disk_usage_percent r = p) /\
  (returns_samples w u
     (mem_query w "node_memory_MemTotal_bytes" instance) caps ->
   returns_samples w u
     (mem_query w "node_memory_MemAvailable_bytes" instance) frees ->
   Forall (fun pair => value_pair_ok (fst pair) (snd pair))
          (firstn (S i) (combine caps frees)) ->
   exists r,
     nth_error (mem_list (metrics (snd (get_mem_metrics w instance s))))
               (List.length (mem_list (metrics s)) + i) = Some r /\
     mem_usage_percent r = p).
Proof.
  cbv zeta. intros Hc Hf Sc Sf Hd Hfin H0 Hle.
  split; [apply percent_of_positive |].
  split; [apply percent_of_zero |].
  split; [apply percent_in_range; assumption |].
  split.
  - intros R1 R2 Hok.
    destruct (collected_reaches w _ _ _ (disk_record instance) caps frees i
                cap free R1 R2) as (r & Hr & Hmk); [| exact Hc | exact Hf |].
    { eapply Forall_impl; [| exact Hok]. intros [a b]. apply disk_record_ok. }
    exists r. rewrite disk_list_after, nth_error_after.
    split; [exact Hr |].
    destruct (disk_record_inv _ _ _ _ Hmk)
      as (sv & fv & Hs & Hv & _ & _ & _ & Hp & _).
    rewrite Sc in Hs. rewrite Sf in Hv. inversion Hs; inversion Hv; subst.
    exact Hp.
  - intros R1 R2 Hok.
    destruct (collected_reaches w _ _ _ (mem_record instance) caps frees i
                cap free R1 R2) as (r & Hr & Hmk); [| exact Hc | exact Hf |].
    { eapply Forall_impl; [| exact Hok]. intros [a b]. apply mem_record_ok. }
    exists r. rewrite mem_list_after, nth_error_after.
    split; [exact Hr |].
    destruct (mem_record_inv _ _ _ _ Hmk) as (tv & av & Hs & Hv & _ & Hp & _).
    rewrite Sc in Hs. rewrite Sf in Hv. inversion Hs; inversion Hv; subst.
    exact Hp.
Qed.

Lemma usage_percent_valid_inputs_witness :
  let s := initial_state [] in
  in_0_100 (percent_of (Fin 200) (Fin 50)) /\
  (exists r,
     nth_error (disk_list (metrics (snd (get_disk_metrics uneven_world node_a s))))
               1 = Some r /\
     disk_usage_percent r = Float (Fin 75)) /\
  (exists r,
     nth_error (mem_list (metrics (snd (get_mem_metrics uneven_world node_a s))))
               1 = Some r /\
     mem_usage_percent r = Float (Fin 75)).
Proof.
  cbv zeta.
  destruct (usage_percent_valid_inputs uneven_world node_a (initial_state [])
              shuffled_sizes shuffled_frees 1
              (sample [("device", "/dev/sdb1"); ("mountpoint", "/data")] "200")
              (sample [("device", "/dev/sda1"); ("mountpoint", "/")] "50")
              (Fin 200) (Fin 50))
    as (_ & _ & Hrange & Hdisk & _);
    try reflexivity; try (vm_compute; discriminate).
  destruct (usage_percent_valid_inputs uneven_world node_a (initial_state [])
              uneven_totals uneven_avails 1
              (sample [("instance", "node-a"); ("numa", "1")] "8589934592")
              (sample [("instance", "node-a"); ("numa", "0")] "2147483648")
              (Fin 8589934592) (Fin 2147483648))
    as (_ & _ & _ & _ & Hmem);
    try reflexivity; try (vm_compute; discriminate).
  split; [exact Hrange |].
  split.
  - destruct Hdisk as (r & Hr & Hp).
    + eexists. split; [eexists; vm_compute; repeat split | reflexivity].
    + eexists. split; [eexists; vm_compute; repeat split | reflexivity].
    + repeat constructor; simpl; eexists; vm_compute; reflexivity.
    + exists r. split; [exact Hr |]. rewrite Hp. vm_compute. reflexivity.
  - destruct Hmem as (r & Hr & Hp).
    + eexists. split; [eexists; vm_compute; repeat split | reflexivity].
    + eexists. split; [eexists; vm_compute; repeat split | reflexivity].
    + repeat constructor; simpl; eexists; vm_compute; reflexivity.
    + exists r. split; [exact Hr |]. rewrite Hp. vm_compute. reflexivity.
Defined.

(** C2, as stated, fails for a capacity that is not finite: the backend
    may report [+Inf], which is at least 0 and at least the free amount,
    and the percent stored is then NaN, outside [[0, 100]]. *)
Lemma infinite_capacity_gives_nan :
  let s := snd (collect_node infinite_world node_a (initial_state [])) in
  py_float (JStr "+Inf") = Ok PInf /\
  py_float (JStr "5") = Ok (Fin 5) /\
  fle f0 (Fin 5) /\ fle (Fin 5) PInf /\ fgt PInf f0 = true /\
  percent_of PInf (Fin 5) = Float NaN /\
  ~ in_0_100 (Float NaN) /\
  map disk_usage_percent (disk_list (metrics s)) = [Float NaN] /\
  map mem_usage_percent (mem_list (metrics s)) = [Float NaN].
Proof.
  cbv zeta.
  split; [vm_compute; reflexivity |].
  split; [vm_compute; reflexivity |].
  split; [vm_compute; discriminate |].
  split; [exact I |].
  split; [reflexivity |].
  split; [reflexivity |].
  split; [intros [H _]; exact H |].
  split; vm_compute; reflexivity.
Qed.

(* ================================================================== *)
(** ** Pairing by position *)
(* ================================================================== *)

(** C4 (amended).  When the two disk queries return the sample lists
    [sizes] and [frees], the collector pairs them by position: the record
    at index [i] of those it appends takes its device and mount point from
    [sizes[i]], its free space from [frees[i]], with used = size - free
    and percent = used / size * 100 (the int 0 unless size > 0).  It
    appends [min (List.length sizes) (List.length frees)] records when
    every pair is usable; at the first pair that is not, it raises,
    having appended the records of the pairs before it and no other. *)
Theorem disk_samples_paired_by_index (w : world) (instance : json)
    (s : state) (sizes frees : list json) :
  returns_samples w (url (metrics s))
    (disk_query w "node_filesystem_size_bytes" instance) sizes ->
  returns_samples w (url (metrics s))
    (disk_query w "node_filesystem_free_bytes" instance) frees ->
  exists added,
    disk_list (metrics (snd (get_disk_metrics w instance s))) =
      disk_list (metrics s) ++ added /\
    (List.length added <= Nat.min (List.length sizes) (List.length frees))%nat /\
    (forall i r,
       nth_error added i = Some r ->
       exists size free sv fv,
         nth_error sizes i = Some size /\
         nth_error frees i = Some free /\
         sample_value size = Ok sv /\
         sample_value free = Ok fv /\
         metric_label size "device" = Ok (disk_device r) /\
         metric_label size "mountpoint" = Ok (disk_mount_point r) /\
         disk_instance r = instance /\
         disk_usage_percent r = percent_of sv fv /\
         disk_size r = _format_bytes sv /\
         disk_free r = _format_bytes fv /\
         disk_used r = _format_bytes (fsub sv fv)) /\
    (Forall (fun pair => disk_pair_ok (fst pair) (snd pair))
            (combine sizes frees) ->
     fst (get_disk_metrics w instance s) = Ok tt /\
     List.length added = Nat.min (List.length sizes) (List.length frees)) /\
    (forall good size free rest e,
       combine sizes frees = good ++ (size, free) :: rest ->
       Forall (fun pair => disk_pair_ok (fst pair) (snd pair)) good ->
       disk_record instance size free = Raise e ->
       fst (get_disk_metrics w instance s) = Raise e /\
       List.length added = List.length good).
Proof.
  intros H1 H2.
  exists (fst (node_disk w (url (metrics s)) instance)).
  split; [apply disk_list_after |].
  destruct (collector_result w instance s) as (Hres & _). rewrite Hres.
  unfold node_disk.
  destruct (collected_samples w _ _ _ (disk_record instance) sizes frees H1 H2)
    as (-> & _).
  split.
  { rewrite <- (length_combine sizes frees). apply built_length_le. }
  split.
  { intros i r Hr.
    destruct (built_nth _ _ _ _ Hr) as (a & b & Hn & Hmk).
    destruct (nth_error_combine_inv _ _ _ _ _ Hn) as [Ha Hb].
    destruct (disk_record_inv _ _ _ _ Hmk) as (sv & fv & H).
    exists a, b, sv, fv. split; [exact Ha |]. split; [exact Hb | exact H]. }
  split.
  { intros Hok.
    destruct (built_all (disk_record instance) (combine sizes frees))
      as (He & Hlen & _).
    { eapply Forall_impl; [| exact Hok]. intros [a b]. apply disk_record_ok. }
    rewrite He, Hlen. split; [reflexivity | apply length_combine]. }
  intros good size free rest e Hc Hgood Hbad. rewrite Hc.
  destruct (built_stops (disk_record instance) good size free rest e)
    as [He Hall]; [| exact Hbad |].
  { eapply Forall_impl; [| exact Hgood]. intros [a b]. apply disk_record_ok. }
  rewrite He. split; [reflexivity |].
  symmetry. eapply Forall2_length. exact Hall.
Qed.

Lemma disk_samples_paired_by_index_witness :
  let r := get_disk_metrics shuffled_world node_a (initial_state []) in
  fst r = Ok tt /\
  map disk_device (disk_list (metrics (snd r))) =
    [JStr "/dev/sda1"; JStr "/dev/sdb1"] /\
  map disk_free (disk_list (metrics (snd r))) = ["150.00 B"; "50.00 B"] /\
  map disk_used (disk_list (metrics (snd r))) = ["-50.00 B"; "150.00 B"] /\
  map disk_usage_percent (disk_list (metrics (snd r))) =
    [Float (Fin (-50)); Float (Fin 75)].
Proof.
  cbv zeta.
  destruct (disk_samples_paired_by_index shuffled_world node_a
              (initial_state []) shuffled_sizes shuffled_frees)
    as (added & Hlist & _ & _ & Hall & _).
  - eexists. split; [eexists; vm_compute; repeat split | reflexivity].
  - eexists. split; [eexists; vm_compute; repeat split | reflexivity].
  - destruct Hall as [Hres Hlen].
    { repeat constructor; simpl; eexists; vm_compute; reflexivity. }
    split; [exact Hres |].
    assert (E : added =
                disk_list (metrics (snd (get_disk_metrics shuffled_world
                                           node_a (initial_state []))))).
    { rewrite Hlist. reflexivity. }
    rewrite <- E. clear Hlist Hres.
    vm_compute in E. subst added. vm_compute. repeat split.
Defined.

(** C4, as stated, fails when a paired sample is unusable: with three
    size samples and three free samples, the second size sample lacking
    its value, the collector appends one record, not three, and raises. *)
Lemma unusable_sample_ends_the_pairing :
  let r := get_disk_metrics half_broken_world node_a (initial_state []) in
  returns_samples half_broken_world demo_url
    (disk_query half_broken_world "node_filesystem_size_bytes" node_a)
    half_broken_sizes /\
  returns_samples half_broken_world demo_url
    (disk_query half_broken_world "node_filesystem_free_bytes" node_a)
    half_broken_frees /\
  Nat.min (List.length half_broken_sizes) (List.length half_broken_frees)
    = 3%nat /\
  fst r = Raise (KeyError "value") /\
  map disk_device (disk_list (metrics (snd r))) = [JStr "/dev/sda1"].
Proof.
  cbv zeta.
  split; [eexists; split; [eexists; vm_compute; repeat split | reflexivity] |].
  split; [eexists; split; [eexists; vm_compute; repeat split | reflexivity] |].
  repeat split; vm_compute; reflexivity.
Qed.

(* ================================================================== *)
(** ** No clamp *)
(* ================================================================== *)




(* ================================================================== *)
(** ** The formatters *)
(* ================================================================== *)

(** The loop stops at the first unit at which the value is below the
    base, after dividing once per unit passed. *)
Lemma format_loop_stops base units last :
  forall x k,
    (k <= List.length units)%nat ->
    (forall i, (i < k)%nat -> flt (scaled base i x) base = false) ->
    ((k < List.length units)%nat -> flt (scaled base k x) base = true) ->
    format_loop base units last x =
      (format_2f (scaled base k x) ++ " " ++ nth k units last)%string.
Proof.
  induction units as [| unit rest IH]; intros x k Hk Hpass Hstop; simpl in *.
  - assert (k = 0%nat) by lia. subst. reflexivity.
  - destruct k as [| k].
    + assert (E : flt x base = true) by (apply Hstop; lia).
      rewrite E. reflexivity.
    + assert (E : flt x base = false) by (apply (Hpass 0%nat); lia).
      rewrite E. simpl scaled. apply IH.
      * lia.
      * intros i Hi. apply (Hpass (S i)). lia.
      * intros Hlt. apply Hstop. lia.
Qed.

Lemma threshold_ge_1 (b : Q) k : 1 <= b -> 1 <= threshold b k.
Proof.
  intros Hb. induction k as [| k IH]; simpl; [lra |].
  assert (0 <= (b - 1) * (threshold b k - 1)) by (apply Qmult_le_0_compat; lra).
  lra.
Qed.

(** A value at or above [base ^ n], finite or infinite, passes all [n]
    units: each division, rounded, stays at or above the next lower
    power. *)
Lemma format_loop_falls_through (b : Q) units last :
  1 < b ->
  (forall k, (k <= List.length units)%nat -> on_grid (threshold b k) = true) ->
  forall x,
    fle (Fin (threshold b (List.length units))) x ->
    format_loop (Fin b) units last x =
      (format_2f (scaled (Fin b) (List.length units) x) ++ " " ++ last)%string /\
    fle (Fin 1) (scaled (Fin b) (List.length units) x).
Proof.
  intros Hb. induction units as [| unit rest IH]; intros G x Hx.
  - split; [reflexivity | exact Hx].
  - cbn [List.length threshold] in Hx.
    assert (H1 : 1 <= threshold b (List.length rest))
      by (apply threshold_ge_1; lra).
    cbn [format_loop List.length scaled].
    rewrite (flt_above b (threshold b (List.length rest)) x) by (lra || assumption).
    apply IH.
    + intros k Hk. apply G. simpl. lia.
    + apply fdiv_above; [lra | lra | apply G; simpl; lia | exact Hx].
Qed.

Lemma two_digits_length z :
  (0 <= z < 100)%Z -> String.length (two_digits z) = 2%nat.
Proof.
  intros Hz.
  assert (H : forallb (fun n => (String.length (two_digits (Z.of_nat n)) =? 2)%nat)
                (seq 0 100) = true) by (vm_compute; reflexivity).
  rewrite forallb_forall in H.
  specialize (H (Z.to_nat z)).
  rewrite Z2Nat.id in H by lia.
  apply Nat.eqb_eq, H, in_seq. lia.
Qed.

(** [.2f] on a finite non-negative value: an integer part, a point and
    exactly two digits, which together are the value rounded to the
    nearest hundredth. *)
Lemma format_2f_shape (q : Q) :
  0 <= q ->
  exists c : Z,
    format_2f (Fin q) =
      (string_of_Z (c / 100) ++ "." ++ two_digits (c mod 100))%string /\
    String.length (two_digits (c mod 100)) = 2%nat /\
    q * 100 - (1 # 2) <= inject_Z c /\ inject_Z c <= q * 100 + (1 # 2).
Proof.
  intros Hq. exists (round_half_even (q * 100)).
  split.
  - unfold format_2f, Qsign_neg.
    replace (Qltb q 0) with false by (symmetry; apply Qltb_ge; exact Hq).
    reflexivity.
  - split; [apply two_digits_length, Z.mod_pos_bound; lia |].
    apply round_half_even_near.
Qed.

Lemma byte_thresholds_on_grid k :
  (k <= 5)%nat -> on_grid (threshold 1024 k) = true.
Proof.
  intros Hk.
  do 6 (destruct k as [| k]; [vm_compute; reflexivity |]). lia.
Qed.

Lemma bit_thresholds_on_grid k :
  (k <= 4)%nat -> on_grid (threshold 1000 k) = true.
Proof.
  intros Hk.
  do 5 (destruct k as [| k]; [vm_compute; reflexivity |]). lia.
Qed.

(** C5.  The byte formatter divides by 1024 through B, KB, MB, GB, TB,
    stops at the first unit at which the value is below 1024 and prints
    it with two decimals; a value of at least 1024^5 passes every unit and
    is printed in PB with a magnitude of at least 1.  The bitrate formatter
    does the same with 1000 through bps, Kbps, Mbps, Gbps, ending in
    Tbps.  The listed values format as listed. *)
Theorem formatters_walk_the_units :
  (_format_bytes (Fin 0) = "0.00 B" /\
   _format_bytes (Fin 1024) = "1.00 KB" /\
   _format_bytes (Fin 1536) = "1.50 KB" /\
   _format_bytes (Fin (1024 ^ 4)) = "1.00 TB" /\
   _format_bits_per_second (Fin 0) = "0.00 bps" /\
   _format_bits_per_second (Fin 1000) = "1.00 Kbps" /\
   _format_bits_per_second (Fin 1000000) = "1.00 Mbps") /\
  (forall x k,
     (k <= 5)%nat ->
     (forall i, (i < k)%nat -> flt (scaled f1024 i x) f1024 = false) ->
     ((k < 5)%nat -> flt (scaled f1024 k x) f1024 = true) ->
     _format_bytes x =
       (format_2f (scaled f1024 k x) ++ " " ++ nth k byte_units "PB")%string) /\
  (forall x,
     fle (Fin (1024 ^ 5)) x ->
     _format_bytes x = (format_2f (scaled f1024 5 x) ++ " PB")%string /\
     fle (Fin 1) (scaled f1024 5 x)) /\
  (forall x k,
     (k <= 4)%nat ->
     (forall i, (i < k)%nat -> flt (scaled f1000 i x) f1000 = false) ->
     ((k < 4)%nat -> flt (scaled f1000 k x) f1000 = true) ->
     _format_bits_per_second x =
       (format_2f (scaled f1000 k x) ++ " " ++ nth k bit_units "Tbps")%string) /\
  (forall q : Q,
     0 <= q ->
     exists c : Z,
       format_2f (Fin q) =
         (string_of_Z (c / 100) ++ "." ++ two_digits (c mod 100))%string /\
       String.length (two_digits (c mod 100)) = 2%nat /\
       q * 100 - (1 # 2) <= inject_Z c /\ inject_Z c <= q * 100 + (1 # 2)).
Proof.
  split; [repeat split; vm_compute; reflexivity |].
  split; [intros x k; apply (format_loop_stops f1024 byte_units "PB") |].
  split.
  { intros x Hx.
    apply (format_loop_falls_through 1024 byte_units "PB");
      [lra | exact byte_thresholds_on_grid |].
    destruct x as [q | | | |]; simpl in Hx |- *; try contradiction;
      try exact I; exact Hx. }
  split; [intros x k; apply (format_loop_stops f1000 bit_units "Tbps") |].
  apply format_2f_shape.
Qed.

Lemma formatters_walk_the_units_witness :
  _format_bytes (Fin 5000000) =
    (format_2f (scaled f1024 2 (Fin 5000000)) ++ " MB")%string /\
  (_format_bytes (Fin (3 * 1024 ^ 5)) =
     (format_2f (scaled f1024 5 (Fin (3 * 1024 ^ 5))) ++ " PB")%string /\
   fle (Fin 1) (scaled f1024 5 (Fin (3 * 1024 ^ 5)))) /\
  _format_bits_per_second (Fin 2500) =
    (format_2f (scaled f1000 1 (Fin 2500)) ++ " Kbps")%string /\
  _format_bytes (Fin 5000000) = "4.77 MB" /\
  _format_bytes (Fin (3 * 1024 ^ 5)) = "3.00 PB".
Proof.
  destruct formatters_walk_the_units as (_ & Hbytes & Hpb & Hbits & _).
  split.
  { apply (Hbytes (Fin 5000000) 2%nat); [lia | |].
    - intros [| [| i]] Hi; try lia; vm_compute; reflexivity.
    - intros _. vm_compute; reflexivity. }
  split.
  { apply Hpb. vm_compute. discriminate. }
  split.
  { apply (Hbits (Fin 2500) 1%nat); [lia | |].
    - intros [| i] Hi; try lia; vm_compute; reflexivity.
    - intros _. vm_compute; reflexivity. }
  split; vm_compute; reflexivity.
Defined.

(* ================================================================== *)
(** ** The notifier *)
(* ================================================================== *)

Lemma create_message_spec w config subject body html s :
  _create_message w config subject body html s =
  match MIMEText_raises w body (content_type_of html) with
  | Some e => (Raise e, s)
  | None => (Ok (text_message config subject body html), s)
  end.
Proof.
  unfold _create_message, content_type_of.
  destruct (MIMEText_raises w body _); reflexivity.
Qed.

Lemma add_parts_nil m : add_parts m [] = m.
Proof. destruct m; unfold add_parts; simpl; rewrite app_nil_r; reflexivity. Qed.

Lemma add_parts_app m l1 l2 :
  add_parts (add_parts m l1) l2 = add_parts m (l1 ++ l2).
Proof. unfold add_parts; simpl; rewrite app_assoc; reflexivity. Qed.

Lemma attach_file_spec message p s :
  attach_file message p s =
  match read_result (files s) p with
  | Ok payload => (Ok (add_parts message [attachment_part p payload]), s)
  | Raise e => (Ok message, add_logs s [attachment_error p e])
  end.
Proof.
  unfold attach_file, try_except, bind, read_bytes, read_result.
  destruct (assoc p (files s)) as [[payload | e] |]; reflexivity.
Qed.

(** Attaching never raises: each path contributes a part or an error
    record. *)
Lemma attach_files_spec paths : forall message s,
  attach_files message paths s =
  (Ok (add_parts message (readable_parts (files s) paths)),
   add_logs s (attachment_errors (files s) paths)).
Proof.
  induction paths as [| p rest IH]; intros message s; simpl.
  - unfold ret. rewrite add_parts_nil, add_logs_nil. reflexivity.
  - unfold bind. rewrite attach_file_spec.
    destruct (read_result (files s) p) as [payload | e].
    + rewrite IH, add_parts_app. reflexivity.
    + rewrite IH. simpl files. rewrite add_logs_app. reflexivity.
Qed.

Lemma add_attachments_spec message attachments s :
  _add_attachments message attachments s =
  (Ok (add_parts message (readable_parts (files s) (paths_of attachments))),
   add_logs s (attachment_errors (files s) (paths_of attachments))).
Proof.
  destruct attachments as [[| p rest] |].
  - unfold _add_attachments, ret. simpl. rewrite add_parts_nil, add_logs_nil.
    reflexivity.
  - apply (attach_files_spec (p :: rest)).
  - unfold _add_attachments, ret. simpl. rewrite add_parts_nil, add_logs_nil.
    reflexivity.
Qed.

Lemma send_message_accepted w config message s :
  smtp_accepts w config message ->
  _send_message w config message s = (Ok true, delivered s config message).
Proof.
  intros (Hc & Ht & Hl & Hm & Hq).
  unfold _send_message, try_except, with_SMTP, sendmail, bind, smtp, modify,
    logger_info, ret.
  rewrite Hc, Ht, Hl, Hm, Hq. simpl.
  unfold delivered, session, add_log, add_wire, add_outbox. simpl.
  rewrite <- !app_assoc. reflexivity.
Qed.

(** [_send_message] never raises: it returns [True] after a complete
    session, and [False] with one error record when a step fails. *)
Lemma send_message_total w config message s :
  exists b s',
    _send_message w config message s = (Ok b, s') /\
    metrics s' = metrics s /\
    files s' = files s /\
    (b = true -> smtp_accepts w config message /\
                 s' = delivered s config message) /\
    (b = false -> ~ smtp_accepts w config message /\
                  exists e,
                    log s' = log s ++ [send_error "Error sending email: " e]).
Proof.
  unfold smtp_accepts.
  destruct (SMTP_connect w (smtp_server config) (smtp_port config))
    as [| e | e] eqn:Hc;
  [ destruct (SMTP_starttls w) as [| e | e] eqn:Ht;
    destruct (SMTP_login w (username config) (password config))
      as [| e' | e'] eqn:Hl;
    destruct (SMTP_sendmail w (username config) (recipients config) message)
      as [| e'' | e''] eqn:Hm;
    destruct (SMTP_quit w) as [| e''' | e'''] eqn:Hq | | ];
  unfold _send_message, try_except, with_SMTP, sendmail, bind, smtp, modify,
    logger_info, logger_error, ret;
  rewrite ?Hc, ?Ht, ?Hl, ?Hm, ?Hq; simpl;
  eexists; eexists; (split; [reflexivity |]);
  (split; [reflexivity |]); (split; [reflexivity |]);
  (split; [intros Hb; try discriminate Hb |
           intros Hb; try discriminate Hb]);
  try (split; [intros (H1 & H2 & H3 & H4 & H5); discriminate
              | eexists; reflexivity]).
  split; [repeat split |].
  unfold delivered, session, add_log, add_wire, add_outbox; simpl.
  rewrite <- !app_assoc. reflexivity.
Qed.

Lemma send_spec w config subject body html attachments s :
  send w config subject body html attachments s =
  match MIMEText_raises w body (content_type_of html) with
  | Some e => (Ok false, add_log s (send_error "Failed to send email: " e))
  | None =>
      _send_message w config
        (composed_message config subject body html (files s) attachments)
        (add_logs s (attachment_errors (files s) (paths_of attachments)))
  end.
Proof.
  unfold send, try_except. unfold bind at 1. rewrite create_message_spec.
  destruct (MIMEText_raises w body (content_type_of html)) as [e |].
  - reflexivity.
  - unfold bind. rewrite add_attachments_spec.
    unfold composed_message.
    destruct (send_message_total w config
                (add_parts (text_message config subject body html)
                   (readable_parts (files s) (paths_of attachments)))
                (add_logs s (attachment_errors (files s) (paths_of attachments))))
      as (b & s' & E & _).
    rewrite E. reflexivity.
Qed.

Lemma readable_parts_In fs paths part :
  In part (readable_parts fs paths) <->
  exists p payload,
    In p paths /\ read_result fs p = Ok payload /\
    part = attachment_part p payload.
Proof.
  induction paths as [| p rest IH]; simpl.
  - split; [intros [] | intros (p & payload & [] & _)].
  - split.
    + destruct (read_result fs p) as [payload | e] eqn:E.
      * intros [<- | H].
        -- exists p, payload. repeat split; [left; reflexivity | assumption].
        -- apply IH in H. destruct H as (p' & payload' & Hin & Hr & Hp).
           exists p', payload'. repeat split; [right |..]; assumption.
      * intros H. apply IH in H. destruct H as (p' & payload' & Hin & Hr & Hp).
        exists p', payload'. repeat split; [right |..]; assumption.
    + intros (p' & payload' & [-> | Hin] & Hr & ->).
      * rewrite Hr. left; reflexivity.
      * assert (H : In (attachment_part p' payload') (readable_parts fs rest))
          by (apply IH; exists p', payload'; repeat split; assumption).
        destruct (read_result fs p); [right |]; exact H.
Qed.

Lemma attachment_errors_In fs paths p e :
  In p paths -> read_result fs p = Raise e ->
  In (attachment_error p e) (attachment_errors fs paths).
Proof.
  induction paths as [| p0 rest IH]; simpl; [intros [] |].
  intros [-> | Hin] Hr.
  - rewrite Hr. left; reflexivity.
  - destruct (read_result fs p0); [| right]; apply IH; assumption.
Qed.

Lemma parts_and_errors_count fs paths :
  (List.length (readable_parts fs paths)
   + List.length (attachment_errors fs paths))%nat = List.length paths.
Proof.
  induction paths as [| p rest IH]; simpl; [reflexivity |].
  destruct (read_result fs p); simpl; lia.
Qed.

(** C8.  Attaching never raises.  A path that cannot be read is logged
    and skipped; every path that can be read gives a part, in order; and
    when the text part is built and the server accepts the session, [send]
    returns [True] having submitted the body with exactly the readable
    attachments. *)
Theorem unreadable_attachment_is_skipped (w : world) (config : EmailConfig)
    (subject body : string) (html : bool) (message : MIMEMultipart)
    (attachments : option (list Path)) (s : state) :
  let fs := files s in
  let paths := paths_of attachments in
  _add_attachments message attachments s =
    (Ok (add_parts message (readable_parts fs paths)),
     add_logs s (attachment_errors fs paths)) /\
  (forall p e,
     In p paths -> read_result fs p = Raise e ->
     In (attachment_error p e) (attachment_errors fs paths)) /\
  (forall part,
     In part (readable_parts fs paths) <->
     exists p payload,
       In p paths /\ read_result fs p = Ok payload /\
       part = attachment_part p payload) /\
  (List.length (readable_parts fs paths)
   + List.length (attachment_errors fs paths))%nat = List.length paths /\
  (MIMEText_raises w body (content_type_of html) = None ->
   smtp_accepts w config
     (composed_message config subject body html fs attachments) ->
   exists s',
     send w config subject body html attachments s = (Ok true, s') /\
     outbox s' =
       outbox s ++
       [(username config, recipients config,
         composed_message config subject body html fs attachments)] /\
     parts (composed_message config subject body html fs attachments) =
       MIMEText body (content_type_of html) :: readable_parts fs paths /\
     log s' = log s ++ attachment_errors fs paths ++ [sent_info]).
Proof.
  cbv zeta.
  split; [apply add_attachments_spec |].
  split; [intros p e; apply attachment_errors_In |].
  split; [intros part; apply readable_parts_In |].
  split; [apply parts_and_errors_count |].
  intros Htext Hsmtp. rewrite send_spec, Htext.
  rewrite (send_message_accepted _ _ _ _ Hsmtp).
  eexists. split; [reflexivity |]. simpl.
  rewrite <- app_assoc. repeat split.
Qed.

Lemma unreadable_attachment_is_skipped_witness :
  exists s',
    send quiet_world demo_config "Daily report" "<html></html>" true
         (Some ["missing.xlsx"; "report.xlsx"]) (initial_state one_file)
      = (Ok true, s') /\
    map (fun m => parts (snd m)) (outbox s') =
      [[MIMEText "<html></html>" "html";
        MIMEBase_octet_stream [Byte.x50; Byte.x4b]
          "attachment; filename=report.xlsx"]] /\
    log s' =
      [attachment_error "missing.xlsx" (OtherException "FileNotFoundError");
       sent_info].
Proof.
  destruct (unreadable_attachment_is_skipped quiet_world demo_config
              "Daily report" "<html></html>" true
              {| headers := []; parts := [] |}
              (Some ["missing.xlsx"; "report.xlsx"]) (initial_state one_file))
    as (_ & _ & _ & _ & Hsend).
  destruct Hsend as (s' & Hrun & Hout & Hparts & Hlog).
  - reflexivity.
  - repeat split.
  - exists s'. split; [exact Hrun |].
    split; [rewrite Hout; vm_compute; reflexivity |].
    rewrite Hlog. vm_compute. reflexivity.
Defined.

(** C6 (amended).  [send] always returns a boolean and never raises.  It
    returns [True] exactly when the text part is built and every step of
    the SMTP session (connection, STARTTLS, login, submission, QUIT)
    succeeds; the message is then in the outbox.  A failure to build the
    message or a failure of the session is caught, logged as an error and
    turned into [False].  A failure to read an attachment is caught and
    logged inside the attachment step and does not by itself change the
    value returned. *)
Theorem send_returns_a_boolean (w : world) (config : EmailConfig)
    (subject body : string) (html : bool) (attachments : option (list Path))
    (s : state) :
  let message :=
    composed_message config subject body html (files s) attachments in
  exists b s',
    send w config subject body html attachments s = (Ok b, s') /\
    (b = true <->
       MIMEText_raises w body (content_type_of html) = None /\
       smtp_accepts w config message) /\
    (b = true ->
       outbox s' =
         outbox s ++ [(username config, recipients config, message)] /\
       log s' =
         log s ++ attachment_errors (files s) (paths_of attachments)
         ++ [sent_info]) /\
    (b = false ->
       exists before prefix e,
         log s' = before ++ [send_error prefix e] /\
         (prefix = "Failed to send email: " \/
          prefix = "Error sending email: ")) /\
    ((exists e, MIMEText_raises w body (content_type_of html) = Some e) \/
     exists l,
       log s' =
         log s ++ attachment_errors (files s) (paths_of attachments) ++ l).
Proof.
  cbv zeta. rewrite send_spec.
  destruct (MIMEText_raises w body (content_type_of html)) as [e |] eqn:Htext.
  - exists false. eexists. split; [reflexivity |].
    split; [split; [discriminate | intros [H _]; discriminate] |].
    split; [discriminate |].
    split.
    + intros _. exists (log s), "Failed to send email: ", e.
      split; [reflexivity | left; reflexivity].
    + left. exists e. reflexivity.
  - destruct (send_message_total w config
                (composed_message config subject body html (files s) attachments)
                (add_logs s (attachment_errors (files s) (paths_of attachments))))
      as (b & s' & E & _ & _ & Htrue & Hfalse).
    exists b, s'. split; [exact E |].
    destruct b.
    + destruct (Htrue eq_refl) as (Hacc & ->).
      split; [split; [intros _; split; [reflexivity | exact Hacc]
                     | reflexivity] |].
      split.
      { intros _. simpl. rewrite <- app_assoc. split; reflexivity. }
      split; [discriminate |].
      right. exists [sent_info]. simpl. rewrite <- app_assoc. reflexivity.
    + destruct (Hfalse eq_refl) as (Hrej & e & Hlog).
      split; [split; [discriminate | intros [_ H]; contradiction] |].
      split; [discriminate |].
      split.
      * intros _. eexists. exists "Error sending email: ", e.
        split; [exact Hlog | right; reflexivity].
      * right. eexists. rewrite Hlog. simpl. rewrite <- app_assoc.
        reflexivity.
Qed.

Lemma send_returns_a_boolean_witness :
  exists s',
    send rejecting_world demo_config "Daily report" "<html></html>" true
         (Some ["report.xlsx"]) (initial_state one_file) = (Ok false, s') /\
    outbox s' = [] /\
    exists before prefix e, log s' = before ++ [send_error prefix e].
Proof.
  destruct (send_returns_a_boolean rejecting_world demo_config "Daily report"
              "<html></html>" true (Some ["report.xlsx"])
              (initial_state one_file))
    as (b & s' & Hrun & Hiff & _ & Hfalse & _).
  assert (Hb : b = false).
  { destruct b; [| reflexivity].
    destruct (proj1 Hiff eq_refl) as (_ & _ & _ & Hlogin & _).
    vm_compute in Hlogin. discriminate Hlogin. }
  subst b. exists s'. split; [exact Hrun |].
  split.
  - assert (E : snd (send rejecting_world demo_config "Daily report"
                       "<html></html>" true (Some ["report.xlsx"])
                       (initial_state one_file)) = s')
      by (rewrite Hrun; reflexivity).
    rewrite <- E. vm_compute. reflexivity.
  - destruct (Hfalse eq_refl) as (before & prefix & e & Hlog & _).
    exists before, prefix, e. exact Hlog.
Defined.

(** C6, as stated, fails: a failure in attachment handling is caught and
    logged, but it is not converted to a false return. *)
Lemma attachment_failure_still_returns_true :
  let r := send quiet_world demo_config "Daily report" "<html></html>" true
             (Some ["missing.xlsx"]) (initial_state []) in
  read_result (files (initial_state [])) "missing.xlsx" =
    Raise (OtherException "FileNotFoundError") /\
  fst r = Ok true /\
  log (snd r) =
    [attachment_error "missing.xlsx" (OtherException "FileNotFoundError");
     sent_info] /\
  map (fun m => parts (snd m)) (outbox (snd r)) =
    [[MIMEText "<html></html>" "html"]].
Proof. cbv zeta. repeat split; vm_compute; reflexivity. Qed.

(* ================================================================== *)
(** ** The orchestrator *)
(* ================================================================== *)

Lemma no_smtp_refl s : no_smtp s s.
Proof. split; reflexivity. Qed.

Lemma no_smtp_trans a b c : no_smtp a b -> no_smtp b c -> no_smtp a c.
Proof. intros [H1 H2] [K1 K2]. split; congruence. Qed.

(** Nothing before the call of [send] talks to the mail server. *)
Lemma collect_and_render_no_smtp w : keeps no_smtp (collect_and_render w).
Proof.
  apply keeps_collect_and_render;
    solve [exact no_smtp_refl | exact no_smtp_trans
          | intros; split; reflexivity].
Qed.

Lemma send_never_raises w config subject body html attachments s :
  exists b s', send w config subject body html attachments s = (Ok b, s').
Proof.
  rewrite send_spec.
  destruct (MIMEText_raises w body (content_type_of html)) as [e |].
  - eexists; eexists; reflexivity.
  - match goal with |- context [_send_message w config ?m ?s0] =>
      destruct (send_message_total w config m s0) as (b & s' & E & _)
    end.
    exists b, s'. exact E.
Qed.

Lemma try_except_bind {A B} (m : M A) (k : A -> M B) (h : exn -> M B) s :
  try_except (bind m k) h s =
  match m s with
  | (Ok a, s1) => try_except (k a) h s1
  | (Raise e, s1) => h e s1
  end.
Proof.
  unfold try_except, bind. destruct (m s) as [[a | e] s1]; reflexivity.
Qed.

Lemma bind_run {A B} (m : M A) (k : A -> M B) s :
  bind m k s =
  match m s with
  | (Ok a, s1) => k a s1
  | (Raise e, s1) => (Raise e, s1)
  end.
Proof. reflexivity. Qed.

(** [run], split at the call of [send]. *)
Lemma run_spec w config s :
  run w config s =
  match collect_and_render w s with
  | (Ok html_report, s1) =>
      (Ok tt, snd (send w config (subject config) html_report true
                     (Some ["report.xlsx"]) s1))
  | (Raise e, s1) => (Ok tt, add_log s1 (run_error e))
  end.
Proof.
  unfold run, collect_and_render.
  rewrite try_except_bind, (bind_run (get_node_metrics w)).
  destruct (get_node_metrics w s) as [[[] | e] s1]; [| reflexivity].
  rewrite try_except_bind, (bind_run self_metrics).
  unfold self_metrics at 1 2.
  rewrite try_except_bind, (bind_run (for_each _ _)).
  destruct (for_each _ _ s1) as [[[] | e] s2]; [| reflexivity].
  rewrite try_except_bind, (bind_run (generate_excel_report w _)).
  destruct (generate_excel_report w "report.xlsx" s2) as [[[] | e] s3];
    [| reflexivity].
  rewrite try_except_bind.
  destruct (generate_html_report w s3) as [[html | e] s4]; [| reflexivity].
  unfold try_except, bind, ret.
  match goal with
  | |- context [send ?a ?b ?c ?d ?e ?f ?g] =>
      destruct (send_never_raises a b c d e f g) as (b' & s5 & E);
      change (send a b c d e f g) with
        (send w config (subject config) html true (Some ["report.xlsx"]) s4);
      change (send a b c d e f g) with
        (send w config (subject config) html true (Some ["report.xlsx"]) s4)
        in E
  end.
  rewrite E. reflexivity.
Qed.

Lemma bind_ok {A B} (m : M A) (k : A -> M B) s a s1 :
  m s = (Ok a, s1) -> bind m k s = k a s1.
Proof. intros H. unfold bind. rewrite H. reflexivity. Qed.

Lemma bind_raise {A B} (m : M A) (k : A -> M B) s e :
  fst (m s) = Raise e -> fst (bind m k s) = Raise e.
Proof.
  unfold bind. destruct (m s) as [[a | e'] s1]; simpl; intros H;
    [discriminate H | inversion H; reflexivity].
Qed.

Lemma raises_before_send_iff w s e :
  raises_before_send w s e <-> fst (collect_and_render w s) = Raise e.
Proof.
  unfold collect_and_render. split.
  - intros [H | s1 H1 H | s1 s2 H1 H2 H | s1 s2 s3 H1 H2 H3 H].
    + apply bind_raise. exact H.
    + rewrite (bind_ok _ _ _ _ _ H1).
      rewrite (bind_ok self_metrics _ s1 (metrics s1) s1 eq_refl).
      apply bind_raise. exact H.
    + rewrite (bind_ok _ _ _ _ _ H1).
      rewrite (bind_ok self_metrics _ s1 (metrics s1) s1 eq_refl).
      rewrite (bind_ok _ _ _ _ _ H2).
      apply bind_raise. exact H.
    + rewrite (bind_ok _ _ _ _ _ H1).
      rewrite (bind_ok self_metrics _ s1 (metrics s1) s1 eq_refl).
      rewrite (bind_ok _ _ _ _ _ H2).
      rewrite (bind_ok _ _ _ _ _ H3).
      exact H.
  - destruct (get_node_metrics w s) as [[[] | e'] s1] eqn:E1.
    2: { intros H. rewrite bind_run, E1 in H. simpl in H.
         inversion H; subst. apply discovery_raises.
         rewrite E1. reflexivity. }
    rewrite (bind_ok _ _ _ _ _ E1).
    rewrite (bind_ok self_metrics _ s1 (metrics s1) s1 eq_refl).
    destruct (for_each (node_list (metrics s1)) (collect_node w) s1)
      as [[[] | e'] s2] eqn:E2.
    2: { intros H. rewrite bind_run, E2 in H. simpl in H.
         inversion H; subst. eapply collector_raises; [exact E1 |].
         rewrite E2. reflexivity. }
    rewrite (bind_ok _ _ _ _ _ E2).
    destruct (generate_excel_report w "report.xlsx" s2)
      as [[[] | e'] s3] eqn:E3.
    2: { intros H. rewrite bind_run, E3 in H. simpl in H.
         inversion H; subst.
         eapply spreadsheet_raises; [exact E1 | exact E2 |].
         rewrite E3. reflexivity. }
    rewrite (bind_ok _ _ _ _ _ E3).
    intros H. eapply report_raises; eassumption.
Qed.

(** C7.  [run] never raises to its caller.  When a step before [send]
    raises (discovery, a collector, the spreadsheet or the HTML report),
    the run ends there: the exception is logged, no SMTP command is issued
    and no message is submitted.  When those steps all return, the run is
    the call of [send] on the report. *)
Theorem failure_before_send_sends_nothing (w : world) (config : EmailConfig)
    (s : state) :
  fst (run w config s) = Ok tt /\
  (forall e,
     raises_before_send w s e ->
     exists s1,
       collect_and_render w s = (Raise e, s1) /\
       run w config s = (Ok tt, add_log s1 (run_error e)) /\
       log (snd (run w config s)) = log s1 ++ [run_error e] /\
       wire (snd (run w config s)) = wire s /\
       outbox (snd (run w config s)) = outbox s) /\
  (forall html_report s1,
     collect_and_render w s = (Ok html_report, s1) ->
     snd (run w config s) =
       snd (send w config (subject config) html_report true
              (Some ["report.xlsx"]) s1)).
Proof.
  split; [| split].
  - rewrite run_spec. destruct (collect_and_render w s) as [[h | e] s1];
      reflexivity.
  - intros e H. apply raises_before_send_iff in H.
    destruct (collect_and_render_no_smtp w s) as [Hw Ho].
    rewrite run_spec.
    destruct (collect_and_render w s) as [[h | e'] s1]; simpl in *;
      [discriminate |].
    inversion H; subst. exists s1. repeat split; assumption.
  - intros h s1 H. rewrite run_spec, H. reflexivity.
Qed.

Lemma failure_before_send_sends_nothing_witness :
  let s := initial_state [] in
  (let s' := snd (run range_world demo_config s) in
   log s' = [run_error (KeyError "value")] /\ wire s' = [] /\ outbox s' = []) /\
  (let s' := snd (run excel_failing_world demo_config s) in
   log s' = [run_error (OtherException "PermissionError")] /\
   wire s' = [] /\ outbox s' = []) /\
  (let s' := snd (run template_failing_world demo_config s) in
   (exists before,
      log s' = before ++ [run_error (OtherException "TemplateNotFound")]) /\
   wire s' = [] /\ outbox s' = []).
Proof.
  cbv zeta.
  split; [| split].
  - destruct (failure_before_send_sends_nothing range_world demo_config
                (initial_state [])) as (_ & Hfail & _).
    destruct (Hfail (KeyError "value")) as (s1 & Hpre & _ & Hlog & Hwire & Hout).
    + apply (collector_raises _ _ _
               (snd (get_node_metrics range_world (initial_state []))));
        vm_compute; reflexivity.
    + rewrite Hlog, Hwire, Hout.
      assert (E : snd (collect_and_render range_world (initial_state [])) = s1)
        by (rewrite Hpre; reflexivity).
      rewrite <- E. vm_compute. repeat split.
  - destruct (failure_before_send_sends_nothing excel_failing_world
                demo_config (initial_state [])) as (_ & Hfail & _).
    destruct (Hfail (OtherException "PermissionError"))
      as (s1 & Hpre & _ & Hlog & Hwire & Hout).
    + pose (s1 := snd (get_node_metrics excel_failing_world (initial_state []))).
      pose (s2 := snd (for_each (node_list (metrics s1))
                         (collect_node excel_failing_world) s1)).
      apply (spreadsheet_raises _ _ _ s1 s2); vm_compute; reflexivity.
    + rewrite Hlog, Hwire, Hout.
      assert (E : snd (collect_and_render excel_failing_world
                         (initial_state [])) = s1)
        by (rewrite Hpre; reflexivity).
      rewrite <- E. vm_compute. repeat split.
  - destruct (failure_before_send_sends_nothing template_failing_world
                demo_config (initial_state [])) as (_ & Hfail & _).
    destruct (Hfail (OtherException "TemplateNotFound"))
      as (s1 & Hpre & _ & Hlog & Hwire & Hout).
    + pose (s1 := snd (get_node_metrics template_failing_world
                         (initial_state []))).
      pose (s2 := snd (for_each (node_list (metrics s1))
                         (collect_node template_failing_world) s1)).
      pose (s3 := snd (generate_excel_report template_failing_world
                         "report.xlsx" s2)).
      apply (report_raises _ _ _ s1 s2 s3); vm_compute; reflexivity.
    + rewrite Hlog, Hwire, Hout. split; [eexists; reflexivity |].
      split; reflexivity.
Defined.

Example demo_run :
  let s' := snd (run demo_world demo_config (initial_state [])) in
  node_list (metrics s') = [node_a] /\
  map disk_used (disk_list (metrics s')) = ["50.00 GB"; "0.00 B"] /\
  wire s' = session demo_config
              (composed_message demo_config "Daily report" "<html></html>"
                 true [("report.xlsx", Ok [])] (Some ["report.xlsx"])) /\
  map (fun m => List.length (parts (snd m))) (outbox s') = [2%nat] /\
  map level (log s') = [INFO; INFO].
Proof. vm_compute. repeat split. Qed.


(* ================================================================== *)
(** ** The CPU, memory and network collectors *)
(* ================================================================== *)

(** The shared shape, when both queries return sample lists: the records
    gathered follow the pairs by position, up to the first pair on which
    the loop body raises. *)
Lemma collected_by_index {R} w u q1 q2 (mk : json -> json -> result R) l1 l2 :
  returns_samples w u q1 l1 ->
  returns_samples w u q2 l2 ->
  let c := collected w u q1 q2 mk in
  (List.length (fst c) <= Nat.min (List.length l1) (List.length l2))%nat /\
  (forall i r,
     nth_error (fst c) i = Some r ->
     exists a b,
       nth_error l1 i = Some a /\ nth_error l2 i = Some b /\ mk a b = Ok r) /\
  (Forall (fun p => exists r, mk (fst p) (snd p) = Ok r) (combine l1 l2) ->
   snd c = None /\
   List.length (fst c) = Nat.min (List.length l1) (List.length l2)) /\
  (forall good a b rest e,
     combine l1 l2 = good ++ (a, b) :: rest ->
     Forall (fun p => exists r, mk (fst p) (snd p) = Ok r) good ->
     mk a b = Raise e ->
     snd c = Some e /\ List.length (fst c) = List.length good).
Proof.
  intros H1 H2. cbv zeta.
  destruct (collected_samples w u q1 q2 mk l1 l2 H1 H2) as (-> & _).
  split.
  { rewrite <- (length_combine l1 l2). apply built_length_le. }
  split.
  { intros i r Hr.
    destruct (built_nth _ _ _ _ Hr) as (a & b & Hn & Hmk).
    destruct (nth_error_combine_inv _ _ _ _ _ Hn) as [Ha Hb].
    exists a, b. repeat split; assumption. }
  split.
  { intros Hok. destruct (built_all mk (combine l1 l2) Hok) as (He & Hlen & _).
    rewrite He, Hlen. split; [reflexivity | apply length_combine]. }
  intros good a b rest e Hc Hgood Hbad. rewrite Hc.
  destruct (built_stops mk good a b rest e Hgood Hbad) as [He Hall].
  rewrite He. split; [reflexivity |].
  symmetry. eapply Forall2_length. exact Hall.
Qed.

(** X1.  [get_cpu_metrics] pairs the usage samples and the core-count
    samples by position: the record at index [i] of those it appends
    stores the float value of [usages[i]] as usage percent and the float
    value of [cores[i]] as core count, both unchanged, under the instance
    given.  It appends as many records as the shorter list has samples
    when every paired value converts to a float; at the first pair with a
    value that does not, it raises, having appended the records of the
    pairs before it. *)
Theorem cpu_samples_paired_by_index (w : world) (instance : json) (s : state)
    (usages cores : list json) :
  returns_samples w (url (metrics s)) (cpu_usage_query w instance) usages ->
  returns_samples w (url (metrics s)) (cpu_core_query w instance) cores ->
  exists added,
    cpu_list (metrics (snd (get_cpu_metrics w instance s))) =
      cpu_list (metrics s) ++ added /\
    (List.length added <= Nat.min (List.length usages) (List.length cores))%nat /\
    (forall i r,
       nth_error added i = Some r ->
       exists usage core,
         nth_error usages i = Some usage /\
         nth_error cores i = Some core /\
         sample_value usage = Ok (cpu_usage_percent r) /\
         sample_value core = Ok (cpu_core_num r) /\
         cpu_instance r = instance) /\
    (Forall (fun p => value_pair_ok (fst p) (snd p)) (combine usages cores) ->
     fst (get_cpu_metrics w instance s) = Ok tt /\
     List.length added = Nat.min (List.length usages) (List.length cores)) /\
    (forall good usage core rest e,
       combine usages cores = good ++ (usage, core) :: rest ->
       Forall (fun p => value_pair_ok (fst p) (snd p)) good ->
       cpu_record instance usage core = Raise e ->
       fst (get_cpu_metrics w instance s) = Raise e /\
       List.length added = List.length good).
Proof.
  intros H1 H2.
  exists (fst (node_cpu w (url (metrics s)) instance)).
  split; [apply cpu_list_after |].
  destruct (collector_result w instance s) as (_ & Hres & _). rewrite Hres.
  destruct (collected_by_index w _ _ _ (cpu_record instance) usages cores H1 H2)
    as (Hle & Hnth & Hall & Hstop).
  fold (node_cpu w (url (metrics s)) instance) in Hle, Hnth, Hall, Hstop.
  split; [exact Hle |].
  split.
  { intros i r Hr. destruct (Hnth i r Hr) as (a & b & Ha & Hb & Hmk).
    exists a, b. split; [exact Ha |]. split; [exact Hb |].
    apply cpu_record_inv. exact Hmk. }
  split.
  { intros Hok. destruct Hall as [He Hlen].
    { eapply Forall_impl; [| exact Hok]. intros [a b]. apply cpu_record_ok. }
    rewrite He. split; [reflexivity | exact Hlen]. }
  intros good usage core rest e Hc Hgood Hbad.
  destruct (Hstop good usage core rest e Hc) as [He Hlen]; [| exact Hbad |].
  { eapply Forall_impl; [| exact Hgood]. intros [a b]. apply cpu_record_ok. }
  rewrite He. split; [reflexivity | exact Hlen].
Qed.

Lemma cpu_samples_paired_by_index_witness :
  let r := get_cpu_metrics uneven_world node_a (initial_state []) in
  fst r = Ok tt /\
  map cpu_usage_percent (cpu_list (metrics (snd r))) = [Fin (25 # 2); Fin 150] /\
  map cpu_core_num (cpu_list (metrics (snd r))) = [Fin 8; Fin 4].
Proof.
  cbv zeta.
  destruct (cpu_samples_paired_by_index uneven_world node_a (initial_state [])
              uneven_usages uneven_cores)
    as (added & Hlist & _ & _ & Hall & _).
  - eexists. split; [eexists; vm_compute; repeat split | reflexivity].
  - eexists. split; [eexists; vm_compute; repeat split | reflexivity].
  - destruct Hall as [Hres _].
    { repeat constructor; simpl; eexists; vm_compute; reflexivity. }
    split; [exact Hres |]. vm_compute. split; reflexivity.
Defined.

(** X2.  [get_mem_metrics] pairs the total samples and the available
    samples by position; the record at index [i] has
    used = total - available, both amounts formatted as bytes, and
    percent = used / total * 100 in floats, or the int 0 unless
    total > 0.  It appends as many records as the shorter list has samples
    when every paired value converts to a float, and stops with an
    exception at the first pair with a value that does not. *)
Theorem mem_samples_paired_by_index (w : world) (instance : json) (s : state)
    (totals avails : list json) :
  returns_samples w (url (metrics s))
    (mem_query w "node_memory_MemTotal_bytes" instance) totals ->
  returns_samples w (url (metrics s))
    (mem_query w "node_memory_MemAvailable_bytes" instance) avails ->
  exists added,
    mem_list (metrics (snd (get_mem_metrics w instance s))) =
      mem_list (metrics s) ++ added /\
    (List.length added <= Nat.min (List.length totals) (List.length avails))%nat /\
    (forall i r,
       nth_error added i = Some r ->
       exists total avail tv av,
         nth_error totals i = Some total /\
         nth_error avails i = Some avail /\
         sample_value total = Ok tv /\
         sample_value avail = Ok av /\
         mem_instance r = instance /\
         mem_usage_percent r = percent_of tv av /\
         mem_total r = _format_bytes tv /\
         mem_used r = _format_bytes (fsub tv av)) /\
    (Forall (fun p => value_pair_ok (fst p) (snd p)) (combine totals avails) ->
     fst (get_mem_metrics w instance s) = Ok tt /\
     List.length added = Nat.min (List.length totals) (List.length avails)) /\
    (forall good total avail rest e,
       combine totals avails = good ++ (total, avail) :: rest ->
       Forall (fun p => value_pair_ok (fst p) (snd p)) good ->
       mem_record instance total avail = Raise e ->
       fst (get_mem_metrics w instance s) = Raise e /\
       List.length added = List.length good).
Proof.
  intros H1 H2.
  exists (fst (node_mem w (url (metrics s)) instance)).
  split; [apply mem_list_after |].
  destruct (collector_result w instance s) as (_ & _ & Hres & _). rewrite Hres.
  destruct (collected_by_index w _ _ _ (mem_record instance) totals avails H1 H2)
    as (Hle & Hnth & Hall & Hstop).
  fold (node_mem w (url (metrics s)) instance) in Hle, Hnth, Hall, Hstop.
  split; [exact Hle |].
  split.
  { intros i r Hr. destruct (Hnth i r Hr) as (a & b & Ha & Hb & Hmk).
    destruct (mem_record_inv _ _ _ _ Hmk) as (tv & av & H).
    exists a, b, tv, av. split; [exact Ha |]. split; [exact Hb | exact H]. }
  split.
  { intros Hok. destruct Hall as [He Hlen].
    { eapply Forall_impl; [| exact Hok]. intros [a b]. apply mem_record_ok. }
    rewrite He. split; [reflexivity | exact Hlen]. }
  intros good total avail rest e Hc Hgood Hbad.
  destruct (Hstop good total avail rest e Hc) as [He Hlen]; [| exact Hbad |].
  { eapply Forall_impl; [| exact Hgood]. intros [a b]. apply mem_record_ok. }
  rewrite He. split; [reflexivity | exact Hlen].
Qed.

Lemma mem_samples_paired_by_index_witness :
  let r := get_mem_metrics uneven_world node_a (initial_state []) in
  fst r = Ok tt /\
  map mem_total (mem_list (metrics (snd r))) = ["3.00 B"; "8.00 GB"] /\
  map mem_used (mem_list (metrics (snd r))) = ["2.00 B"; "6.00 GB"] /\
  map mem_usage_percent (mem_list (metrics (snd r))) =
    [Float (Fin (2345624805922133 # 35184372088832)); Float (Fin 75)] /\
  format_2f (Fin (2345624805922133 # 35184372088832)) = "66.67".
Proof.
  cbv zeta.
  destruct (mem_samples_paired_by_index uneven_world node_a (initial_state [])
              uneven_totals uneven_avails)
    as (added & Hlist & _ & _ & Hall & _).
  - eexists. split; [eexists; vm_compute; repeat split | reflexivity].
  - eexists. split; [eexists; vm_compute; repeat split | reflexivity].
  - destruct Hall as [Hres _].
    { repeat constructor; simpl; eexists; vm_compute; reflexivity. }
    split; [exact Hres |]. vm_compute. repeat split.
Defined.

(** X3.  [get_net_metrics] pairs the receive samples and the transmit
    samples by position; the record at index [i] has the receive value
    formatted as a bitrate under [download] and the transmit value under
    [upload].  It appends as many records as the shorter list has samples
    when every paired value converts to a float, and stops with an
    exception at the first pair with a value that does not. *)
Theorem net_samples_paired_by_index (w : world) (instance : json) (s : state)
    (rxs txs : list json) :
  returns_samples w (url (metrics s))
    (net_query w "node_network_receive_bytes_total" instance) rxs ->
  returns_samples w (url (metrics s))
    (net_query w "node_network_transmit_bytes_total" instance) txs ->
  exists added,
    net_list (metrics (snd (get_net_metrics w instance s))) =
      net_list (metrics s) ++ added /\
    (List.length added <= Nat.min (List.length rxs) (List.length txs))%nat /\
    (forall i r,
       nth_error added i = Some r ->
       exists rx tx rv tv,
         nth_error rxs i = Some rx /\
         nth_error txs i = Some tx /\
         sample_value rx = Ok rv /\
         sample_value tx = Ok tv /\
         net_instance r = instance /\
         net_download r = _format_bits_per_second rv /\
         net_upload r = _format_bits_per_second tv) /\
    (Forall (fun p => value_pair_ok (fst p) (snd p)) (combine rxs txs) ->
     fst (get_net_metrics w instance s) = Ok tt /\
     List.length added = Nat.min (List.length rxs) (List.length txs)) /\
    (forall good rx tx rest e,
       combine rxs txs = good ++ (rx, tx) :: rest ->
       Forall (fun p => value_pair_ok (fst p) (snd p)) good ->
       net_record instance rx tx = Raise e ->
       fst (get_net_metrics w instance s) = Raise e /\
       List.length added = List.length good).
Proof.
  intros H1 H2.
  exists (fst (node_net w (url (metrics s)) instance)).
  split; [apply net_list_after |].
  destruct (collector_result w instance s) as (_ & _ & _ & Hres). rewrite Hres.
  destruct (collected_by_index w _ _ _ (net_record instance) rxs txs H1 H2)
    as (Hle & Hnth & Hall & Hstop).
  fold (node_net w (url (metrics s)) instance) in Hle, Hnth, Hall, Hstop.
  split; [exact Hle |].
  split.
  { intros i r Hr. destruct (Hnth i r Hr) as (a & b & Ha & Hb & Hmk).
    destruct (net_record_inv _ _ _ _ Hmk) as (rv & tv & H).
    exists a, b, rv, tv. split; [exact Ha |]. split; [exact Hb | exact H]. }
  split.
  { intros Hok. destruct Hall as [He Hlen].
    { eapply Forall_impl; [| exact Hok]. intros [a b]. apply net_record_ok. }
    rewrite He. split; [reflexivity | exact Hlen]. }
  intros good rx tx rest e Hc Hgood Hbad.
  destruct (Hstop good rx tx rest e Hc) as [He Hlen]; [| exact Hbad |].
  { eapply Forall_impl; [| exact Hgood]. intros [a b]. apply net_record_ok. }
  rewrite He. split; [reflexivity | exact Hlen].
Qed.

Lemma net_samples_paired_by_index_witness :
  let r := get_net_metrics uneven_world node_a (initial_state []) in
  fst r = Ok tt /\
  map net_download (net_list (metrics (snd r))) = ["1.01 Kbps"; "1.50 Mbps"] /\
  map net_upload (net_list (metrics (snd r))) = ["999.00 bps"; "2.67 Kbps"].
Proof.
  cbv zeta.
  destruct (net_samples_paired_by_index uneven_world node_a (initial_state [])
              uneven_rxs uneven_txs)
    as (added & Hlist & _ & _ & Hall & _).
  - eexists. split; [eexists; vm_compute; repeat split | reflexivity].
  - eexists. split; [eexists; vm_compute; repeat split | reflexivity].
  - destruct Hall as [Hres _].
    { repeat constructor; simpl; eexists; vm_compute; reflexivity. }
    split; [exact Hres |]. vm_compute. split; reflexivity.
Defined.

(* ================================================================== *)
(** ** A sample the loop cannot use *)
(* ================================================================== *)

Lemma collect_stops {R} w q1 q2 (mk : json -> json -> result R)
    (extend : PrometheusMetrics -> list R -> PrometheusMetrics) s l1 l2
    good a b rest e :
  (forall m, extend m [] = m) ->
  (forall m x y, extend (extend m x) y = extend m (x ++ y)) ->
  returns_samples w (url (metrics s)) q1 l1 ->
  returns_samples w (url (metrics s)) q2 l2 ->
  combine l1 l2 = good ++ (a, b) :: rest ->
  Forall (fun p => exists r, mk (fst p) (snd p) = Ok r) good ->
  mk a b = Raise e ->
  exists rs,
    collect w q1 q2 mk (append_with extend) s =
      (Raise e, set_metrics s (extend (metrics s) rs)) /\
    Forall2 (fun p r => mk (fst p) (snd p) = Ok r) good rs.
Proof.
  intros Hnil Happ (b1 & R1 & D1) (b2 & R2 & D2) Hc Hgood Hbad.
  rewrite (collect_spec w R extend Hnil Happ).
  rewrite (query_log_returns _ _ _ _ R1), (query_log_returns _ _ _ _ R2).
  unfold collected.
  rewrite (query_value_returns _ _ _ _ R1), (query_value_returns _ _ _ _ R2).
  unfold zip_results. rewrite D1, D2. cbn [rbind py_iter]. rewrite Hc.
  destruct (built_stops mk good a b rest e Hgood Hbad) as [He Hall].
  exists (fst (built mk (good ++ (a, b) :: rest))).
  rewrite He. simpl app. rewrite add_logs_nil. split; [reflexivity | exact Hall].
Qed.

(** X4.  When the loop of [get_disk_metrics] meets a pair of samples it
    cannot turn into a record (a missing field or label, a value that is
    not a number), the collector raises that exception at once: the
    records of the pairs before it stay appended, one per pair and in
    order, and no pair after it is looked at. *)
Theorem disk_collector_stops_at_bad_sample (w : world) (instance : json)
    (s : state) (sizes frees : list json) (good rest : list (json * json))
    (size free : json) (e : exn) :
  returns_samples w (url (metrics s))
    (disk_query w "node_filesystem_size_bytes" instance) sizes ->
  returns_samples w (url (metrics s))
    (disk_query w "node_filesystem_free_bytes" instance) frees ->
  combine sizes frees = good ++ (size, free) :: rest ->
  Forall (fun p => disk_pair_ok (fst p) (snd p)) good ->
  disk_record instance size free = Raise e ->
  exists rs,
    get_disk_metrics w instance s =
      (Raise e, set_metrics s (extend_disk (metrics s) rs)) /\
    disk_list (metrics (snd (get_disk_metrics w instance s))) =
      disk_list (metrics s) ++ rs /\
    List.length rs = List.length good /\
    Forall2 (fun p r => disk_record instance (fst p) (snd p) = Ok r) good rs.
Proof.
  intros H1 H2 Hc Hgood Hbad. rewrite get_disk_metrics_collect.
  destruct (collect_stops w _ _ (disk_record instance) extend_disk s
              sizes frees good size free rest e
              extend_disk_nil extend_disk_app H1 H2 Hc)
    as (rs & Hrun & Hall); [| exact Hbad |].
  { eapply Forall_impl; [| exact Hgood]. intros [a b]. apply disk_record_ok. }
  exists rs. rewrite Hrun.
  split; [reflexivity |]. split; [reflexivity |].
  split; [symmetry; eapply Forall2_length; exact Hall | exact Hall].
Qed.

Lemma disk_collector_stops_at_bad_sample_witness :
  exists rs,
    get_disk_metrics half_broken_world node_a (initial_state []) =
      (Raise (KeyError "value"),
       set_metrics (initial_state [])
         (extend_disk (metrics (initial_state [])) rs)) /\
    List.length rs = 1%nat.
Proof.
  destruct (disk_collector_stops_at_bad_sample half_broken_world node_a
              (initial_state [])
              [sample [("device", "/dev/sda1"); ("mountpoint", "/")] "100";
               JObj [("metric", JObj [("device", JStr "/dev/sdb1");
                                      ("mountpoint", JStr "/data")])];
               sample [("device", "/dev/sdc1"); ("mountpoint", "/x")] "300"]
              [sample [("device", "/dev/sda1"); ("mountpoint", "/")] "40";
               sample [("device", "/dev/sdb1"); ("mountpoint", "/data")] "50";
               sample [("device", "/dev/sdc1"); ("mountpoint", "/x")] "60"]
              [(sample [("device", "/dev/sda1"); ("mountpoint", "/")] "100",
                sample [("device", "/dev/sda1"); ("mountpoint", "/")] "40")]
              [(sample [("device", "/dev/sdc1"); ("mountpoint", "/x")] "300",
                sample [("device", "/dev/sdc1"); ("mountpoint", "/x")] "60")]
              (JObj [("metric", JObj [("device", JStr "/dev/sdb1");
                                      ("mountpoint", JStr "/data")])])
              (sample [("device", "/dev/sdb1"); ("mountpoint", "/data")] "50")
              (KeyError "value"))
    as (rs & Hrun & _ & Hlen & _).
  - eexists. split; [eexists; vm_compute; repeat split | reflexivity].
  - eexists. split; [eexists; vm_compute; repeat split | reflexivity].
  - reflexivity.
  - repeat constructor; simpl; eexists; vm_compute; reflexivity.
  - vm_compute. reflexivity.
  - exists rs. split; [exact Hrun | exact Hlen].
Defined.

(* ================================================================== *)
(** ** What a collector leaves alone *)
(* ================================================================== *)

Lemma query_log_fails w u q e :
  request_fails w u q e -> query_log w u q = [query_error e].
Proof.
  intros H. apply request_fails_outcome in H.
  unfold query_log. rewrite H. reflexivity.
Qed.

(** X5.  Whether it returns or raises, a collector writes no file, issues
    no SMTP command and submits no message; what it logs is one error per
    failed query, in the order of its two queries, and nothing for a
    sample it cannot use. *)
Theorem collector_logs_failed_queries_only (w : world) (instance : json)
    (s : state) :
  let u := url (metrics s) in
  (forall q e, request_fails w u q e -> query_log w u q = [query_error e]) /\
  (forall q j, request_returns w u q j -> query_log w u q = []) /\
  (let s' := snd (get_disk_metrics w instance s) in
   files s' = files s /\ wire s' = wire s /\ outbox s' = outbox s /\
   log s' = log s ++
     query_errors w u (disk_query w "node_filesystem_size_bytes" instance)
                      (disk_query w "node_filesystem_free_bytes" instance)) /\
  (let s' := snd (get_cpu_metrics w instance s) in
   files s' = files s /\ wire s' = wire s /\ outbox s' = outbox s /\
   log s' = log s ++
     query_errors w u (cpu_usage_query w instance)
                      (cpu_core_query w instance)) /\
  (let s' := snd (get_mem_metrics w instance s) in
   files s' = files s /\ wire s' = wire s /\ outbox s' = outbox s /\
   log s' = log s ++
     query_errors w u (mem_query w "node_memory_MemTotal_bytes" instance)
                      (mem_query w "node_memory_MemAvailable_bytes" instance)) /\
  (let s' := snd (get_net_metrics w instance s) in
   files s' = files s /\ wire s' = wire s /\ outbox s' = outbox s /\
   log s' = log s ++
     query_errors w u (net_query w "node_network_receive_bytes_total" instance)
                      (net_query w "node_network_transmit_bytes_total" instance)).
Proof.
  cbv zeta.
  split; [intros q e; apply query_log_fails |].
  split; [intros q j; apply query_log_returns |].
  rewrite get_disk_metrics_spec, get_cpu_metrics_spec, get_mem_metrics_spec,
    get_net_metrics_spec.
  cbv zeta. unfold query_errors. simpl. repeat split.
Qed.

Lemma collector_logs_failed_queries_only_witness :
  let s' := snd (get_disk_metrics refusing_world node_a (initial_state [])) in
  log s' = [query_error (OtherException "ConnectionError")] /\
  files s' = [] /\ wire s' = [] /\ outbox s' = [].
Proof.
  cbv zeta.
  destruct (collector_logs_failed_queries_only refusing_world node_a
              (initial_state []))
    as (Hfail & Hret & (Hf & Hw & Ho & Hlog) & _).
  rewrite Hf, Hw, Ho, Hlog. unfold query_errors.
  rewrite (Hfail _ (OtherException "ConnectionError"))
    by (apply get_raises; vm_compute; reflexivity).
  erewrite Hret by (eexists; vm_compute; repeat split).
  repeat split.
Defined.

(* ================================================================== *)
(** ** Node discovery *)
(* ================================================================== *)

Lemma comprehension_all {X Y} (f : X -> result Y) items ys :
  Forall2 (fun x y => f x = Ok y) items ys ->
  comprehension f items = Ok ys.
Proof.
  induction 1 as [| x y items ys Hx _ IH]; simpl; [reflexivity |].
  rewrite Hx. cbn [rbind]. rewrite IH. reflexivity.
Qed.

Lemma comprehension_stops {X Y} (f : X -> result Y) good x rest e :
  Forall (fun a => exists y, f a = Ok y) good ->
  f x = Raise e ->
  comprehension f (good ++ x :: rest) = Raise e.
Proof.
  intros Hgood Hbad. induction Hgood as [| a good [y Hy] _ IH]; simpl.
  - rewrite Hbad. reflexivity.
  - rewrite Hy. cbn [rbind]. rewrite IH. reflexivity.
Qed.

(** X6.  Node discovery stores the [instance] label of every returned
    sample, in the order returned and without removing duplicates: the new
    node list has one entry per sample.  Nothing else of the state
    changes. *)
Theorem discovery_lists_every_sample (w : world) (s : state)
    (items labels : list json) :
  returns_samples w (url (metrics s)) node_query items ->
  Forall2 (fun item label => metric_label item "instance" = Ok label)
          items labels ->
  get_node_metrics w s =
    (Ok tt, set_metrics s (set_node_list (metrics s) labels)) /\
  node_list (metrics (snd (get_node_metrics w s))) = labels /\
  List.length labels = List.length items.
Proof.
  intros (body & R & D) Hall.
  rewrite get_node_metrics_spec. cbv zeta.
  rewrite (query_log_returns _ _ _ _ R). unfold discovered.
  rewrite (query_value_returns _ _ _ _ R), D. cbn [rbind py_iter].
  rewrite (comprehension_all _ _ _ Hall), add_logs_nil.
  split; [reflexivity |]. split; [reflexivity |].
  symmetry. eapply Forall2_length. exact Hall.
Qed.

Lemma discovery_lists_every_sample_witness :
  node_list (metrics (snd (get_node_metrics three_nodes_world
                             (initial_state [])))) =
    [JStr "node-b"; JStr "node-a"; JStr "node-b"].
Proof.
  destruct (discovery_lists_every_sample three_nodes_world (initial_state [])
              [sample [("instance", "node-b")] "1";
               sample [("instance", "node-a")] "1";
               sample [("instance", "node-b")] "1"]
              [JStr "node-b"; JStr "node-a"; JStr "node-b"])
    as (_ & Hlist & _).
  - eexists. split; [eexists; vm_compute; repeat split | reflexivity].
  - repeat constructor.
  - exact Hlist.
Defined.

(** X7.  When one returned sample has no [instance] label (or is not an
    object with a [metric] object), node discovery raises on the first
    such sample and assigns nothing: the node list keeps its previous
    value and the state is unchanged. *)
Theorem discovery_raises_on_unlabelled_sample (w : world) (s : state)
    (good rest : list json) (item : json) (e : exn) :
  returns_samples w (url (metrics s)) node_query (good ++ item :: rest) ->
  Forall (fun a => exists label, metric_label a "instance" = Ok label) good ->
  metric_label item "instance" = Raise e ->
  get_node_metrics w s = (Raise e, s).
Proof.
  intros (body & R & D) Hgood Hbad.
  rewrite get_node_metrics_spec. cbv zeta.
  rewrite (query_log_returns _ _ _ _ R). unfold discovered.
  rewrite (query_value_returns _ _ _ _ R), D. cbn [rbind py_iter].
  rewrite (comprehension_stops _ _ _ _ _ Hgood Hbad), add_logs_nil.
  reflexivity.
Qed.

Lemma discovery_raises_on_unlabelled_sample_witness :
  let s := set_metrics (initial_state [])
             (set_node_list (metrics (initial_state [])) [JStr "old-node"]) in
  get_node_metrics unlabelled_world s = (Raise (KeyError "instance"), s).
Proof.
  cbv zeta.
  apply (discovery_raises_on_unlabelled_sample unlabelled_world _
           [sample [("instance", "node-a")] "1"]
           [sample [("instance", "node-c")] "1"]
           (sample [("job", "node")] "1")).
  - eexists. split; [eexists; vm_compute; repeat split | reflexivity].
  - repeat constructor. eexists. vm_compute. reflexivity.
  - vm_compute. reflexivity.
Defined.

(* ================================================================== *)
(** ** The collection loop of [run] *)
(* ================================================================== *)

Lemma for_each_app {X} (l1 l2 : list X) (body : X -> M unit) s :
  for_each (l1 ++ l2) body s =
  match for_each l1 body s with
  | (Ok _, s1) => for_each l2 body s1
  | (Raise e, s1) => (Raise e, s1)
  end.
Proof.
  revert s. induction l1 as [| x l1 IH]; intros s; simpl.
  - reflexivity.
  - unfold bind. destruct (body x s) as [[[] | e] s1]; [apply IH | reflexivity].
Qed.

Lemma loop_lists w nodes : forall s,
  (forall n, In n nodes ->
     snd (node_disk w (url (metrics s)) n) = None /\
     snd (node_cpu w (url (metrics s)) n) = None /\
     snd (node_mem w (url (metrics s)) n) = None /\
     snd (node_net w (url (metrics s)) n) = None) ->
  exists s',
    for_each nodes (collect_node w) s = (Ok tt, s') /\
    url (metrics s') = url (metrics s) /\
    node_list (metrics s') = node_list (metrics s) /\
    disk_list (metrics s') =
      disk_list (metrics s)
      ++ flat_map (fun n => fst (node_disk w (url (metrics s)) n)) nodes /\
    cpu_list (metrics s') =
      cpu_list (metrics s)
      ++ flat_map (fun n => fst (node_cpu w (url (metrics s)) n)) nodes /\
    mem_list (metrics s') =
      mem_list (metrics s)
      ++ flat_map (fun n => fst (node_mem w (url (metrics s)) n)) nodes /\
    net_list (metrics s') =
      net_list (metrics s)
      ++ flat_map (fun n => fst (node_net w (url (metrics s)) n)) nodes.
Proof.
  induction nodes as [| n rest IH]; intros s Hok.
  - exists s. simpl. rewrite !app_nil_r. repeat split.
  - destruct (Hok n (or_introl eq_refl)) as (Hd & Hc & Hm & Hn).
    destruct (collect_node_lists w n s Hd Hc Hm Hn) as (s1 & E1 & M1).
    assert (U : url (metrics s1) = url (metrics s)) by (rewrite M1; reflexivity).
    destruct (IH s1) as (s' & E & U' & N' & D' & C' & M' & T').
    { intros n' Hin. rewrite U. apply Hok. right. exact Hin. }
    exists s'. simpl for_each. unfold bind. rewrite E1.
    split; [exact E |].
    split; [congruence |].
    rewrite N', D', C', M', T', U, M1. simpl.
    rewrite <- !app_assoc. repeat split.
Qed.

(** X8.  When no collector raises for any node of the list, the loop of
    [run] leaves each record list equal to what it held before, followed
    by the records of the first node, then those of the second, and so
    on: per category, records appear in node order (a node listed twice
    contributes twice), where the records of a node are those its
    collector appends when called alone. *)
Theorem loop_appends_in_node_order (w : world) (nodes : list json)
    (s : state) :
  let u := url (metrics s) in
  (forall n, In n nodes -> fst (collect_node w n s) = Ok tt) ->
  (forall n t,
     url (metrics t) = u ->
     disk_list (metrics (snd (get_disk_metrics w n t))) =
       disk_list (metrics t) ++ fst (node_disk w u n) /\
     cpu_list (metrics (snd (get_cpu_metrics w n t))) =
       cpu_list (metrics t) ++ fst (node_cpu w u n) /\
     mem_list (metrics (snd (get_mem_metrics w n t))) =
       mem_list (metrics t) ++ fst (node_mem w u n) /\
     net_list (metrics (snd (get_net_metrics w n t))) =
       net_list (metrics t) ++ fst (node_net w u n)) /\
  exists s',
    for_each nodes (collect_node w) s = (Ok tt, s') /\
    node_list (metrics s') = node_list (metrics s) /\
    disk_list (metrics s') =
      disk_list (metrics s) ++ flat_map (fun n => fst (node_disk w u n)) nodes /\
    cpu_list (metrics s') =
      cpu_list (metrics s) ++ flat_map (fun n => fst (node_cpu w u n)) nodes /\
    mem_list (metrics s') =
      mem_list (metrics s) ++ flat_map (fun n => fst (node_mem w u n)) nodes /\
    net_list (metrics s') =
      net_list (metrics s) ++ flat_map (fun n => fst (node_net w u n)) nodes.
Proof.
  cbv zeta. intros Hok. split.
  - intros n t Ht.
    rewrite get_disk_metrics_spec, get_cpu_metrics_spec, get_mem_metrics_spec,
      get_net_metrics_spec.
    cbv zeta. rewrite Ht. simpl. repeat split.
  - destruct (loop_lists w nodes s) as (s' & E & _ & H).
    { intros n Hin. apply collect_node_ok. apply Hok. exact Hin. }
    exists s'. split; [exact E | exact H].
Qed.

Lemma loop_appends_in_node_order_witness :
  exists s',
    for_each [node_a; JStr "node-z"; node_a] (collect_node demo_world)
             (initial_state []) = (Ok tt, s') /\
    map disk_device (disk_list (metrics s')) =
      [JStr "/dev/sda1"; JStr "/dev/sdb1"; JStr "/dev/sda1"; JStr "/dev/sdb1"].
Proof.
  destruct (loop_appends_in_node_order demo_world
              [node_a; JStr "node-z"; node_a] (initial_state []))
    as (_ & s' & Hrun & _ & Hdisk & _).
  - intros n [<- | [<- | [<- | []]]]; vm_compute; reflexivity.
  - exists s'. split; [exact Hrun |].
    rewrite Hdisk. vm_compute. reflexivity.
Defined.

(** X9.  The loop of [run] has no guard of its own: when a collector
    raises for one node, [run] ends in the state that node's failing
    collector left, plus the error record.  The nodes after it are never
    queried and no mail is sent. *)
Theorem run_stops_at_failing_node (w : world) (config : EmailConfig)
    (s s1 s2 : state) (before after : list json) (node : json) (e : exn) :
  get_node_metrics w s = (Ok tt, s1) ->
  node_list (metrics s1) = before ++ node :: after ->
  for_each (before ++ [node]) (collect_node w) s1 = (Raise e, s2) ->
  run w config s = (Ok tt, add_log s2 (run_error e)) /\
  wire s2 = wire s /\ outbox s2 = outbox s.
Proof.
  intros H1 Hnodes Hloop.
  assert (Hfull : for_each (node_list (metrics s1)) (collect_node w) s1
                  = (Raise e, s2)).
  { rewrite Hnodes.
    replace (before ++ node :: after) with ((before ++ [node]) ++ after)
      by (rewrite <- app_assoc; reflexivity).
    rewrite for_each_app, Hloop. reflexivity. }
  assert (Hpre : collect_and_render w s = (Raise e, s2)).
  { unfold collect_and_render.
    rewrite (bind_ok _ _ _ _ _ H1).
    rewrite (bind_ok self_metrics _ s1 (metrics s1) s1 eq_refl).
    rewrite bind_run, Hfull. reflexivity. }
  rewrite run_spec, Hpre. split; [reflexivity |].
  destruct (collect_and_render_no_smtp w s) as [Hw Ho].
  rewrite Hpre in Hw, Ho. split; assumption.
Qed.

Lemma run_stops_at_failing_node_witness :
  exists s2,
    run failing_node_world demo_config (initial_state []) =
      (Ok tt, add_log s2 (run_error (KeyError "value"))) /\
    node_list (metrics s2) = [node_a; JStr "node-b"] /\
    List.length (disk_list (metrics s2)) = 1%nat /\
    cpu_list (metrics s2) = [] /\ wire s2 = [] /\ outbox s2 = [].
Proof.
  pose (s1 := snd (get_node_metrics failing_node_world (initial_state []))).
  pose (s2 := snd (for_each [node_a] (collect_node failing_node_world) s1)).
  exists s2.
  destruct (run_stops_at_failing_node failing_node_world demo_config
              (initial_state []) s1 s2 [] [JStr "node-b"] node_a
              (KeyError "value")) as (Hrun & Hw & Ho).
  - vm_compute. reflexivity.
  - vm_compute. reflexivity.
  - vm_compute. reflexivity.
  - split; [exact Hrun |]. vm_compute. repeat split.
Defined.

(* ================================================================== *)
(** ** The reports *)
(* ================================================================== *)

Lemma generate_excel_report_spec w p s :
  generate_excel_report w p s =
  let s1 := match fst (excel_outcome w (metrics s)) with
            | Some content => set_file s p content
            | None => s
            end in
  match snd (excel_outcome w (metrics s)) with
  | Some e => (Raise e, s1)
  | None => (Ok tt, add_log s1 (excel_info p))
  end.
Proof.
  unfold generate_excel_report, excel_outcome, bind, self_metrics.
  destruct (pandas_to_excel w _ _ _ _) as [[content |] [e |]]; reflexivity.
Qed.

Lemma generate_html_report_spec w s :
  generate_html_report w s =
  (jinja_render w "prometheus_report_zh.html" (bindings_of w (metrics s)), s).
Proof. reflexivity. Qed.

Lemma read_after_write fs p content :
  read_result ((p, Ok content) :: fs) p = Ok content.
Proof. unfold read_result. simpl. rewrite String.eqb_refl. reflexivity. Qed.

Lemma read_other_after_write fs p p' content :
  p' <> p ->
  read_result ((p, Ok content) :: fs) p' = read_result fs p'.
Proof.
  intros Hne. unfold read_result. simpl.
  destruct (String.eqb p p') eqn:E; [| reflexivity].
  apply String.eqb_eq in E. congruence.
Qed.

(** X10.  [generate_excel_report] reads the four record lists and changes
    none of them.  The only file it touches is the one at [file_path]:
    when the writer leaves content there, reading that path afterwards
    yields this content, whatever the path held before, and every other
    path reads as before.  It logs the success record exactly when the
    writer did not raise, and raises the writer's exception otherwise. *)
Theorem spreadsheet_touches_one_file (w : world) (file_path : Path)
    (s : state) :
  let out := excel_outcome w (metrics s) in
  let r := generate_excel_report w file_path s in
  metrics (snd r) = metrics s /\
  wire (snd r) = wire s /\ outbox (snd r) = outbox s /\
  (forall content,
     fst out = Some content ->
     read_result (files (snd r)) file_path = Ok content /\
     forall p, p <> file_path ->
       read_result (files (snd r)) p = read_result (files s) p) /\
  (fst out = None -> files (snd r) = files s) /\
  (forall e, snd out = Some e -> fst r = Raise e /\ log (snd r) = log s) /\
  (snd out = None ->
   fst r = Ok tt /\ log (snd r) = log s ++ [excel_info file_path]).
Proof.
  cbv zeta. rewrite generate_excel_report_spec. cbv zeta.
  destruct (excel_outcome w (metrics s)) as [[content |] [e |]]; simpl;
    (split; [reflexivity |]); (split; [reflexivity |]);
    (split; [reflexivity |]);
    (split;
     [intros c Hc;
      first [discriminate Hc
            | inversion Hc; subst; split;
              [apply read_after_write
              | intros p Hp; apply read_other_after_write; exact Hp]] |]);
    (split; [intros Hn; first [discriminate Hn | reflexivity] |]);
    (split;
     [intros e' He;
      first [discriminate He | inversion He; subst; split; reflexivity]
     | intros Hn; first [discriminate Hn | split; reflexivity]]).
Qed.

Lemma spreadsheet_touches_one_file_witness :
  let r := generate_excel_report writing_world "report.xlsx"
             (initial_state old_files) in
  fst r = Ok tt /\
  read_result (files (snd r)) "report.xlsx" = Ok [Byte.x50; Byte.x4b] /\
  read_result (files (snd r)) "notes.txt" = Ok [Byte.x02] /\
  log (snd r) = [excel_info "report.xlsx"].
Proof.
  cbv zeta.
  destruct (spreadsheet_touches_one_file writing_world "report.xlsx"
              (initial_state old_files))
    as (_ & _ & _ & Hwritten & _ & _ & Hok).
  destruct (Hwritten [Byte.x50; Byte.x4b] eq_refl) as [Hread Hother].
  destruct (Hok eq_refl) as [Hres Hlog].
  split; [exact Hres |]. split; [exact Hread |].
  split; [rewrite Hother by discriminate; reflexivity | exact Hlog].
Defined.

(* ================================================================== *)
(** ** The notifier and the whole run *)
(* ================================================================== *)

Lemma send_frame w config subject body html attachments s :
  metrics (snd (send w config subject body html attachments s)) = metrics s /\
  files (snd (send w config subject body html attachments s)) = files s.
Proof.
  rewrite send_spec.
  destruct (MIMEText_raises w body (content_type_of html)) as [e |].
  - split; reflexivity.
  - match goal with |- context [_send_message w config ?m ?s0] =>
      destruct (send_message_total w config m s0)
        as (b & s' & E & Hm & Hf & _)
    end.
    rewrite E. simpl. rewrite Hm, Hf. split; reflexivity.
Qed.

(** X11.  [send] never changes the metrics object or the file system,
    whether it returns [True] or [False]: the notifier only reads the
    attachments. *)
Theorem send_leaves_records_and_files (w : world) (config : EmailConfig)
    (subject body : string) (html : bool) (attachments : option (list Path))
    (s : state) :
  let s' := snd (send w config subject body html attachments s) in
  metrics s' = metrics s /\
  files s' = files s /\
  forall p, read_result (files s') p = read_result (files s) p.
Proof.
  cbv zeta.
  destruct (send_frame w config subject body html attachments s) as [Hm Hf].
  split; [exact Hm |]. split; [exact Hf |].
  intros p. rewrite Hf. reflexivity.
Qed.

(** X12.  What [_send_message] puts on the wire follows one fixed order,
    cut short at the first step that raises: the connection; STARTTLS;
    the login, only after STARTTLS succeeded; the submission, only after
    the login succeeded; and the closing QUIT whenever the connection was
    opened.  A step that raises before sending leaves nothing on the
    wire.  The server has accepted the message exactly when connection,
    STARTTLS, login and submission succeeded, even if the closing step
    then fails and [_send_message] returns [False]. *)
Theorem smtp_session_order (w : world) (config : EmailConfig)
    (message : MIMEMultipart) (s : state) :
  let r := _send_message w config message s in
  let login := LOGIN (username config) (password config) in
  let submit := SENDMAIL (username config) (recipients config) message in
  let entry := (username config, recipients config, message) in
  wire (snd r) = wire s ++ session_steps w config message /\
  outbox (snd r) =
    outbox s ++ (if submitted w config message then [entry] else []) /\
  (fst r = Ok true <->
   submitted w config message = true /\ SMTP_quit w = Accepted) /\
  (In login (session_steps w config message) ->
   SMTP_connect w (smtp_server config) (smtp_port config) = Accepted /\
   SMTP_starttls w = Accepted) /\
  (In submit (session_steps w config message) ->
   SMTP_starttls w = Accepted /\
   SMTP_login w (username config) (password config) = Accepted) /\
  (In QUIT (session_steps w config message) <->
   SMTP_connect w (smtp_server config) (smtp_port config) = Accepted /\
   forall e, SMTP_quit w <> NotSent e).
Proof.
  cbv zeta. unfold session_steps, block_steps, submitted.
  destruct (SMTP_connect w (smtp_server config) (smtp_port config))
    as [| e | e] eqn:Hc;
  [ destruct (SMTP_starttls w) as [| e | e] eqn:Ht;
    [ destruct (SMTP_login w (username config) (password config))
        as [| e' | e'] eqn:Hl;
      [ destruct (SMTP_sendmail w (username config) (recipients config)
                    message) as [| e'' | e''] eqn:Hm | | ] | | ] | | ];
  unfold _send_message, try_except, with_SMTP, sendmail, bind, smtp, modify,
    logger_info, logger_error, ret;
  rewrite ?Hc, ?Ht, ?Hl, ?Hm;
  destruct (SMTP_quit w) as [| eq | eq]; simpl;
  rewrite <- ?app_assoc, ?app_nil_r; simpl;
  repeat match goal with
         | |- _ /\ _ => split
         | |- _ <-> _ => split
         end;
  intros;
  repeat match goal with
         | H : _ /\ _ |- _ => destruct H
         | H : _ \/ _ |- _ => destruct H
         | H : False |- _ => destruct H
         end;
  try reflexivity; try congruence;
  try (exfalso;
       match goal with H : forall e, _ <> _ |- _ => eapply H; reflexivity end);
  try (simpl; tauto);
  repeat split; congruence.
Qed.

Lemma smtp_session_order_witness :
  let message := text_message demo_config "s" "b" false in
  (let r := _send_message plain_server_world demo_config message
              (initial_state []) in
   fst r = Ok false /\
   wire (snd r) = [CONNECT "smtp.example.org" 587; QUIT] /\
   outbox (snd r) = []) /\
  (let r := _send_message rejecting_world demo_config message
              (initial_state []) in
   wire (snd r) =
     [CONNECT "smtp.example.org" 587; STARTTLS;
      LOGIN "monitor@example.org" "secret"; QUIT] /\
   outbox (snd r) = []) /\
  (let r := _send_message dropping_world demo_config message
              (initial_state []) in
   fst r = Ok false /\
   List.length (wire (snd r)) = 5%nat /\
   outbox (snd r) =
     [("monitor@example.org", ["ops@example.org"; "dev@example.org"],
       message)]).
Proof.
  cbv zeta.
  destruct (smtp_session_order plain_server_world demo_config
              (text_message demo_config "s" "b" false) (initial_state []))
    as (W1 & O1 & _).
  destruct (smtp_session_order rejecting_world demo_config
              (text_message demo_config "s" "b" false) (initial_state []))
    as (W2 & O2 & _).
  destruct (smtp_session_order dropping_world demo_config
              (text_message demo_config "s" "b" false) (initial_state []))
    as (W3 & O3 & _).
  rewrite W1, O1, W2, O2, W3, O3.
  repeat split.
Defined.

Lemma collect_and_render_ok w s s1 s2 content html :
  get_node_metrics w s = (Ok tt, s1) ->
  for_each (node_list (metrics s1)) (collect_node w) s1 = (Ok tt, s2) ->
  excel_outcome w (metrics s2) = (Some content, None) ->
  jinja_render w "prometheus_report_zh.html" (bindings_of w (metrics s2))
    = Ok html ->
  collect_and_render w s =
    (Ok html, add_log (set_file s2 "report.xlsx" content)
                (excel_info "report.xlsx")).
Proof.
  intros H1 H2 Hx Hj. unfold collect_and_render.
  rewrite (bind_ok _ _ _ _ _ H1).
  rewrite (bind_ok self_metrics _ s1 (metrics s1) s1 eq_refl).
  rewrite (bind_ok _ _ _ _ _ H2).
  rewrite bind_run, generate_excel_report_spec. cbv zeta. rewrite Hx. simpl.
  rewrite generate_html_report_spec. simpl metrics. rewrite Hj. reflexivity.
Qed.

(** X13.  The happy path of [run], end to end.  When discovery and the
    loop return, the spreadsheet writer leaves [content] in the file, the
    template renders [html_report] from the lists as the loop left them,
    and the mail server accepts the session, [run] submits exactly one
    message: to the configured recipients, with the configured subject,
    the report as HTML text, and one attachment named [report.xlsx] whose
    payload is the content just written, whatever that path held before.
    The record lists are those the loop left. *)
Theorem run_mails_report_and_spreadsheet (w : world) (config : EmailConfig)
    (s s1 s2 : state) (content : list Byte.byte) (html_report : string) :
  get_node_metrics w s = (Ok tt, s1) ->
  for_each (node_list (metrics s1)) (collect_node w) s1 = (Ok tt, s2) ->
  excel_outcome w (metrics s2) = (Some content, None) ->
  jinja_render w "prometheus_report_zh.html" (bindings_of w (metrics s2))
    = Ok html_report ->
  MIMEText_raises w html_report "html" = None ->
  smtp_accepts w config (report_message config html_report content) ->
  let s' := snd (run w config s) in
  fst (run w config s) = Ok tt /\
  outbox s' =
    outbox s ++ [(username config, recipients config,
                  report_message config html_report content)] /\
  wire s' = wire s ++ session config (report_message config html_report content) /\
  headers (report_message config html_report content) =
    [("From", (from_name config ++ " <" ++ username config ++ ">")%string);
     ("To", String.concat ", " (recipients config));
     ("Subject", subject config)] /\
  parts (report_message config html_report content) =
    [MIMEText html_report "html";
     MIMEBase_octet_stream content "attachment; filename=report.xlsx"] /\
  metrics s' = metrics s2 /\
  read_result (files s') "report.xlsx" = Ok content /\
  log s' = log s2 ++ [excel_info "report.xlsx"; sent_info].
Proof.
  intros H1 H2 Hx Hj Ht Hs. cbv zeta.
  pose proof (collect_and_render_ok w s s1 s2 content html_report H1 H2 Hx Hj)
    as Hpre.
  destruct (collect_and_render_no_smtp w s) as [Hw Ho].
  rewrite Hpre in Hw, Ho. simpl in Hw, Ho.
  rewrite run_spec, Hpre. cbv iota beta.
  rewrite send_spec. change (content_type_of true) with "html". rewrite Ht.
  assert (Hmsg :
    composed_message config (subject config) html_report true
      (files (add_log (set_file s2 "report.xlsx" content)
                (excel_info "report.xlsx")))
      (Some ["report.xlsx"]) = report_message config html_report content).
  { unfold composed_message, report_message. simpl files. simpl paths_of.
    simpl readable_parts. reflexivity. }
  rewrite Hmsg. simpl paths_of. simpl files. simpl attachment_errors.
  rewrite (send_message_accepted _ _ _ _ Hs). simpl.
  rewrite Hw, Ho, read_after_write.
  repeat split.
  rewrite app_nil_r, <- app_assoc. reflexivity.
Qed.

Lemma run_mails_report_and_spreadsheet_witness :
  let s' := snd (run writing_world demo_config (initial_state old_files)) in
  map (fun m => parts (snd m)) (outbox s') =
    [[MIMEText "<html></html>" "html";
      MIMEBase_octet_stream [Byte.x50; Byte.x4b]
        "attachment; filename=report.xlsx"]] /\
  read_result (files s') "report.xlsx" = Ok [Byte.x50; Byte.x4b].
Proof.
  cbv zeta.
  pose (s1 := snd (get_node_metrics writing_world (initial_state old_files))).
  pose (s2 := snd (for_each (node_list (metrics s1))
                     (collect_node writing_world) s1)).
  destruct (run_mails_report_and_spreadsheet writing_world demo_config
              (initial_state old_files) s1 s2 [Byte.x50; Byte.x4b]
              "<html></html>")
    as (_ & Hout & _ & _ & _ & _ & Hread & _).
  - vm_compute. reflexivity.
  - vm_compute. reflexivity.
  - reflexivity.
  - reflexivity.
  - reflexivity.
  - repeat split.
  - split; [| exact Hread].
    rewrite Hout. vm_compute. reflexivity.
Defined.

(** X14.  When discovery finds no node, because its request failed or
    because the backend returned no sample, [run] makes no collector query
    and goes on to the reports: the node list is empty, the four record
    lists are what they were, and the spreadsheet and the HTML report are
    still generated from them (and mailed when they succeed). *)
Theorem run_without_nodes (w : world) (config : EmailConfig) (s : state) :
  no_node_found w (url (metrics s)) ->
  let s1 := set_metrics (add_logs s (query_log w (url (metrics s)) node_query))
              (set_node_list (metrics s) []) in
  get_node_metrics w s = (Ok tt, s1) /\
  collect_and_render w s =
    (generate_excel_report w "report.xlsx" ;; generate_html_report w)%monad s1 /\
  metrics (snd (run w config s)) = set_node_list (metrics s) [] /\
  (forall html_report s3,
     (generate_excel_report w "report.xlsx" ;; generate_html_report w)%monad s1
       = (Ok html_report, s3) ->
     snd (run w config s) =
       snd (send w config (subject config) html_report true
              (Some ["report.xlsx"]) s3)).
Proof.
  intros Hnone. cbv zeta.
  assert (Hd : discovered w (url (metrics s)) = Ok []).
  { unfold discovered. destruct Hnone as [[e H] | (body & R & D)].
    - rewrite (query_value_failed _ _ _ _ H). reflexivity.
    - rewrite (query_value_returns _ _ _ _ R), D. reflexivity. }
  assert (H1 : get_node_metrics w s =
               (Ok tt,
                set_metrics
                  (add_logs s (query_log w (url (metrics s)) node_query))
                  (set_node_list (metrics s) []))).
  { rewrite get_node_metrics_spec. cbv zeta. rewrite Hd. reflexivity. }
  assert (Hpre : collect_and_render w s =
    (generate_excel_report w "report.xlsx" ;; generate_html_report w)%monad
      (set_metrics (add_logs s (query_log w (url (metrics s)) node_query))
         (set_node_list (metrics s) []))).
  { unfold collect_and_render.
    rewrite (bind_ok _ _ _ _ _ H1).
    match goal with |- bind self_metrics ?k ?t = _ =>
      rewrite (bind_ok self_metrics k t (metrics t) t eq_refl)
    end.
    simpl node_list. simpl for_each. reflexivity. }
  split; [exact H1 |]. split; [exact Hpre |].
  assert (Hm : forall r t,
    (generate_excel_report w "report.xlsx" ;; generate_html_report w)%monad
      (set_metrics (add_logs s (query_log w (url (metrics s)) node_query))
         (set_node_list (metrics s) [])) = (r, t) ->
    metrics t = set_node_list (metrics s) []).
  { intros r t. rewrite bind_run, generate_excel_report_spec. cbv zeta.
    destruct (excel_outcome w _) as [[content |] [e |]]; simpl;
      try rewrite generate_html_report_spec;
      intros H; inversion H; subst; reflexivity. }
  split.
  - rewrite run_spec, Hpre.
    destruct ((generate_excel_report w "report.xlsx" ;;
               generate_html_report w)%monad _) as [[h | e] t] eqn:E.
    + simpl. rewrite (proj1 (send_frame _ _ _ _ _ _ _)).
      eapply Hm; reflexivity.
    + simpl. eapply Hm; reflexivity.
  - intros h s3 E. rewrite run_spec, Hpre, E. reflexivity.
Qed.

Lemma run_without_nodes_witness :
  let s' := snd (run down_world demo_config (initial_state [])) in
  node_list (metrics s') = [] /\ disk_list (metrics s') = [] /\
  List.length (outbox s') = 1%nat /\
  log s' = [query_error (OtherException "ConnectionError");
            excel_info "report.xlsx"; sent_info].
Proof.
  cbv zeta.
  destruct (run_without_nodes down_world demo_config (initial_state []))
    as (_ & _ & Hm & Hsend).
  - left. eexists. apply get_raises. reflexivity.
  - rewrite Hm. split; [reflexivity |]. split; [reflexivity |].
    erewrite Hsend by (vm_compute; reflexivity).
    vm_compute. repeat split.
Defined.

(* ================================================================== *)
(** ** The unit follows the magnitude *)
(* ================================================================== *)

(* ================================================================== *)
(** ** The formatters, by magnitude *)
(* ================================================================== *)

Lemma round_half_even_mono (x y : Q) :
  x <= y -> (round_half_even x <= round_half_even y)%Z.
Proof.
  intros Hxy.
  destruct (Z_le_gt_dec (round_half_even x) (round_half_even y)) as [H | H];
    [exact H |].
  destruct (round_half_even_near x) as [_ Hx].
  destruct (round_half_even_near y) as [Hy _].
  assert (Hz : inject_Z (round_half_even y) + 1 <= inject_Z (round_half_even x)).
  { change 1 with (inject_Z 1). rewrite <- inject_Z_plus, <- Zle_Qle. lia. }
  assert (E : x == y) by lra.
  rewrite (round_half_even_compat x y E) in H. lia.
Qed.

(** Rounding to the nearest double is monotone. *)
Lemma nearest_mono (a b : Q) : 0 < a -> a <= b -> nearest a <= nearest b.
Proof.
  intros Ha Hab.
  assert (Hb : 0 < b) by lra.
  pose proof (last_place_le a b Ha Hab) as He.
  pose proof (pow2_pos (last_place a)) as Pa.
  pose proof (pow2_pos (last_place b)) as Pb.
  rewrite !nearest_value.
  destruct (Z.eq_dec (last_place a) (last_place b)) as [E | E].
  - rewrite E in *. set (u := 2 ^ last_place b) in *. clearbody u.
    apply Qmult_le_compat_r; [| lra].
    rewrite <- Zle_Qle. apply round_half_even_mono.
    apply Qle_shift_div_l; [exact Pb |].
    setoid_replace (a / u * u) with a by (field; lra). exact Hab.
  - destruct (Qlog2_spec a Ha) as [_ A2].
    destruct (Qlog2_spec b Hb) as [B1 _].
    assert (Ea : (Qlog2 a + 1 <= last_place a + 53)%Z) by (unfold last_place; lia).
    assert (Eb : last_place b = (Qlog2 b - 52)%Z) by (unfold last_place in *; lia).
    assert (R : (round_half_even (a / 2 ^ last_place a) <= 2 ^ 53)%Z).
    { apply round_half_even_le. rewrite pow2_inject by lia.
      apply Qle_shift_div_r; [exact Pa |].
      rewrite <- pow2_plus. apply Qlt_le_weak.
      eapply Qlt_le_trans; [exact A2 |]. apply pow2_le. lia. }
    assert (S : (2 ^ 52 <= round_half_even (b / 2 ^ last_place b))%Z).
    { apply round_half_even_ge. rewrite pow2_inject by lia.
      apply Qle_shift_div_l; [exact Pb |].
      rewrite <- pow2_plus.
      eapply Qle_trans; [| exact B1]. apply pow2_le. lia. }
    rewrite Zle_Qle in R, S. rewrite pow2_inject in R, S by lia.
    eapply Qle_trans; [apply Qmult_le_compat_r; [exact R | lra] |].
    eapply Qle_trans; [| apply Qmult_le_compat_r; [exact S | lra]].
    rewrite <- !pow2_plus. apply pow2_le. lia.
Qed.

(** Two neighbours of the grid have no double between them. *)
Lemma no_double_between (p t x : Q) (m : Z) :
  0 < p ->
  p == inject_Z m * 2 ^ last_place p ->
  t == inject_Z (m + 1) * 2 ^ last_place p ->
  t <= 2 ^ (Qlog2 p + 1) ->
  on_grid x = true -> p < x -> x < t -> False.
Proof.
  intros Hp Ep Et Ht Gx Hpx Hxt.
  assert (Hx : 0 < x) by lra.
  destruct (Qlog2_spec p Hp) as [P1 _].
  assert (Lx : Qlog2 x = Qlog2 p).
  { apply Qlog2_unique; lra. }
  assert (Ex : last_place x = last_place p) by (unfold last_place; rewrite Lx; reflexivity).
  destruct (on_grid_units x Gx) as [mx Hmx]. rewrite Ex in Hmx.
  pose proof (pow2_pos (last_place p)) as Pu.
  set (u := 2 ^ last_place p) in *. clearbody u.
  assert (A : inject_Z m < inject_Z mx).
  { apply (Qmult_lt_r _ _ u Pu). lra. }
  assert (B : inject_Z mx < inject_Z (m + 1)).
  { apply (Qmult_lt_r _ _ u Pu). lra. }
  rewrite <- Zlt_Qlt in A, B. lia.
Qed.

Lemma threshold_pos (b : Q) k : 0 < b -> 0 < threshold b k.
Proof.
  intros Hb. induction k as [| k IH]; simpl; [reflexivity |].
  apply Qmult_lt_0_compat; assumption.
Qed.

Lemma threshold_power (b : Q) k : ~ b == 0 -> threshold b k == b ^ Z.of_nat k.
Proof.
  intros Hb. induction k as [| k IH].
  - reflexivity.
  - rewrite Nat2Z.inj_succ. unfold Z.succ.
    rewrite Qpower_plus by exact Hb.
    simpl threshold. rewrite IH, Qpower_1_r. apply Qmult_comm.
Qed.

(** Dividing a double below a power of the base: the rounded quotient is
    below the next lower power, because the quotient of the largest
    double below the one rounds below the other. *)
Lemma fdiv_below (b p t t' x : Q) (m : Z) :
  0 < b -> 0 < p ->
  p == inject_Z m * 2 ^ last_place p ->
  t == inject_Z (m + 1) * 2 ^ last_place p ->
  t <= 2 ^ (Qlog2 p + 1) ->
  nearest (p / b) < t' -> t' <= 2 ^ 1024 ->
  is_double (Fin x) = true -> 0 < x -> x < t ->
  exists x',
    fdiv (Fin x) (Fin b) = Fin x' /\ x' < t' /\ is_double (Fin x') = true.
Proof.
  intros Hb Hp Ep Et Ht Hn Ht' Dx Hx Hxt.
  destruct (is_double_pos x Dx Hx) as [Gx _].
  assert (Hxp : x <= p).
  { destruct (Qlt_le_dec p x) as [H | H]; [| exact H].
    exfalso. exact (no_double_between p t x m Hp Ep Et Ht Gx H Hxt). }
  assert (Hq : 0 < x / b).
  { apply Qlt_shift_div_l; [exact Hb |]. rewrite Qmult_0_l. exact Hx. }
  assert (Hle : x / b <= p / b).
  { apply Qle_shift_div_l; [exact Hb |].
    setoid_replace (x / b * b) with x by (field; lra). exact Hxp. }
  pose proof (nearest_mono (x / b) (p / b) Hq Hle) as Hm.
  pose proof (round64_is_double (x / b)) as Dr.
  unfold fdiv. cbn [value signbit].
  rewrite (Qsign_neg_nonneg x), (Qsign_neg_nonneg b) by lra. simpl xorb.
  assert (Z0 : Qis_zero x = false) by (apply Qis_zero_false; lra).
  rewrite Z0. unfold round64 in *.
  assert (Z1 : Qis_zero (x / b) = false) by (apply Qis_zero_false; lra).
  rewrite Z1 in *. rewrite (Qsign_neg_nonneg (x / b)) in * by lra.
  cbv zeta in *.
  assert (O : Qle_bool (2 ^ 1024) (nearest (x / b)) = false).
  { destruct (Qle_bool (2 ^ 1024) (nearest (x / b))) eqn:E; [| reflexivity].
    apply Qle_bool_iff in E. lra. }
  rewrite O in *. exists (nearest (x / b)).
  split; [reflexivity |]. split; [lra | exact Dr].
Qed.

(** The same lemma at the four powers of 1000 and the five powers of
    1024 the loops compare with. *)
Lemma bitrate_steps_down j x :
  (1 <= j <= 4)%nat ->
  is_double (Fin x) = true -> 0 < x -> x < threshold 1000 j ->
  exists x',
    fdiv (Fin x) f1000 = Fin x' /\ x' < threshold 1000 (j - 1) /\
    is_double (Fin x') = true.
Proof.
  intros Hj.
  assert (C : (j = 1 \/ j = 2 \/ j = 3 \/ j = 4)%nat) by lia.
  destruct C as [-> | [-> | [-> | ->]]].
  - apply (fdiv_below 1000 (1000 - 2 ^ (-43)) _ _ x (1000 * 2 ^ 43 - 1));
      try (vm_compute; reflexivity); vm_compute; discriminate.
  - apply (fdiv_below 1000 (1000000 - 2 ^ (-33)) _ _ x (1000000 * 2 ^ 33 - 1));
      try (vm_compute; reflexivity); vm_compute; discriminate.
  - apply (fdiv_below 1000 (1000000000 - 2 ^ (-23)) _ _ x
             (1000000000 * 2 ^ 23 - 1));
      try (vm_compute; reflexivity); vm_compute; discriminate.
  - apply (fdiv_below 1000 (1000000000000 - 2 ^ (-13)) _ _ x
             (1000000000000 * 2 ^ 13 - 1));
      try (vm_compute; reflexivity); vm_compute; discriminate.
Qed.

(** Dividing a double of at least 1024 by 1024 is exact: only the
    exponent changes. *)
Lemma fdiv_1024_exact (q : Q) :
  is_double (Fin q) = true -> 1024 <= q ->
  exists q',
    fdiv (Fin q) f1024 = Fin q' /\ q' == q / 1024 /\
    is_double (Fin q') = true.
Proof.
  intros Dq Hq.
  assert (Hpos : 0 < q) by lra.
  destruct (is_double_pos q Dq Hpos) as [Gq Bq].
  destruct (on_grid_units q Gq) as [m Hm].
  destruct (Qlog2_spec q Hpos) as [L1 L2].
  assert (L10 : (10 <= Qlog2 q)%Z).
  { assert (10 < Qlog2 q + 1)%Z; [| lia].
    apply pow2_lt_inv. eapply Qle_lt_trans; [| exact L2].
    eapply Qle_trans; [| exact Hq]. vm_compute. discriminate. }
  assert (Hd : 0 < q / 1024).
  { apply Qlt_shift_div_l; [reflexivity |]. rewrite Qmult_0_l. exact Hpos. }
  assert (E1024 : 2 ^ 10 == 1024) by reflexivity.
  assert (Ld : Qlog2 (q / 1024) = (Qlog2 q - 10)%Z).
  { apply Qlog2_unique.
    - rewrite pow2_minus, E1024.
      apply Qle_shift_div_l; [reflexivity |].
      setoid_replace (2 ^ Qlog2 q / 1024 * 1024) with (2 ^ Qlog2 q) by field.
      exact L1.
    - replace (Qlog2 q - 10 + 1)%Z with ((Qlog2 q + 1) - 10)%Z by lia.
      rewrite pow2_minus, E1024.
      apply Qlt_shift_div_r; [reflexivity |].
      setoid_replace (2 ^ (Qlog2 q + 1) / 1024 * 1024)
        with (2 ^ (Qlog2 q + 1)) by field.
      exact L2. }
  assert (Eq : last_place q = (Qlog2 q - 52)%Z) by (unfold last_place; lia).
  assert (Ed : last_place (q / 1024) = (last_place q - 10)%Z)
    by (unfold last_place; rewrite Ld; lia).
  assert (Gd : on_grid (q / 1024) = true).
  { apply (units_on_grid _ m). rewrite Ed, pow2_minus, E1024.
    set (u := 2 ^ last_place q) in *. clearbody u. rewrite Hm. field. }
  pose proof (nearest_on_grid _ Gd) as Nd.
  pose proof (round64_is_double (q / 1024)) as Dr.
  unfold fdiv, f1024. cbn [value signbit].
  rewrite (Qsign_neg_nonneg q), (Qsign_neg_nonneg 1024) by lra. simpl xorb.
  assert (Z0 : Qis_zero q = false) by (apply Qis_zero_false; lra).
  rewrite Z0. unfold round64 in *.
  assert (Z1 : Qis_zero (q / 1024) = false) by (apply Qis_zero_false; lra).
  rewrite Z1 in *. rewrite (Qsign_neg_nonneg (q / 1024)) in * by lra.
  cbv zeta in *.
  assert (O : Qle_bool (2 ^ 1024) (nearest (q / 1024)) = false).
  { destruct (Qle_bool (2 ^ 1024) (nearest (q / 1024))) eqn:E; [| reflexivity].
    apply Qle_bool_iff in E. rewrite Nd in E.
    assert (q / 1024 <= q).
    { apply Qle_shift_div_r; [reflexivity |]. lra. }
    lra. }
  rewrite O in *. exists (nearest (q / 1024)).
  split; [reflexivity |]. split; [exact Nd | exact Dr].
Qed.

Lemma threshold_step_le (b : Q) i k :
  1 <= b -> (i < k)%nat -> b * threshold b i <= threshold b k.
Proof.
  intros Hb Hik. induction Hik as [| k Hik IH].
  - simpl. apply Qle_refl.
  - simpl threshold.
    assert (0 <= (b - 1) * threshold b k).
    { apply Qmult_le_0_compat; [lra |].
      apply Qlt_le_weak, threshold_pos. lra. }
    lra.
Qed.

(** The byte loop divides exactly as long as the value is at least
    1024. *)
Lemma scaled_1024_exact k : forall q,
  is_double (Fin q) = true -> threshold 1024 k <= q ->
  exists q',
    scaled f1024 k (Fin q) = Fin q' /\ q' == q / threshold 1024 k /\
    is_double (Fin q') = true.
Proof.
  induction k as [| k IH]; intros q Dq Hq.
  - exists q. split; [reflexivity |]. split; [simpl; field | exact Dq].
  - pose proof (threshold_pos 1024 k ltac:(reflexivity)) as Tk.
    pose proof (threshold_ge_1 1024 k ltac:(discriminate)) as T1.
    simpl threshold in Hq.
    destruct (fdiv_1024_exact q Dq) as (q1 & E1 & V1 & D1); [nra |].
    destruct (IH q1 D1) as (q' & E' & V' & D').
    { rewrite V1. apply Qle_shift_div_l; [reflexivity |]. lra. }
    exists q'. cbn [scaled]. fold f1024. rewrite E1.
    split; [exact E' |]. split; [| exact D'].
    rewrite V', V1. simpl threshold. field. lra.
Qed.

(** The bitrate loop keeps a value between two powers of 1000 between
    the next lower two. *)
Lemma scaled_1000_band i : forall k q,
  (i <= k)%nat -> (k <= 3)%nat ->
  is_double (Fin q) = true ->
  threshold 1000 k <= q -> q < threshold 1000 (S k) ->
  exists x,
    scaled f1000 i (Fin q) = Fin x /\
    threshold 1000 (k - i) <= x /\ x < threshold 1000 (S (k - i)) /\
    is_double (Fin x) = true.
Proof.
  induction i as [| i IH]; intros k q Hik Hk Dq Hlo Hhi.
  - exists q. rewrite Nat.sub_0_r. repeat split; assumption.
  - destruct k as [| k]; [lia |].
    pose proof (threshold_pos 1000 k ltac:(reflexivity)) as Tk.
    assert (Hpos : 0 < q) by (simpl threshold in Hlo; nra).
    destruct (bitrate_steps_down (S (S k)) q ltac:(lia) Dq Hpos Hhi)
      as (q1 & E1 & U1 & D1).
    replace (S (S k) - 1)%nat with (S k) in U1 by lia.
    assert (L1 : threshold 1000 k <= q1).
    { pose proof (fdiv_above 1000 (threshold 1000 k) (Fin q)
                    ltac:(reflexivity) Tk
                    (bit_thresholds_on_grid k ltac:(lia))) as H.
      fold f1000 in H. rewrite E1 in H. apply H. exact Hlo. }
    destruct (IH k q1 ltac:(lia) ltac:(lia) D1 L1 U1) as (x & Ex & Lx & Ux & Dx).
    exists x. cbn [scaled]. rewrite E1.
    replace (S k - S i)%nat with (k - i)%nat by lia.
    repeat split; assumption.
Qed.

Lemma Qltb_compat (a b c d : Q) : a == b -> c == d -> Qltb a c = Qltb b d.
Proof.
  intros H1 H2.
  destruct (Qltb a c) eqn:E1, (Qltb b d) eqn:E2; try reflexivity.
  - apply Qltb_lt in E1. apply Qltb_ge in E2. rewrite H1, H2 in E1. lra.
  - apply Qltb_ge in E1. apply Qltb_lt in E2. rewrite H1, H2 in E1. lra.
Qed.

Lemma format_2f_compat (x y : pyfloat) : feq x y -> format_2f x = format_2f y.
Proof.
  destruct x as [a | | | |], y as [b | | | |]; simpl; try contradiction;
    try reflexivity.
  intros H. unfold Qsign_neg, format_2f_abs.
  rewrite (Qltb_compat a b 0 0 H (Qeq_refl 0)).
  destruct (Qltb b 0).
  - rewrite (round_half_even_compat (- a * 100) (- b * 100))
      by (rewrite H; reflexivity).
    reflexivity.
  - rewrite (round_half_even_compat (a * 100) (b * 100))
      by (rewrite H; reflexivity).
    reflexivity.
Qed.

(** Bytes between [1024 ^ k] and [1024 ^ (k+1)]: the loop stops at unit
    [k] with the exact quotient. *)
Lemma format_bytes_by_magnitude k q :
  (k <= 4)%nat -> is_double (Fin q) = true ->
  threshold 1024 k <= q -> q < threshold 1024 (S k) ->
  feq (scaled f1024 k (Fin q)) (Fin (q / threshold 1024 k)) /\
  _format_bytes (Fin q) =
    (format_2f (Fin (q / threshold 1024 k)) ++ " "
     ++ nth k byte_units "PB")%string.
Proof.
  intros Hk Dq Hlo Hhi.
  pose proof (threshold_pos 1024 k ltac:(reflexivity)) as Tk.
  destruct (scaled_1024_exact k q Dq Hlo) as (v & Ev & Vv & _).
  split; [rewrite Ev; exact Vv |].
  unfold _format_bytes. change ["B"; "KB"; "MB"; "GB"; "TB"] with byte_units.
  rewrite (format_loop_stops f1024 byte_units "PB" (Fin q) k).
  - rewrite Ev, (format_2f_compat (Fin v) (Fin (q / threshold 1024 k)) Vv).
    reflexivity.
  - simpl. lia.
  - intros i Hi.
    pose proof (threshold_pos 1024 i ltac:(reflexivity)) as Ti.
    pose proof (threshold_step_le 1024 i k ltac:(discriminate) Hi) as Hs.
    destruct (scaled_1024_exact i q Dq) as (x & Ex & Vx & _);
      [pose proof (threshold_ge_1 1024 i ltac:(discriminate)); lra |].
    rewrite Ex. simpl. apply Qltb_ge. rewrite Vx.
    apply Qle_shift_div_l; [exact Ti | lra].
  - intros _. rewrite Ev. simpl. apply Qltb_lt. rewrite Vv.
    apply Qlt_shift_div_r; [exact Tk |]. simpl threshold in Hhi. exact Hhi.
Qed.

(** A bitrate between [1000 ^ k] and [1000 ^ (k+1)]: the loop stops at
    unit [k], and the value it has then, divided and rounded [k] times,
    is in [[1, 1000)]. *)
Lemma format_bits_by_magnitude k q :
  (k <= 3)%nat -> is_double (Fin q) = true ->
  threshold 1000 k <= q -> q < threshold 1000 (S k) ->
  exists v,
    scaled f1000 k (Fin q) = Fin v /\
    _format_bits_per_second (Fin q) =
      (format_2f (Fin v) ++ " " ++ nth k bit_units "Tbps")%string /\
    1 <= v /\ v < 1000.
Proof.
  intros Hk Dq Hlo Hhi.
  destruct (scaled_1000_band k k q (le_n k) Hk Dq Hlo Hhi)
    as (v & Ev & Lv & Uv & _).
  rewrite Nat.sub_diag in Lv, Uv. simpl threshold in Lv, Uv.
  exists v. split; [exact Ev |]. split; [| split; lra].
  unfold _format_bits_per_second.
  change ["bps"; "Kbps"; "Mbps"; "Gbps"] with bit_units.
  rewrite (format_loop_stops f1000 bit_units "Tbps" (Fin q) k).
  - rewrite Ev. reflexivity.
  - simpl. lia.
  - intros i Hi.
    destruct (scaled_1000_band i k q ltac:(lia) Hk Dq Hlo Hhi)
      as (x & Ex & Lx & _ & _).
    rewrite Ex. simpl. apply Qltb_ge.
    eapply Qle_trans; [| exact Lx].
    replace (k - i)%nat with (S (k - i - 1)) by lia.
    simpl threshold.
    pose proof (threshold_ge_1 1000 (k - i - 1) ltac:(discriminate)). lra.
  - intros _. rewrite Ev. simpl. apply Qltb_lt. lra.
Qed.

(** X15.  The unit a value is printed in is decided by its magnitude.  A
    number of bytes (a double) between [1024^k] and [1024^(k+1)], for [k]
    up to 4, is printed in the [k]-th of B, KB, MB, GB, TB; the [k]
    divisions by 1024 are exact, so the number printed is the value
    divided by [1024^k], in [[1, 1024)], to two decimals.  A bitrate
    between [1000^k] and [1000^(k+1)], for [k] up to 3, is printed in the
    [k]-th of bps, Kbps, Mbps, Gbps; the number printed is the value after
    [k] divisions by 1000, each rounded to a double, and it is in
    [[1, 1000)]: rounding never moves a value across a unit. *)
Theorem unit_follows_magnitude (q : Q) (k : nat) :
  is_double (Fin q) = true ->
  ((k <= 4)%nat ->
   1024 ^ Z.of_nat k <= q -> q < 1024 ^ Z.of_nat (S k) ->
   _format_bytes (Fin q) =
     (format_2f (Fin (q / 1024 ^ Z.of_nat k)) ++ " "
      ++ nth k byte_units "PB")%string /\
   feq (scaled f1024 k (Fin q)) (Fin (q / 1024 ^ Z.of_nat k)) /\
   1 <= q / 1024 ^ Z.of_nat k /\ q / 1024 ^ Z.of_nat k < 1024) /\
  ((k <= 3)%nat ->
   1000 ^ Z.of_nat k <= q -> q < 1000 ^ Z.of_nat (S k) ->
   exists v,
     scaled f1000 k (Fin q) = Fin v /\
     _format_bits_per_second (Fin q) =
       (format_2f (Fin v) ++ " " ++ nth k bit_units "Tbps")%string /\
     1 <= v /\ v < 1000).
Proof.
  intros Dq.
  assert (N1 : ~ 1024 == 0) by (intros H; discriminate H).
  assert (N2 : ~ 1000 == 0) by (intros H; discriminate H).
  split; intros Hk Hlo Hhi.
  - pose proof (threshold_power 1024 k N1) as Pk.
    pose proof (threshold_power 1024 (S k) N1) as PSk.
    pose proof (threshold_pos 1024 k ltac:(reflexivity)) as Tk.
    rewrite <- Pk in Hlo. rewrite <- PSk in Hhi.
    destruct (format_bytes_by_magnitude k q Hk Dq Hlo Hhi) as (Hv & Hfmt).
    assert (E : q / threshold 1024 k == q / 1024 ^ Z.of_nat k)
      by (rewrite Pk; reflexivity).
    split; [| split; [| split]].
    + rewrite Hfmt.
      rewrite (format_2f_compat (Fin (q / threshold 1024 k))
                 (Fin (q / 1024 ^ Z.of_nat k)) E).
      reflexivity.
    + destruct (scaled f1024 k (Fin q)); simpl in *; try contradiction.
      rewrite Hv. exact E.
    + rewrite <- E. apply Qle_shift_div_l; [exact Tk | lra].
    + rewrite <- E. apply Qlt_shift_div_r; [exact Tk |].
      simpl threshold in Hhi. exact Hhi.
  - pose proof (threshold_power 1000 k N2) as Pk.
    pose proof (threshold_power 1000 (S k) N2) as PSk.
    rewrite <- Pk in Hlo. rewrite <- PSk in Hhi.
    exact (format_bits_by_magnitude k q Hk Dq Hlo Hhi).
Qed.

Lemma unit_follows_magnitude_witness :
  _format_bytes (Fin 5000000) =
    (format_2f (Fin (5000000 / 1024 ^ 2)) ++ " MB")%string /\
  (exists v,
     scaled f1000 1 (Fin 1015) = Fin v /\
     _format_bits_per_second (Fin 1015) = (format_2f (Fin v) ++ " Kbps")%string /\
     1 <= v /\ v < 1000) /\
  _format_bits_per_second (Fin 1015) = "1.01 Kbps".
Proof.
  assert (D1 : is_double (Fin 5000000) = true) by (vm_compute; reflexivity).
  assert (D2 : is_double (Fin 1015) = true) by (vm_compute; reflexivity).
  destruct (unit_follows_magnitude 5000000 2 D1) as [Hbytes _].
  destruct (unit_follows_magnitude 1015 1 D2) as [_ Hbits].
  split; [| split].
  - assert (L : 1024 ^ Z.of_nat 2 <= 5000000) by (vm_compute; discriminate).
    assert (U : 5000000 < 1024 ^ Z.of_nat 3) by (vm_compute; reflexivity).
    destruct (Hbytes ltac:(lia) L U) as [H _]. exact H.
  - assert (L : 1000 ^ Z.of_nat 1 <= 1015) by (vm_compute; discriminate).
    assert (U : 1015 < 1000 ^ Z.of_nat 2) by (vm_compute; reflexivity).
    exact (Hbits ltac:(lia) L U).
  - vm_compute. reflexivity.
Defined.

(** X16.  The formatters never scale a negative value: whatever its
    magnitude, a negative finite number is below the first threshold and
    is printed with its sign in the first unit (B, bps).  NaN is below no
    threshold and is printed in the last unit; so is positive infinity,
    while negative infinity is printed in the first. *)
Theorem negative_values_stay_in_first_unit (q : Q) :
  q < 0 ->
  _format_bytes (Fin q) = ("-" ++ format_2f_abs (- q) ++ " B")%string /\
  _format_bits_per_second (Fin q) =
    ("-" ++ format_2f_abs (- q) ++ " bps")%string /\
  _format_bytes NaN = "nan PB" /\
  _format_bits_per_second NaN = "nan Tbps" /\
  _format_bytes PInf = "inf PB" /\
  _format_bits_per_second PInf = "inf Tbps" /\
  _format_bytes NInf = "-inf B" /\
  _format_bits_per_second NInf = "-inf bps".
Proof.
  intros Hq.
  assert (H1 : Qltb q 1024 = true) by (apply Qltb_lt; lra).
  assert (H2 : Qltb q 1000 = true) by (apply Qltb_lt; lra).
  assert (H0 : Qltb q 0 = true) by (apply Qltb_lt; exact Hq).
  split.
  { unfold _format_bytes, f1024. simpl format_loop. unfold flt. cbn [value].
    rewrite H1.
    unfold format_2f, Qsign_neg. rewrite H0.
    reflexivity. }
  split.
  { unfold _format_bits_per_second, f1000. simpl format_loop. unfold flt.
    cbn [value].
    rewrite H2. unfold format_2f, Qsign_neg. rewrite H0.
    reflexivity. }
  repeat split; vm_compute; reflexivity.
Qed.

Lemma negative_values_stay_in_first_unit_witness :
  _format_bytes (Fin (- 53687091200)) = "-53687091200.00 B" /\
  _format_bits_per_second (Fin (- 2500)) = "-2500.00 bps".
Proof.
  split.
  - rewrite (proj1 (negative_values_stay_in_first_unit (- 53687091200)
                      ltac:(reflexivity))).
    vm_compute. reflexivity.
  - rewrite (proj1 (proj2 (negative_values_stay_in_first_unit (- 2500)
                             ltac:(reflexivity)))).
    vm_compute. reflexivity.
Defined.

(* ================================================================== *)
(** ** Attachments, in order *)
(* ================================================================== *)

Lemma readable_parts_order fs paths :
  Forall2 (fun p part =>
             exists payload,
               read_result fs p = Ok payload /\
               part = MIMEBase_octet_stream payload
                        ("attachment; filename=" ++ path_name p)%string)
          (filter (readable fs) paths) (readable_parts fs paths).
Proof.
  induction paths as [| p rest IH]; simpl; [constructor |].
  unfold readable at 1.
  destruct (read_result fs p) as [payload | e] eqn:E.
  - constructor; [| exact IH]. exists payload. split; [exact E | reflexivity].
  - exact IH.
Qed.

Lemma attachment_errors_order fs paths :
  Forall2 (fun p record =>
             exists e,
               read_result fs p = Raise e /\ record = attachment_error p e)
          (filter (fun p => negb (readable fs p)) paths)
          (attachment_errors fs paths).
Proof.
  induction paths as [| p rest IH]; simpl; [constructor |].
  unfold readable at 1.
  destruct (read_result fs p) as [payload | e] eqn:E; simpl.
  - exact IH.
  - constructor; [| exact IH]. exists e. split; [exact E | reflexivity].
Qed.

Lemma after_last_slash_none s : has_slash s = false -> after_last_slash s = s.
Proof. destruct s as [| c rest]; simpl; [reflexivity | intros ->; reflexivity]. Qed.

Lemma has_slash_app dir name : has_slash (dir ++ "/" ++ name)%string = true.
Proof.
  induction dir as [| c dir IH]; simpl; [reflexivity |].
  change (has_slash (dir ++ String "/" name) = true) in IH.
  rewrite IH. apply orb_true_r.
Qed.

Lemma path_name_last dir name :
  has_slash name = false -> path_name (dir ++ "/" ++ name)%string = name.
Proof.
  intros Hn. unfold path_name.
  assert (Hdot : String.eqb (dir ++ "/" ++ name)%string "." = false).
  { destruct (String.eqb (dir ++ "/" ++ name)%string ".") eqn:E;
      [| reflexivity].
    apply String.eqb_eq in E.
    pose proof (has_slash_app dir name) as H. rewrite E in H. discriminate H. }
  rewrite Hdot.
  induction dir as [| c dir IH].
  - simpl. apply after_last_slash_none. exact Hn.
  - change ((String c dir ++ "/" ++ name)%string)
      with (String c (dir ++ "/" ++ name)%string).
    cbn [after_last_slash].
    change (has_slash (String c (dir ++ "/" ++ name)))
      with ((Ascii.eqb c "/" || has_slash (dir ++ "/" ++ name)%string)%bool).
    rewrite has_slash_app, orb_true_r. apply IH.
    destruct (String.eqb (dir ++ "/" ++ name)%string ".") eqn:E;
      [| reflexivity].
    apply String.eqb_eq in E.
    pose proof (has_slash_app dir name) as H. rewrite E in H. discriminate H.
Qed.

(** X17.  [_add_attachments] keeps the order of the list it is given: the
    parts it attaches are those of the readable paths, in the order of the
    list (a path listed twice is attached twice), after the parts the
    message already had; the error records are those of the unreadable
    paths, in the same order; headers are untouched.  Each attachment is
    announced under the last component of its path (the text after the
    last slash). *)
Theorem attachments_keep_list_order (message : MIMEMultipart)
    (attachments : option (list Path)) (s : state) :
  let fs := files s in
  let paths := paths_of attachments in
  exists message' attached logged,
    _add_attachments message attachments s =
      (Ok message', add_logs s logged) /\
    headers message' = headers message /\
    parts message' = parts message ++ attached /\
    Forall2 (fun p part =>
               exists payload,
                 read_result fs p = Ok payload /\
                 part = MIMEBase_octet_stream payload
                          ("attachment; filename=" ++ path_name p)%string)
            (filter (readable fs) paths) attached /\
    Forall2 (fun p record =>
               exists e,
                 read_result fs p = Raise e /\ record = attachment_error p e)
            (filter (fun p => negb (readable fs p)) paths) logged /\
    (forall dir name,
       has_slash name = false -> name <> ""%string ->
       path_name (dir ++ "/" ++ name)%string = name).
Proof.
  cbv zeta. rewrite add_attachments_spec.
  eexists. eexists. eexists. split; [reflexivity |].
  split; [reflexivity |]. split; [reflexivity |].
  split; [apply readable_parts_order |].
  split; [apply attachment_errors_order |].
  intros dir name Hn _. apply path_name_last. exact Hn.
Qed.

Lemma attachments_keep_list_order_witness :
  let r := _add_attachments {| headers := []; parts := [] |}
             (Some ["a.txt"; "/srv/locked.bin"; "/srv/b.csv"; "a.txt"])
             (initial_state mixed_files) in
  (exists m, fst r = Ok m /\
     parts m =
       [MIMEBase_octet_stream [Byte.x61] "attachment; filename=a.txt";
        MIMEBase_octet_stream [Byte.x62] "attachment; filename=b.csv";
        MIMEBase_octet_stream [Byte.x61] "attachment; filename=a.txt"]) /\
  log (snd r) =
    [attachment_error "/srv/locked.bin" (OtherException "PermissionError")] /\
  path_name "/srv/b.csv" = "b.csv".
Proof.
  cbv zeta.
  destruct (attachments_keep_list_order {| headers := []; parts := [] |}
              (Some ["a.txt"; "/srv/locked.bin"; "/srv/b.csv"; "a.txt"])
              (initial_state mixed_files))
    as (m & attached & logged & Hrun & _ & _ & _ & _ & Hname).
  split; [| split].
  - exists m. rewrite Hrun. split; [reflexivity |].
    assert (E : fst (_add_attachments {| headers := []; parts := [] |}
                       (Some ["a.txt"; "/srv/locked.bin"; "/srv/b.csv"; "a.txt"])
                       (initial_state mixed_files)) = Ok m)
      by (rewrite Hrun; reflexivity).
    vm_compute in E. inversion E. reflexivity.
  - vm_compute. reflexivity.
  - apply (Hname "/srv" "b.csv"); [reflexivity | discriminate].
Defined.

(* ================================================================== *)
(** ** Usage percent outside the valid inputs *)
(* ================================================================== *)










(* ================================================================== *)
(** ** A body that cannot be encoded *)
(* ================================================================== *)

(** X19.  When [MIMEText] raises on the body, [send] stops there: it
    returns [False] and logs that one error; no attachment is read (an
    unreadable one is not even reported), no connection is opened and
    nothing is submitted. *)
Theorem unencodable_body_sends_nothing (w : world) (config : EmailConfig)
    (subject body : string) (html : bool) (attachments : option (list Path))
    (s : state) (e : exn) :
  MIMEText_raises w body (if html then "html" else "plain") = Some e ->
  send w config subject body html attachments s =
    (Ok false, add_log s (send_error "Failed to send email: " e)) /\
  let s' := snd (send w config subject body html attachments s) in
  wire s' = wire s /\ outbox s' = outbox s /\
  log s' = log s ++ [send_error "Failed to send email: " e].
Proof.
  intros H. rewrite send_spec.
  change (content_type_of html) with (if html then "html" else "plain").
  rewrite H. split; [reflexivity |]. simpl. repeat split.
Qed.

Lemma unencodable_body_sends_nothing_witness :
  let r := send unencodable_world demo_config "Daily report" "body" false
             (Some ["missing.xlsx"]) (initial_state []) in
  fst r = Ok false /\
  log (snd r) =
    [send_error "Failed to send email: " (OtherException "UnicodeEncodeError")] /\
  wire (snd r) = [] /\ outbox (snd r) = [].
Proof.
  cbv zeta.
  destruct (unencodable_body_sends_nothing unencodable_world demo_config
              "Daily report" "body" false (Some ["missing.xlsx"])
              (initial_state []) (OtherException "UnicodeEncodeError")
              eq_refl)
    as (Hrun & Hw & Ho & Hlog).
  rewrite Hrun in *. simpl in *. repeat split.
Defined.

(* ================================================================== *)
(** ** The floats of the program are doubles *)
(* ================================================================== *)

Lemma zero_of_sign_is_double b : is_double (zero_of_sign b) = true.
Proof. destruct b; reflexivity. Qed.

Lemma inf_of_sign_is_double b : is_double (inf_of_sign b) = true.
Proof. destruct b; reflexivity. Qed.

(** Subtraction, multiplication and division return doubles, whatever
    their arguments. *)
Lemma arithmetic_returns_doubles (x y : pyfloat) :
  is_double (fsub x y) = true /\
  is_double (fmul x y) = true /\
  is_double (fdiv x y) = true.
Proof.
  split; [| split].
  - destruct x as [a | | | |], y as [b | | | |]; simpl;
      try reflexivity; try apply round64_is_double.
    destruct (Qis_zero b); [reflexivity | apply round64_is_double].
  - unfold fmul.
    destruct x as [a | | | |], y as [b | | | |]; cbn [value];
      try reflexivity;
      repeat match goal with
             | |- context [if ?c then _ else _] => destruct c
             end;
      try reflexivity;
      try apply round64_is_double; try apply zero_of_sign_is_double;
      try apply inf_of_sign_is_double.
  - unfold fdiv.
    destruct x as [a | | | |], y as [b | | | |]; cbn [value];
      try reflexivity;
      repeat match goal with
             | |- context [if ?c then _ else _] => destruct c
             end;
      try reflexivity;
      try apply round64_is_double; try apply zero_of_sign_is_double;
      try apply inf_of_sign_is_double.
Qed.

(** So does [float] on a string or an int. *)
Lemma float_of_string_returns_double (s : string) (x : pyfloat) :
  float_of_string s = Ok x -> is_double x = true.
Proof.
  unfold float_of_string.
  destruct (sign_of (strip (list_ascii_of_string s))) as [neg body].
  destruct (String.eqb _ "inf" || String.eqb _ "infinity")%bool.
  - intros H; inversion H. apply inf_of_sign_is_double.
  - destruct (String.eqb _ "nan").
    + intros H; inversion H. reflexivity.
    + destruct (decimal_of body) as [q |]; [| discriminate].
      intros H; inversion H.
      destruct (Qis_zero q);
        [apply zero_of_sign_is_double | apply round64_is_double].
Qed.

Lemma float_of_int_returns_double (z : Z) (x : pyfloat) :
  float_of_int z = Ok x -> is_double x = true.
Proof.
  unfold float_of_int. pose proof (round64_is_double (inject_Z z)) as D.
  destruct (round64 (inject_Z z)); intros H; inversion H; subst; exact D.
Qed.

(** A sample whose value is a string or an int, as in a decoded
    Prometheus response, has a double for its value. *)
Lemma sample_value_returns_double (metric : json) (stamp : json) (x : pyfloat)
    (text : string) (z : Z) :
  (sample_value (JObj [("metric", metric); ("value", JArr [stamp; JStr text])])
     = Ok x -> is_double x = true) /\
  (sample_value (JObj [("metric", metric);
                       ("value", JArr [stamp; JNum (Int z)])])
     = Ok x -> is_double x = true).
Proof.
  split; intros H.
  - apply (float_of_string_returns_double text). exact H.
  - apply (float_of_int_returns_double z). exact H.
Qed.

(* ================================================================== *)
(** ** Sample evaluations *)
(* ================================================================== *)

Example format_probe :
  _format_bytes (Fin (-5000)) = "-5000.00 B" /\
  _format_bytes (round64 (1023999 # 1000)) = "1024.00 B" /\
  _format_bytes (round64 (- (1 # 1000))) = "-0.00 B" /\
  _format_bytes NZero = "-0.00 B" /\
  _format_bytes (round64 (1005 # 1000)) = "1.00 B" /\
  _format_bytes (round64 (1015 # 1000)) = "1.01 B" /\
  _format_bytes (Fin 107374182400) = "100.00 GB" /\
  _format_bytes NaN = "nan PB" /\
  _format_bytes PInf = "inf PB" /\
  _format_bytes NInf = "-inf B" /\
  _format_bits_per_second (Fin 1015) = "1.01 Kbps" /\
  _format_bits_per_second (Fin 2675) = "2.67 Kbps" /\
  _format_bits_per_second (Fin 2500000000000000) = "2500.00 Tbps".
Proof. repeat split; vm_compute; reflexivity. Qed.

Example float_probe :
  py_float (JStr "107374182400") = Ok (Fin 107374182400) /\
  py_float (JStr " -1_0.5e1 ") = Ok (Fin (- 105)) /\
  py_float (JStr "12.5") = Ok (Fin (25 # 2)) /\
  py_float (JStr "0.1") =
    Ok (Fin (3602879701896397 # 36028797018963968)) /\
  py_float (JStr "1.") = Ok (Fin 1) /\
  py_float (JStr "+Inf") = Ok PInf /\
  py_float (JStr "NaN") = Ok NaN /\
  py_float (JStr "1e400") = Ok PInf /\
  py_float (JStr "1e-400") = Ok (Fin 0) /\
  py_float (JStr "-1e-400") = Ok NZero /\
  py_float (JStr "-0") = Ok NZero /\
  py_float (JStr "1._5") = Raise ValueError /\
  py_float (JStr ".") = Raise ValueError /\
  py_float (JStr "1e") = Raise ValueError /\
  py_float (JStr "") = Raise ValueError /\
  py_float (JStr (String (ascii_of_nat 28) "1")) = Raise ValueError /\
  py_float (JStr (String (ascii_of_nat 160) "1")) = Ok (Fin 1) /\
  py_float (JNum (Int 3)) = Ok (Fin 3) /\
  py_float (JNum (Int (10 ^ 400))) = Raise OverflowError /\
  py_float JNull = Raise TypeError.
Proof. repeat split; vm_compute; reflexivity. Qed.

(** The text [1.015] is not the double it is read as, which is just below
    it and prints as [1.01]. *)
Example float_text_is_rounded :
  (exists x, py_float (JStr "1.015") = Ok x /\ format_2f x = "1.01") /\
  format_2f_abs (1015 # 1000) = "1.02".
Proof.
  split; [| vm_compute; reflexivity].
  exists (round64 (1015 # 1000)). split; vm_compute; reflexivity.
Qed.

(** The arithmetic agrees with the Standard Library's description of
    binary64 on the values used in the examples. *)
Example arithmetic_probe :
  to_spec (fdiv (Fin 1015) (Fin 1000)) =
    SFdiv 53 1024 (to_spec (Fin 1015)) (to_spec (Fin 1000)) /\
  to_spec (fdiv (Fin 2675) (Fin 1000)) =
    SFdiv 53 1024 (to_spec (Fin 2675)) (to_spec (Fin 1000)) /\
  to_spec (fsub (Fin 3) (Fin 1)) =
    SFsub 53 1024 (to_spec (Fin 3)) (to_spec (Fin 1)) /\
  to_spec (fmul (fdiv (fsub (Fin 3) (Fin 1)) (Fin 3)) (Fin 100)) =
    SFmul 53 1024
      (SFdiv 53 1024 (SFsub 53 1024 (to_spec (Fin 3)) (to_spec (Fin 1)))
         (to_spec (Fin 3)))
      (to_spec (Fin 100)) /\
  to_spec (fsub (Fin (10 ^ 16)) (Fin (- 1))) =
    SFsub 53 1024 (to_spec (Fin (10 ^ 16))) (to_spec (Fin (- 1))) /\
  to_spec (fmul (Fin (2 ^ 1023)) (Fin 2)) =
    SFmul 53 1024 (to_spec (Fin (2 ^ 1023))) (to_spec (Fin 2)) /\
  to_spec (fdiv (Fin (2 ^ (- 1074))) (Fin 2)) =
    SFdiv 53 1024 (to_spec (Fin (2 ^ (- 1074)))) (to_spec (Fin 2)) /\
  to_spec (fdiv (Fin (3 * 2 ^ (- 1074))) (Fin 2)) =
    SFdiv 53 1024 (to_spec (Fin (3 * 2 ^ (- 1074)))) (to_spec (Fin 2)) /\
  to_spec (fdiv (Fin (- 2 ^ (- 1074))) (Fin 4)) =
    SFdiv 53 1024 (to_spec (Fin (- 2 ^ (- 1074)))) (to_spec (Fin 4)).
Proof. repeat split; vm_compute; reflexivity. Qed.

Example path_probe :
  path_name "report.xlsx" = "report.xlsx" /\
  path_name "/var/tmp/report.xlsx" = "report.xlsx" /\
  path_name "/" = "" /\
  path_name "." = "".
Proof. repeat split. Qed.

Example demo_duplicate_node :
  let s' := snd (run twice_world demo_config (initial_state [])) in
  node_list (metrics s') = [node_a; node_a] /\
  map disk_device (disk_list (metrics s')) =
    [JStr "/dev/sda1"; JStr "/dev/sdb1"; JStr "/dev/sda1"; JStr "/dev/sdb1"] /\
  List.length (cpu_list (metrics s')) = 2%nat /\
  List.length (mem_list (metrics s')) = 2%nat /\
  List.length (net_list (metrics s')) = 2%nat.
Proof. vm_compute. repeat split. Qed.

Example percent_of_probe :
  percent_of (Fin 107374182400) (Fin 53687091200) = Float (Fin 50) /\
  percent_of (Fin 3) (Fin 1) =
    Float (Fin (2345624805922133 # 35184372088832)) /\
  percent_of (Fin 0) (Fin 0) = Int 0 /\
  percent_of NZero (Fin 0) = Int 0 /\
  percent_of (Fin (-1)) (Fin 5) = Int 0 /\
  percent_of NaN (Fin 5) = Int 0 /\
  percent_of PInf (Fin 5) = Float NaN /\
  percent_of (Fin 5) NaN = Float NaN /\
  percent_of (Fin (10 ^ 16)) (Fin (- 1)) = Float (Fin 100).
Proof. repeat split; vm_compute; reflexivity. Qed.
